(** * Chat backend: conversation store, read state, call signaling, fan-out

    A shallow embedding of [server/src/api/routes/chat] (the request
    handlers) and of [server/src/api/plugins/websocket.ts] (the connection
    registry and the dispatcher), with the theorems that relate them to the
    specification of the real-time core.

    Conventions.
    - A handler is a function from the world (database rows, clock,
      connection registry, log of effects) to a reply and a new world.  The
      handlers run to completion one at a time: the interleaving of two
      requests at an [await] is outside this development.
    - JavaScript numbers that the handlers receive are integers here ([Z]);
      a [Date] is its number of milliseconds since the epoch.
    - The persistence operations follow the Prisma client over the schema of
      the repository: [findUnique] and [findFirst] return [null] when no row
      matches, [update] rejects when the row is missing, [create] rejects
      when a foreign key has no target, a rejected write leaves the tables
      as they were. *)

From stdpp Require Import base option list sorting gmap strings.
From Stdlib Require Import ZArith Lia.

Open Scope Z_scope.

(** ** Data model (the Prisma schema) *)

Definition DateTime := Z.

Module ConversationType.
Inductive t := direct | group.
#[global] Instance ConversationType_eq_dec : EqDecision t.
Proof. solve_decision. Defined.
End ConversationType.

Module MessageType.
Inductive t := text | image | file | audio | video | call_audio | call_video.
#[global] Instance MessageType_eq_dec : EqDecision t.
Proof. solve_decision. Defined.
End MessageType.

Module MessageStatus.
Inductive t := sending | sent | delivered | read | failed.
#[global] Instance MessageStatus_eq_dec : EqDecision t.
Proof. solve_decision. Defined.
End MessageStatus.

Module CallStatus.
Inductive t := missed | answered | rejected | completed.
#[global] Instance CallStatus_eq_dec : EqDecision t.
Proof. solve_decision. Defined.
End CallStatus.

(** The [type] field of [initiateCallBody]. *)
Module CallType.
Inductive t := audio | video.
#[global] Instance CallType_eq_dec : EqDecision t.
Proof. solve_decision. Defined.
End CallType.

(** Of a user only the columns that the chat handlers select are kept. *)
Module User.
Record t := mk {
  id : Z;
  username : string;
  avatar : option string;
  status : string;
}.
#[global] Instance User_eq_dec : EqDecision t.
Proof. solve_decision. Defined.
End User.

Module Group.
Record t := mk {
  id : Z;
  name : string;
  avatar : option string;
}.
#[global] Instance Group_eq_dec : EqDecision t.
Proof. solve_decision. Defined.
End Group.

Module Conversation.
Record t := mk {
  id : Z;
  type : ConversationType.t;
  groupId : option Z;
  lastMessageAt : option DateTime;
  createdAt : DateTime;
  updatedAt : DateTime;
}.
#[global] Instance Conversation_eq_dec : EqDecision t.
Proof. solve_decision. Defined.
End Conversation.

Module ConversationParticipant.
Record t := mk {
  id : Z;
  conversationId : Z;
  userId : Z;
  lastReadAt : DateTime;
  isArchived : bool;
  isMuted : bool;
  joinedAt : DateTime;
}.
#[global] Instance ConversationParticipant_eq_dec : EqDecision t.
Proof. solve_decision. Defined.
End ConversationParticipant.

Module Message.
Record t := mk {
  id : Z;
  conversationId : Z;
  senderId : Z;
  receiverId : option Z;
  content : option string;
  type : MessageType.t;
  mediaUrl : option string;
  replyToId : option Z;
  status : MessageStatus.t;
  callStatus : option CallStatus.t;
  callStartedAt : option DateTime;
  callEndedAt : option DateTime;
  callDuration : option Z;
  createdAt : DateTime;
  updatedAt : DateTime;
  deletedAt : option DateTime;
}.
#[global] Instance Message_eq_dec : EqDecision t.
Proof. solve_decision. Defined.
End Message.

(** ** Replies and events *)

(** The message object that [getMessages], [sendMessage] and [initiateCall]
    build ([formattedMessage], [formattedCallMessage]). *)
Module FormattedSender.
Record t := mk {
  id : Z;
  username : string;
  avatar : option string;
}.
#[global] Instance FormattedSender_eq_dec : EqDecision t.
Proof. solve_decision. Defined.
End FormattedSender.

Module FormattedReplyTo.
Record t := mk {
  id : Z;
  content : option string;
  senderId : Z;
  senderName : string;
}.
#[global] Instance FormattedReplyTo_eq_dec : EqDecision t.
Proof. solve_decision. Defined.
End FormattedReplyTo.

Module FormattedMessage.
Record t := mk {
  id : Z;
  conversationId : Z;
  senderId : Z;
  content : option string;
  type : MessageType.t;
  mediaUrl : option string;
  status : MessageStatus.t;
  createdAt : DateTime;
  updatedAt : DateTime;
  sender : FormattedSender.t;
  replyTo : option FormattedReplyTo.t;
  callStatus : option CallStatus.t;
  callDuration : option Z;
}.
#[global] Instance FormattedMessage_eq_dec : EqDecision t.
Proof. solve_decision. Defined.
End FormattedMessage.

(** The events that the handlers below hand to the dispatcher, one
    constructor per [type] tag; the frame written to a socket is the event
    itself ([JSON.stringify] is not modelled). *)
Inductive ServerEvent :=
| new_message (data : FormattedMessage.t)
| message_deleted (messageId conversationId : Z) (deletedAt : DateTime)
| message_read (messageId conversationId readBy : Z) (readAt : DateTime)
| incoming_call (data : FormattedMessage.t) (callType : CallType.t).

#[export] Instance ServerEvent_eq_dec : EqDecision ServerEvent.
Proof. solve_decision. Defined.

(** Modelled from the spec: the module [utils/response] is imported by the
    handlers and is not among the sources.  A reply records which helper the
    handler called and with which arguments; the spec gives the reading
    [notFound] = NotFound (404), [error _ 403] = Forbidden, [error _ 400] =
    InvalidArgument, [unauthorized] = Unauthenticated (401), [serverError] =
    Internal (500), [success] = 200. *)
Inductive Reply (A : Type) :=
| success (data : A) (message : option string)
| error (message : string) (code : Z)
| notFound (message : string)
| unauthorized
| serverError (message : string).

Arguments success {A} data message.
Arguments error {A} message code.
Arguments notFound {A} message.
Arguments unauthorized {A}.
Arguments serverError {A} message.

Definition statusCode {A} (r : Reply A) : Z :=
  match r with
  | success _ _ => 200
  | error _ code => code
  | notFound _ => 404
  | unauthorized => 401
  | serverError _ => 500
  end.

Definition isSuccess {A} (r : Reply A) : bool :=
  match r with success _ _ => true | _ => false end.

(** ** The world *)

Inductive ReadyState := CONNECTING | OPEN | CLOSING | CLOSED.

#[export] Instance ReadyState_eq_dec : EqDecision ReadyState.
Proof. solve_decision. Defined.

(** A socket object: its identity, its state, the frames written to it. *)
Module WebSocket.
Record t := mk {
  wsId : Z;
  readyState : ReadyState;
  sent : list ServerEvent;
}.
#[global] Instance WebSocket_eq_dec : EqDecision t.
Proof. solve_decision. Defined.
End WebSocket.

(** What a handler does to the outside, in program order. *)
Inductive Effect :=
| MessageCreated (row : Message.t)
| MessageUpdated (id : Z)
| MessagesUpdatedMany (conversationId : Z)
| ConversationCreated (row : Conversation.t)
| ConversationUpdated (id : Z) (lastMessageAt : option DateTime)
| ParticipantUpdated (conversationId userId : Z) (lastReadAt : DateTime)
| WsSend (userId wsId : Z) (frame : ServerEvent).

Record Db := mkDb {
  users : list User.t;
  groups : list Group.t;
  conversations : list Conversation.t;
  participants : list ConversationParticipant.t;
  messages : list Message.t;
  nextConversationId : Z;
  nextParticipantId : Z;
  nextMessageId : Z;
}.

(** [clock] is the last time read; [ticks] is the time that elapses before
    each of the coming reads ([new Date()], [now()], [@updatedAt]), chosen
    by the environment.  [connections] is the module-level [Map] of
    websocket.ts: a user id is mapped to the [Set] of its sockets, kept in
    insertion order as [forEach] visits it. *)
Record World := mkWorld {
  db : Db;
  clock : DateTime;
  ticks : list N;
  connections : gmap Z (list WebSocket.t);
  trace : list Effect;
}.

Definition with_db (d : Db) (w : World) : World :=
  mkWorld d (clock w) (ticks w) (connections w) (trace w).

Definition with_connections (c : gmap Z (list WebSocket.t)) (w : World) : World :=
  mkWorld (db w) (clock w) (ticks w) c (trace w).

Definition log (es : list Effect) (w : World) : World :=
  mkWorld (db w) (clock w) (ticks w) (connections w) (trace w ++ es).

Definition with_conversations (l : list Conversation.t) (d : Db) : Db :=
  mkDb (users d) (groups d) l (participants d) (messages d)
       (nextConversationId d) (nextParticipantId d) (nextMessageId d).

Definition with_participants (l : list ConversationParticipant.t) (d : Db) : Db :=
  mkDb (users d) (groups d) (conversations d) l (messages d)
       (nextConversationId d) (nextParticipantId d) (nextMessageId d).

Definition with_messages (l : list Message.t) (d : Db) : Db :=
  mkDb (users d) (groups d) (conversations d) (participants d) l
       (nextConversationId d) (nextParticipantId d) (nextMessageId d).

(** ** Tasks: state, exceptions, [try]/[catch] *)

Inductive PrismaError :=
| RecordNotFound
| ForeignKeyViolation
| UniqueConstraintViolation
| ValidationError
| InconsistentResult.

Inductive Outcome (A : Type) :=
| Return (a : A)
| Throw (e : PrismaError).

Arguments Return {A} a.
Arguments Throw {A} e.

Definition Task (A : Type) : Type := World → Outcome A * World.

#[export] Instance Task_ret : MRet Task := λ A a w, (Return a, w).

#[export] Instance Task_bind : MBind Task := λ A B f c w,
  match c w with
  | (Return a, w') => f a w'
  | (Throw e, w') => (Throw e, w')
  end.

Definition throw {A} (e : PrismaError) : Task A := λ w, (Throw e, w).

(** [try { body } catch (error) { request.log.error(error); return handler }] *)
Definition try_catch {A} (body : Task A) (handler : A) : Task A := λ w,
  match body w with
  | (Return a, w') => (Return a, w')
  | (Throw _, w') => (Return handler, w')
  end.

Definition gets {A} (f : World → A) : Task A := λ w, (Return (f w), w).

Definition modify (f : World → World) : Task unit := λ w, (Return tt, f w).

(** One reading of the clock. *)
Definition now : Task DateTime := λ w,
  let t := clock w + Z.of_N (hd 0%N (ticks w)) in
  (Return t, mkWorld (db w) t (tl (ticks w)) (connections w) (trace w)).

(** [if (x)] on an optional number: [undefined] and [0] are falsy. *)
Definition truthy (x : option Z) : option Z :=
  match x with
  | Some 0 => None
  | Some n => Some n
  | None => None
  end.

(** ** The persistence service (the Prisma client over the schema) *)

(** Nullable timestamps as SQLite orders them: [NULL] is the least value,
    so a descending order puts the rows without a date last. *)
Definition date_le (a b : option DateTime) : Prop :=
  match a, b with
  | None, _ => True
  | Some _, None => False
  | Some x, Some y => x ≤ y
  end.

#[global] Instance date_le_dec a b : Decision (date_le a b).
Proof. destruct a, b; simpl; apply _. Defined.

Module prisma.

(** The first row of a table that satisfies [where]. *)
Definition findFirst {A} (P : A → Prop) `{!∀ x, Decision (P x)}
    (rows : list A) : option A :=
  head (filter P rows).

(** The table after [f] was applied to the rows that satisfy [where]. *)
Definition updateWhere {A} (P : A → Prop) `{!∀ x, Decision (P x)}
    (f : A → A) (rows : list A) : list A :=
  (λ r, if decide (P r) then f r else r) <$> rows.

(** A relation that the schema declares as required. *)
Definition required {A} (x : option A) : Task A :=
  match x with
  | Some a => mret a
  | None => throw InconsistentResult
  end.

(** [skip] must not be negative. *)
Definition paginate {A} (skip take_ : Z) (rows : list A) : Task (list A) :=
  if decide (skip < 0) then throw ValidationError
  else mret (take (Z.to_nat take_) (drop (Z.to_nat skip) rows)).

Definition userOf (d : Db) (id : Z) : option User.t :=
  findFirst (λ u, User.id u = id) (users d).

Definition groupOf (d : Db) (id : Z) : option Group.t :=
  findFirst (λ g, Group.id g = id) (groups d).

Definition conversationOf (d : Db) (id : Z) : option Conversation.t :=
  findFirst (λ c, Conversation.id c = id) (conversations d).

Definition messageOf (d : Db) (id : Z) : option Message.t :=
  findFirst (λ m, Message.id m = id) (messages d).

Definition participantsOf (d : Db) (conversationId : Z)
    : list ConversationParticipant.t :=
  filter (λ p, ConversationParticipant.conversationId p = conversationId)
         (participants d).

Definition messagesOf (d : Db) (conversationId : Z) : list Message.t :=
  filter (λ m, Message.conversationId m = conversationId) (messages d).

(** [orderBy: { createdAt: "desc" }] *)
Definition newer_first (a b : Message.t) : Prop :=
  Message.createdAt b ≤ Message.createdAt a.

#[global] Instance newer_first_dec a b : Decision (newer_first a b).
Proof. unfold newer_first. apply _. Defined.

Definition orderByCreatedAtDesc (rows : list Message.t) : list Message.t :=
  merge_sort newer_first rows.

(** [orderBy: { lastMessageAt: "desc" }] *)
Definition later_first (a b : Conversation.t) : Prop :=
  date_le (Conversation.lastMessageAt b) (Conversation.lastMessageAt a).

#[global] Instance later_first_dec a b : Decision (later_first a b).
Proof. unfold later_first. apply _. Defined.

Definition orderByLastMessageAtDesc (rows : list Conversation.t)
    : list Conversation.t :=
  merge_sort later_first rows.

Module user.
Definition findUnique (id : Z) : Task (option User.t) :=
  gets (λ w, userOf (db w) id).
End user.

Module conversationParticipant.
(** [where: { conversationId_userId: { conversationId, userId } }] *)
Definition key (conversationId userId : Z) (p : ConversationParticipant.t)
    : Prop :=
  ConversationParticipant.conversationId p = conversationId
  ∧ ConversationParticipant.userId p = userId.

#[global] Instance key_dec c u p : Decision (key c u p).
Proof. unfold key. apply _. Defined.

Definition findUnique (conversationId userId : Z)
    : Task (option ConversationParticipant.t) :=
  gets (λ w, findFirst (key conversationId userId) (participants (db w))).

Definition findMany (P : ConversationParticipant.t → Prop)
    `{!∀ x, Decision (P x)} : Task (list ConversationParticipant.t) :=
  gets (λ w, filter P (participants (db w))).

Definition count (P : ConversationParticipant.t → Prop)
    `{!∀ x, Decision (P x)} : Task Z :=
  gets (λ w, Z.of_nat (length (filter P (participants (db w))))).

Definition set_lastReadAt (t : DateTime) (p : ConversationParticipant.t)
    : ConversationParticipant.t :=
  ConversationParticipant.mk
    (ConversationParticipant.id p)
    (ConversationParticipant.conversationId p)
    (ConversationParticipant.userId p)
    t
    (ConversationParticipant.isArchived p)
    (ConversationParticipant.isMuted p)
    (ConversationParticipant.joinedAt p).

(** [update({ where: { conversationId_userId }, data: { lastReadAt } })] *)
Definition update (conversationId userId : Z) (lastReadAt : DateTime)
    : Task unit :=
  found ← findUnique conversationId userId;
  match found with
  | None => throw RecordNotFound
  | Some _ =>
      modify (λ w,
        log [ParticipantUpdated conversationId userId lastReadAt]
          (with_db (with_participants
                      (updateWhere (key conversationId userId)
                                   (set_lastReadAt lastReadAt)
                                   (participants (db w)))
                      (db w)) w))
  end.
End conversationParticipant.

Module conversation.
Definition findUnique (id : Z) : Task (option Conversation.t) :=
  gets (λ w, conversationOf (db w) id).

(** [findUnique({ where: { id }, include: { participants: true } })] *)
Definition findUnique_participants (id : Z)
    : Task (option (Conversation.t * list ConversationParticipant.t)) :=
  gets (λ w, c ← conversationOf (db w) id;
             Some (c, participantsOf (db w) id)).

Definition set_lastMessageAt (t : option DateTime) (updatedAt : DateTime)
    (c : Conversation.t) : Conversation.t :=
  Conversation.mk (Conversation.id c) (Conversation.type c)
    (Conversation.groupId c) t (Conversation.createdAt c) updatedAt.

(** [update({ where: { id }, data: { lastMessageAt } })]; [updatedAt]
    is an [@updatedAt] column. *)
Definition update (id : Z) (lastMessageAt : DateTime) : Task unit :=
  found ← findUnique id;
  match found with
  | None => throw RecordNotFound
  | Some _ =>
      t ← now;
      modify (λ w,
        log [ConversationUpdated id (Some lastMessageAt)]
          (with_db (with_conversations
                      (updateWhere (λ c, Conversation.id c = id)
                         (set_lastMessageAt (Some lastMessageAt) t)
                         (conversations (db w)))
                      (db w)) w))
  end.

(** [create({ data: { type: "direct", participants: { create: [...] } } })]:
    the conversation and its participant rows in one transaction. *)
Definition create (type : ConversationType.t) (userIds : list Z)
    : Task Conversation.t :=
  d ← gets db;
  if decide (Forall (λ u, is_Some (userOf d u)) userIds) then
    if decide (NoDup userIds) then
      t ← now;
      let row := Conversation.mk (nextConversationId d) type None None t t in
      let rows :=
        imap (λ i u, ConversationParticipant.mk
                       (nextParticipantId d + Z.of_nat i)
                       (nextConversationId d) u t false false t)
             userIds in
      modify (λ w,
        log [ConversationCreated row]
          (with_db (mkDb (users d) (groups d)
                         (conversations d ++ [row])
                         (participants d ++ rows)
                         (messages d)
                         (nextConversationId d + 1)
                         (nextParticipantId d + Z.of_nat (length userIds))
                         (nextMessageId d)) w));;
      mret row
    else throw UniqueConstraintViolation
  else throw ForeignKeyViolation.
End conversation.

Module message.
Definition findUnique (id : Z) : Task (option Message.t) :=
  gets (λ w, messageOf (db w) id).

Definition count (P : Message.t → Prop) `{!∀ x, Decision (P x)} : Task Z :=
  gets (λ w, Z.of_nat (length (filter P (messages (db w))))).

Record CreateInput := mkCreateInput {
  conversationId : Z;
  senderId : Z;
  receiverId : option Z;
  content : option string;
  type : MessageType.t;
  mediaUrl : option string;
  replyToId : option Z;
  callStatus : option CallStatus.t;
  callStartedAt : option DateTime;
}.

Definition references_ok (d : Db) (data : CreateInput) : Prop :=
  is_Some (conversationOf d (conversationId data))
  ∧ is_Some (userOf d (senderId data))
  ∧ from_option (λ r, is_Some (userOf d r)) True (receiverId data)
  ∧ from_option (λ r, is_Some (messageOf d r)) True (replyToId data).

#[global] Instance references_ok_dec d data : Decision (references_ok d data).
Proof.
  unfold references_ok.
  destruct (receiverId data), (replyToId data); simpl; apply _.
Defined.

(** [create({ data })]: [id] is the next key, [createdAt] and
    [updatedAt] are the time of the insertion, [status] is the value
    that the handler passes, which is also the column default. *)
Definition create (data : CreateInput) (status : MessageStatus.t)
    : Task Message.t :=
  d ← gets db;
  if decide (references_ok d data) then
    t ← now;
    let row :=
      Message.mk (nextMessageId d) (conversationId data) (senderId data)
        (receiverId data) (content data) (type data) (mediaUrl data)
        (replyToId data) status (callStatus data) (callStartedAt data)
        None None t t None in
    modify (λ w,
      log [MessageCreated row]
        (with_db (mkDb (users d) (groups d) (conversations d)
                       (participants d) (messages d ++ [row])
                       (nextConversationId d) (nextParticipantId d)
                       (nextMessageId d + 1)) w));;
    mret row
  else throw ForeignKeyViolation.

Definition set_status (s : MessageStatus.t) (updatedAt : DateTime)
    (m : Message.t) : Message.t :=
  Message.mk (Message.id m) (Message.conversationId m) (Message.senderId m)
    (Message.receiverId m) (Message.content m) (Message.type m)
    (Message.mediaUrl m) (Message.replyToId m) s (Message.callStatus m)
    (Message.callStartedAt m) (Message.callEndedAt m)
    (Message.callDuration m) (Message.createdAt m) updatedAt
    (Message.deletedAt m).

(** [updateMany({ where, data: { status } })] *)
Definition updateMany (P : Message.t → Prop) `{!∀ x, Decision (P x)}
    (conversationId : Z) (status : MessageStatus.t) : Task unit :=
  t ← now;
  modify (λ w,
    log [MessagesUpdatedMany conversationId]
      (with_db (with_messages
                  (updateWhere P (set_status status t) (messages (db w)))
                  (db w)) w)).

Definition set_deleted (deletedAt : DateTime) (updatedAt : DateTime)
    (m : Message.t) : Message.t :=
  Message.mk (Message.id m) (Message.conversationId m) (Message.senderId m)
    (Message.receiverId m) None (Message.type m)
    (Message.mediaUrl m) (Message.replyToId m) (Message.status m)
    (Message.callStatus m) (Message.callStartedAt m) (Message.callEndedAt m)
    (Message.callDuration m) (Message.createdAt m) updatedAt
    (Some deletedAt).

(** [update({ where: { id }, data: { deletedAt, content: null } })] *)
Definition update_deleted (id : Z) (deletedAt : DateTime) : Task unit :=
  found ← findUnique id;
  match found with
  | None => throw RecordNotFound
  | Some _ =>
      t ← now;
      modify (λ w,
        log [MessageUpdated id]
          (with_db (with_messages
                      (updateWhere (λ m, Message.id m = id)
                         (set_deleted deletedAt t) (messages (db w)))
                      (db w)) w))
  end.
End message.

End prisma.

(** ** The connection registry and the dispatcher (websocket.ts) *)

(** [ws.send(messageStr)] *)
Definition send (messageStr : ServerEvent) (ws : WebSocket.t) : WebSocket.t :=
  WebSocket.mk (WebSocket.wsId ws) (WebSocket.readyState ws)
               (WebSocket.sent ws ++ [messageStr]).

(** [userConnections.forEach((ws) => { if (ws.readyState === WebSocket.OPEN)
    ws.send(messageStr) })]: the sockets after the loop, and the writes the
    loop made, in the order of the set. *)
Definition forEach_send (messageStr : ServerEvent)
    (userConnections : list WebSocket.t) : list WebSocket.t :=
  (λ ws, if decide (WebSocket.readyState ws = OPEN)
         then send messageStr ws else ws) <$> userConnections.

Definition sends (userId : Z) (messageStr : ServerEvent)
    (userConnections : list WebSocket.t) : list Effect :=
  (λ ws, WsSend userId (WebSocket.wsId ws) messageStr)
    <$> filter (λ ws, WebSocket.readyState ws = OPEN) userConnections.

(** The body shared by the two dispatch functions:
    [const userConnections = connections.get(userId);
     if (userConnections) { userConnections.forEach(...) }] *)
Definition deliver (messageStr : ServerEvent) (w : World) (userId : Z) : World :=
  match connections w !! userId with
  | Some userConnections =>
      log (sends userId messageStr userConnections)
          (with_connections
             (<[userId := forEach_send messageStr userConnections]>
                (connections w)) w)
  | None => w
  end.

Definition broadcastToUser (userId : Z) (message : ServerEvent) (w : World)
    : World :=
  deliver message w userId.

Definition broadcastToUsers (userIds : list Z) (message : ServerEvent)
    (w : World) : World :=
  foldl (deliver message) w userIds.

(** [Set.prototype.add]: a socket that is in the set is not added again. *)
Definition set_add (ws : WebSocket.t) (s : list WebSocket.t) : list WebSocket.t :=
  if decide (Exists (λ x, WebSocket.wsId x = WebSocket.wsId ws) s)
  then s else s ++ [ws].

Definition addConnection (userId : Z) (ws : WebSocket.t) (w : World) : World :=
  let m := match connections w !! userId with
           | Some _ => connections w
           | None => <[userId := []]> (connections w)
           end in
  with_connections (alter (set_add ws) userId m) w.

Definition removeConnection (userId : Z) (ws : WebSocket.t) (w : World) : World :=
  match connections w !! userId with
  | Some userConnections =>
      let rest := filter (λ x, WebSocket.wsId x ≠ WebSocket.wsId ws)
                         userConnections in
      if decide (length rest = 0%nat)
      then with_connections (delete userId (connections w)) w
      else with_connections (<[userId := rest]> (connections w)) w
  | None => w
  end.

(** The connections of a user that a dispatch can write to. *)
Definition liveConnections (w : World) (userId : Z) : list WebSocket.t :=
  filter (λ ws, WebSocket.readyState ws = OPEN)
         (default [] (connections w !! userId)).

(** The frames written so far to the sockets registered for a user. *)
Definition received (w : World) (userId : Z) : list (Z * list ServerEvent) :=
  (λ ws, (WebSocket.wsId ws, WebSocket.sent ws))
    <$> default [] (connections w !! userId).

(** The writes of a log that go to a given user. *)
Definition isSendTo (userId : Z) (e : Effect) : Prop :=
  match e with WsSend u _ _ => u = userId | _ => False end.

#[global] Instance isSendTo_dec userId e : Decision (isSendTo userId e).
Proof. destruct e; simpl; apply _. Defined.

Definition sendsTo (userId : Z) (es : list Effect) : list Effect :=
  filter (isSendTo userId) es.

(** ** The handlers (routes/chat) *)

(** Request bodies, as the zod schemas admit them. *)
Module SendMessageBody.
Inductive type_ := text | image | file | audio | video.

Definition messageType (ty : type_) : MessageType.t :=
  match ty with
  | text => MessageType.text
  | image => MessageType.image
  | file => MessageType.file
  | audio => MessageType.audio
  | video => MessageType.video
  end.

Record t := mk {
  conversationId : Z;
  content : string;
  type : type_;
  mediaUrl : option string;
  replyToId : option Z;
}.
End SendMessageBody.

Module ReadMessagesBody.
Record t := mk {
  conversationId : Z;
  lastReadMessageId : option Z;
}.
End ReadMessagesBody.

Module InitiateCallBody.
Record t := mk {
  conversationId : Z;
  type : CallType.t;
}.
End InitiateCallBody.

(** [include: { sender: ..., replyTo: { select: { ..., sender } } }]: the
    sender is a required relation, the message replied to an optional one. *)
Definition senderOf (d : Db) (m : Message.t) : option User.t :=
  prisma.userOf d (Message.senderId m).

Definition replyToOf (d : Db) (m : Message.t)
    : option (option (Message.t * User.t)) :=
  match Message.replyToId m with
  | None => Some None
  | Some r =>
      match prisma.messageOf d r with
      | None => Some None
      | Some rm => u ← senderOf d rm; Some (Some (rm, u))
      end
  end.

Definition formatSender (u : User.t) : FormattedSender.t :=
  FormattedSender.mk (User.id u) (User.username u) (User.avatar u).

Definition formatReplyTo (r : Message.t * User.t) : FormattedReplyTo.t :=
  FormattedReplyTo.mk (Message.id r.1) (Message.content r.1)
                      (Message.senderId r.1) (User.username r.2).

Definition formatMessage (message : Message.t) (sender : User.t)
    (replyTo : option (Message.t * User.t)) : FormattedMessage.t :=
  FormattedMessage.mk
    (Message.id message) (Message.conversationId message)
    (Message.senderId message) (Message.content message)
    (Message.type message) (Message.mediaUrl message)
    (Message.status message) (Message.createdAt message)
    (Message.updatedAt message) (formatSender sender)
    (formatReplyTo <$> replyTo)
    (Message.callStatus message) (Message.callDuration message).

(** [conversation.participants.some((p) => p.userId === userId)] *)
Definition isParticipant (userId : Z) (ps : list ConversationParticipant.t)
    : bool :=
  bool_decide (Exists (λ p, ConversationParticipant.userId p = userId) ps).

(** [conversation.participants.filter((p) => p.userId !== userId)
      .map((p) => p.userId)] *)
Definition otherParticipantIds (userId : Z)
    (ps : list ConversationParticipant.t) : list Z :=
  ConversationParticipant.userId
    <$> filter (λ p, ConversationParticipant.userId p ≠ userId) ps.

Definition sendMessage (user : option Z) (body : SendMessageBody.t)
    : Task (Reply FormattedMessage.t) :=
  let conversationId := SendMessageBody.conversationId body in
  let replyToId := SendMessageBody.replyToId body in
  match truthy user with
  | None => mret unauthorized
  | Some userId =>
    try_catch
      (conversation ← prisma.conversation.findUnique_participants conversationId;
       match conversation with
       | None => mret (notFound "会话不存在")
       | Some (_, participants) =>
         if negb (isParticipant userId participants) then
           mret (error "您不是该会话的参与者" 403)
         else
           replyOk ←
             match truthy replyToId with
             | Some r =>
                 replyToMessage ← prisma.message.findUnique r;
                 mret (match replyToMessage with
                       | None => false
                       | Some rm =>
                           bool_decide (Message.conversationId rm = conversationId)
                       end)
             | None => mret true
             end;
           if negb replyOk then
             mret (error "回复的消息不存在或不属于当前会话" 400)
           else
             message ← prisma.message.create
               (prisma.message.mkCreateInput conversationId userId None
                  (Some (SendMessageBody.content body))
                  (SendMessageBody.messageType (SendMessageBody.type body))
                  (SendMessageBody.mediaUrl body) replyToId None None)
               MessageStatus.sent;
             sender ← (d ← gets db; prisma.required (senderOf d message));
             replyTo ← (d ← gets db; prisma.required (replyToOf d message));
             prisma.conversation.update conversationId (Message.createdAt message);;
             lastReadAt ← now;
             prisma.conversationParticipant.update conversationId userId lastReadAt;;
             let formattedMessage := formatMessage message sender replyTo in
             modify (broadcastToUsers (otherParticipantIds userId participants)
                                      (new_message formattedMessage));;
             mret (success formattedMessage None)
       end)
      (serverError "发送消息失败")
  end.

(** The [where] of the bulk update of [readMessages]. *)
Definition readable (conversationId lastReadMessageId userId : Z)
    (m : Message.t) : Prop :=
  Message.conversationId m = conversationId
  ∧ Message.id m ≤ lastReadMessageId
  ∧ Message.senderId m ≠ userId
  ∧ (Message.status m = MessageStatus.sent
     ∨ Message.status m = MessageStatus.delivered).

#[global] Instance readable_dec c x u m : Decision (readable c x u m).
Proof. unfold readable. apply _. Defined.

Definition readMessages (user : option Z) (body : ReadMessagesBody.t)
    : Task (Reply unit) :=
  let conversationId := ReadMessagesBody.conversationId body in
  let lastReadMessageId := ReadMessagesBody.lastReadMessageId body in
  match truthy user with
  | None => mret unauthorized
  | Some userId =>
    try_catch
      (conversation ← prisma.conversation.findUnique conversationId;
       match conversation with
       | None => mret (notFound "会话不存在")
       | Some _ =>
         today ← now;
         lastReadAt ←
           match truthy lastReadMessageId with
           | Some x =>
               prisma.message.updateMany (readable conversationId x userId)
                 conversationId MessageStatus.read;;
               lastMessage ← prisma.message.findUnique x;
               mret (match lastMessage with
                     | Some m => Message.createdAt m
                     | None => today
                     end)
           | None => mret today
           end;
         prisma.conversationParticipant.update conversationId userId lastReadAt;;
         match truthy lastReadMessageId with
         | Some x =>
             message ← prisma.message.findUnique x;
             match message with
             | Some m =>
                 if decide (Message.senderId m ≠ userId) then
                   readAt ← now;
                   modify (broadcastToUser (Message.senderId m)
                             (message_read x conversationId userId readAt))
                 else mret tt
             | None => mret tt
             end
         | None => mret tt
         end;;
         mret (success tt (Some "消息已标记为已读"))
       end)
      (serverError "标记消息为已读失败")
  end.

(** [messageId] is [parseInt] of a string of digits. *)
Definition deleteMessage (user : option Z) (id : N) : Task (Reply unit) :=
  let messageId := Z.of_N id in
  match truthy user with
  | None => mret unauthorized
  | Some userId =>
    try_catch
      (found ← prisma.message.findUnique messageId;
       match found with
       | None => mret (notFound "消息不存在")
       | Some message =>
         d ← gets db;
         _ ← prisma.required (prisma.conversationOf d (Message.conversationId message));
         let participants := prisma.participantsOf d (Message.conversationId message) in
         if decide (Message.senderId message ≠ userId) then
           mret (error "您没有权限删除此消息" 403)
         else
           deletedAt ← now;
           prisma.message.update_deleted messageId deletedAt;;
           notifiedAt ← now;
           modify (broadcastToUsers (otherParticipantIds userId participants)
                     (message_deleted messageId (Message.conversationId message)
                                      notifiedAt));;
           mret (success tt (Some "消息已删除"))
       end)
      (serverError "删除消息失败")
  end.

Definition initiateCall (user : option Z) (body : InitiateCallBody.t)
    : Task (Reply FormattedMessage.t) :=
  let conversationId := InitiateCallBody.conversationId body in
  let type := InitiateCallBody.type body in
  match truthy user with
  | None => mret unauthorized
  | Some userId =>
    try_catch
      (conversation ← prisma.conversation.findUnique_participants conversationId;
       match conversation with
       | None => mret (notFound "会话不存在")
       | Some (conversation, participants) =>
         if negb (isParticipant userId participants) then
           mret (error "您不是该会话的参与者" 403)
         else
           let receiverId :=
             if decide (Conversation.type conversation = ConversationType.direct)
             then ConversationParticipant.userId
                    <$> prisma.findFirst
                          (λ p, ConversationParticipant.userId p ≠ userId)
                          participants
             else None in
           callStartedAt ← now;
           callMessage ← prisma.message.create
             (prisma.message.mkCreateInput conversationId userId receiverId
                (Some (if decide (type = CallType.audio)
                       then "语音通话" else "视频通话"))
                (if decide (type = CallType.audio)
                 then MessageType.call_audio else MessageType.call_video)
                None None (Some CallStatus.missed) (Some callStartedAt))
             MessageStatus.sent;
           sender ← (d ← gets db; prisma.required (senderOf d callMessage));
           prisma.conversation.update conversationId (Message.createdAt callMessage);;
           let formattedCallMessage :=
             FormattedMessage.mk
               (Message.id callMessage) (Message.conversationId callMessage)
               (Message.senderId callMessage) (Message.content callMessage)
               (Message.type callMessage) None (Message.status callMessage)
               (Message.createdAt callMessage) (Message.updatedAt callMessage)
               (formatSender sender) None
               (Message.callStatus callMessage)
               (Message.callDuration callMessage) in
           modify (broadcastToUsers (otherParticipantIds userId participants)
                     (incoming_call formattedCallMessage type));;
           mret (success formattedCallMessage None)
       end)
      (serverError "发起通话失败")
  end.

(** The conversation object of the list and creation replies
    ([conversationBasicSchema]). *)
Module LastMessage.
Record t := mk {
  id : Z;
  content : option string;
  type : MessageType.t;
  createdAt : DateTime;
  senderId : Z;
  senderName : string;
}.
End LastMessage.

Module ConversationBasic.
Record t := mk {
  id : Z;
  type : ConversationType.t;
  lastMessageAt : option DateTime;
  unreadCount : Z;
  isArchived : bool;
  isMuted : bool;
  createdAt : DateTime;
  updatedAt : DateTime;
  participants : list User.t;
  lastMessage : option LastMessage.t;
  group : option Group.t;
}.
End ConversationBasic.

Module Page.
Record t (A : Type) := mk {
  items : list A;
  total : Z;
  page : Z;
  limit : Z;
  hasMore : bool;
}.
Arguments mk {A} items total page limit hasMore.
Arguments items {A} _.
Arguments total {A} _.
Arguments page {A} _.
Arguments limit {A} _.
Arguments hasMore {A} _.
End Page.

(** Query strings: [page], [limit] and [before] are strings of digits, read
    with [parseInt]; a string that is present is truthy whatever its digits. *)
Module PageQuery.
Record t := mk {
  page : option N;
  limit : option N;
  before : option N;
}.
Definition pageNum (q : t) : Z := Z.of_N (default 1%N (page q)).
Definition limitNum (q : t) : Z := Z.of_N (default 20%N (limit q)).
Definition skip (q : t) : Z := (pageNum q - 1) * limitNum q.
End PageQuery.

Definition formatLastMessage (r : Message.t * User.t) : LastMessage.t :=
  LastMessage.mk (Message.id r.1) (Message.content r.1) (Message.type r.1)
                 (Message.createdAt r.1) (Message.senderId r.1)
                 (User.username r.2).

(** [conversation.participants.filter((p) => p.userId !== userId)
      .map((p) => p.user)] *)
Definition otherParticipants (userId : Z)
    (ps : list (ConversationParticipant.t * User.t)) : list User.t :=
  snd <$> filter (λ p, ConversationParticipant.userId p.1 ≠ userId) ps.

(** [include: { participants: { include: { user } } }] *)
Definition participantsWithUser (d : Db) (conversationId : Z)
    : option (list (ConversationParticipant.t * User.t)) :=
  mapM (λ p, u ← prisma.userOf d (ConversationParticipant.userId p); Some (p, u))
       (prisma.participantsOf d conversationId).

(** [messages: { orderBy: { createdAt: "desc" }, take: 1,
                 include: { sender } }] *)
Definition latestMessages (d : Db) (conversationId : Z)
    : option (list (Message.t * User.t)) :=
  mapM (λ m, u ← senderOf d m; Some (m, u))
       (take 1 (prisma.orderByCreatedAtDesc (prisma.messagesOf d conversationId))).

(** A conversation with the relations that [getConversations] includes. *)
Module ConversationDetail.
Record t := mk {
  row : Conversation.t;
  participants : list (ConversationParticipant.t * User.t);
  messages : list (Message.t * User.t);
  group : option Group.t;
}.
End ConversationDetail.

Definition conversationDetail (d : Db) (c : Conversation.t)
    : option ConversationDetail.t :=
  ps ← participantsWithUser d (Conversation.id c);
  ms ← latestMessages d (Conversation.id c);
  Some (ConversationDetail.mk c ps ms
          (Conversation.groupId c ≫= prisma.groupOf d)).

(** The [where] of the unread count. *)
Definition unread (conversationId userId : Z) (lastReadAt : DateTime)
    (m : Message.t) : Prop :=
  Message.conversationId m = conversationId
  ∧ lastReadAt < Message.createdAt m
  ∧ Message.senderId m ≠ userId.

#[global] Instance unread_dec c u t m : Decision (unread c u t m).
Proof. unfold unread. apply _. Defined.

(** The body of [conversations.map(async (conversation) => ...)]. *)
Definition formatConversation (userId : Z)
    (userConversationParticipants : list ConversationParticipant.t)
    (conversation : ConversationDetail.t) : Task ConversationBasic.t :=
  let row := ConversationDetail.row conversation in
  let participant :=
    prisma.findFirst
      (λ p, ConversationParticipant.conversationId p = Conversation.id row)
      userConversationParticipants in
  unreadCount ← prisma.message.count
    (unread (Conversation.id row) userId
       (from_option ConversationParticipant.lastReadAt 0 participant));
  mret (ConversationBasic.mk
          (Conversation.id row) (Conversation.type row)
          (Conversation.lastMessageAt row) unreadCount
          (from_option ConversationParticipant.isArchived false participant)
          (from_option ConversationParticipant.isMuted false participant)
          (Conversation.createdAt row) (Conversation.updatedAt row)
          (otherParticipants userId (ConversationDetail.participants conversation))
          (formatLastMessage <$> head (ConversationDetail.messages conversation))
          (ConversationDetail.group conversation)).

(** [Promise.all(list.map(f))] for tasks that run one after the other. *)
Fixpoint forEachTask {A B} (f : A → Task B) (l : list A) : Task (list B) :=
  match l with
  | [] => mret []
  | x :: l => y ← f x; ys ← forEachTask f l; mret (y :: ys)
  end.

Definition getConversations (user : option Z) (query : PageQuery.t)
    : Task (Reply (Page.t ConversationBasic.t)) :=
  match truthy user with
  | None => mret unauthorized
  | Some userId =>
    let pageNum := PageQuery.pageNum query in
    let limitNum := PageQuery.limitNum query in
    let skip := PageQuery.skip query in
    try_catch
      (d ← gets db;
       rows ← prisma.paginate skip limitNum
         (prisma.orderByLastMessageAtDesc
            (filter (λ c, Exists (λ p, ConversationParticipant.userId p = userId)
                                 (prisma.participantsOf d (Conversation.id c)))
                    (conversations d)));
       conversations ← prisma.required (mapM (conversationDetail d) rows);
       total ← prisma.conversationParticipant.count
                 (λ p, ConversationParticipant.userId p = userId);
       userConversationParticipants ← prisma.conversationParticipant.findMany
         (λ p, ConversationParticipant.userId p = userId
               ∧ ConversationParticipant.conversationId p
                   ∈ (Conversation.id <$> rows));
       formattedConversations ←
         forEachTask (formatConversation userId userConversationParticipants)
                     conversations;
       mret (success
               (Page.mk formattedConversations total pageNum limitNum
                  (bool_decide (skip + Z.of_nat (length conversations) < total)))
               None))
      (serverError "获取会话列表失败")
  end.

(** The [where] of the lookup of [createDirectConversation]. *)
Definition directBetween (d : Db) (userId targetUserId : Z)
    (c : Conversation.t) : Prop :=
  Conversation.type c = ConversationType.direct
  ∧ Forall (λ p, ConversationParticipant.userId p ∈ [userId; targetUserId])
           (prisma.participantsOf d (Conversation.id c))
  ∧ Exists (λ p, ConversationParticipant.userId p = userId)
           (prisma.participantsOf d (Conversation.id c))
  ∧ Exists (λ p, ConversationParticipant.userId p = targetUserId)
           (prisma.participantsOf d (Conversation.id c)).

#[global] Instance directBetween_dec d u v c : Decision (directBetween d u v c).
Proof. unfold directBetween. apply _. Defined.

Definition createDirectConversation (user : option Z) (targetUserId : Z)
    : Task (Reply ConversationBasic.t) :=
  match truthy user with
  | None => mret unauthorized
  | Some userId =>
    if decide (userId = targetUserId) then
      mret (error "不能与自己创建私聊" 400)
    else
    try_catch
      (targetUser ← prisma.user.findUnique targetUserId;
       match targetUser with
       | None => mret (notFound "用户不存在")
       | Some targetUser =>
         d ← gets db;
         match prisma.findFirst (directBetween d userId targetUserId)
                                (conversations d) with
         | Some existingConversation =>
           participants ← prisma.required
             (participantsWithUser d (Conversation.id existingConversation));
           participant ← prisma.conversationParticipant.findUnique
             (Conversation.id existingConversation) userId;
           lastMessage ← prisma.required
             (mapM (λ m, u ← senderOf d m; Some (m, u))
                (option_list
                   (head (prisma.orderByCreatedAtDesc
                            (prisma.messagesOf d
                               (Conversation.id existingConversation))))));
           mret (success
                   (ConversationBasic.mk
                      (Conversation.id existingConversation)
                      (Conversation.type existingConversation)
                      (Conversation.lastMessageAt existingConversation)
                      0
                      (from_option ConversationParticipant.isArchived false
                                   participant)
                      (from_option ConversationParticipant.isMuted false
                                   participant)
                      (Conversation.createdAt existingConversation)
                      (Conversation.updatedAt existingConversation)
                      (otherParticipants userId participants)
                      (formatLastMessage <$> head lastMessage)
                      None)
                   None)
         | None =>
           newConversation ← prisma.conversation.create
             ConversationType.direct [userId; targetUserId];
           mret (success
                   (ConversationBasic.mk
                      (Conversation.id newConversation)
                      (Conversation.type newConversation)
                      (Conversation.lastMessageAt newConversation)
                      0 false false
                      (Conversation.createdAt newConversation)
                      (Conversation.updatedAt newConversation)
                      [targetUser] None None)
                   None)
         end
       end)
      (serverError "创建私聊会话失败")
  end.

(** The [whereCondition] of [getMessages]. *)
Definition inHistory (conversationId : Z) (before : option DateTime)
    (m : Message.t) : Prop :=
  Message.conversationId m = conversationId
  ∧ Message.deletedAt m = None
  ∧ from_option (λ t, Message.createdAt m < t) True before.

#[global] Instance inHistory_dec c b m : Decision (inHistory c b m).
Proof. unfold inHistory. destruct b; simpl; apply _. Defined.

Definition getMessages (user : option Z) (conversationId : N)
    (query : PageQuery.t) : Task (Reply (Page.t FormattedMessage.t)) :=
  match truthy user with
  | None => mret unauthorized
  | Some userId =>
    let conversationIdNum := Z.of_N conversationId in
    let pageNum := PageQuery.pageNum query in
    let limitNum := PageQuery.limitNum query in
    let skip := PageQuery.skip query in
    try_catch
      (participant ← prisma.conversationParticipant.findUnique
                       conversationIdNum userId;
       match participant with
       | None => mret (notFound "会话不存在或您无权访问")
       | Some _ =>
         before ←
           match PageQuery.before query with
           | Some b =>
               beforeMessage ← prisma.message.findUnique (Z.of_N b);
               mret (Message.createdAt <$> beforeMessage)
           | None => mret None
           end;
         d ← gets db;
         rows ← prisma.paginate skip limitNum
           (prisma.orderByCreatedAtDesc
              (filter (inHistory conversationIdNum before) (messages d)));
         messages ← prisma.required
           (mapM (λ m, u ← senderOf d m; r ← replyToOf d m; Some (m, u, r)) rows);
         total ← prisma.message.count (inHistory conversationIdNum before);
         lastReadAt ← now;
         prisma.conversationParticipant.update conversationIdNum userId lastReadAt;;
         let formattedMessages :=
           (λ m : Message.t * User.t * option (Message.t * User.t),
              formatMessage m.1.1 m.1.2 m.2) <$> messages in
         mret (success
                 (Page.mk formattedMessages total pageNum limitNum
                    (bool_decide (skip + Z.of_nat (length messages) < total)))
                 None)
       end)
      (serverError "获取消息失败")
  end.

(** ** Integrity of the tables *)

(** What the schema and the autoincrement keys guarantee of the rows: keys
    are positive and below the next key, a participant refers to a
    conversation and to a user, a message refers to a conversation and to
    its sender, and no message is dated after the clock. *)
Definition wf (w : World) : Prop :=
  (0 < nextConversationId (db w) ∧ 0 < nextMessageId (db w))
  ∧ Forall (λ u, 0 < User.id u) (users (db w))
  ∧ Forall (λ c, 0 < Conversation.id c < nextConversationId (db w))
           (conversations (db w))
  ∧ Forall (λ p,
              is_Some (prisma.conversationOf (db w)
                         (ConversationParticipant.conversationId p))
              ∧ is_Some (prisma.userOf (db w) (ConversationParticipant.userId p)))
           (participants (db w))
  ∧ Forall (λ m,
              0 < Message.id m < nextMessageId (db w)
              ∧ is_Some (prisma.conversationOf (db w) (Message.conversationId m))
              ∧ is_Some (prisma.userOf (db w) (Message.senderId m))
              ∧ Message.createdAt m ≤ clock w)
           (messages (db w)).

#[global] Instance wf_dec w : Decision (wf w).
Proof. unfold wf. apply _. Defined.

(** A task keeps the integrity of the tables, whatever it returns. *)
Definition preserves {A} (c : Task A) : Prop :=
  ∀ w r w', wf w → c w = (r, w') → wf w'.

(** The server at start: no row, no connection. *)
Definition initial : World :=
  mkWorld (mkDb [] [] [] [] [] 1 1 1) 0 [] ∅ [].

(** A row before and after [readMessages]: a message that the bulk update
    selects differs by its status, now [read] (and by the [updatedAt] stamp
    that every update sets); any other row is the same row. *)
Definition markedRead (conversationId lastReadMessageId userId : Z)
    (m m' : Message.t) : Prop :=
  if decide (readable conversationId lastReadMessageId userId m)
  then ∃ t, m' = prisma.message.set_status MessageStatus.read t m
  else m' = m.

(** A row before and after [deleteMessage]: the message deleted keeps its
    columns but for [content], now null, [deletedAt], now set (and the
    [updatedAt] stamp); any other row is the same row. *)
Definition softDeleted (id : Z) (deletedAt : DateTime) (m m' : Message.t)
    : Prop :=
  if decide (Message.id m = id)
  then ∃ t, m' = prisma.message.set_deleted deletedAt t m
  else m' = m.

(** The conversation that [createDirectConversation] inserts at time [t],
    and the world after the insertion of it and of its two participants. *)
Definition newDirect (w : World) (t : DateTime) : Conversation.t :=
  Conversation.mk (nextConversationId (db w)) ConversationType.direct
                  None None t t.

Definition directCreated (a b : Z) (t : DateTime) (w : World) : World :=
  mkWorld
    (mkDb (users (db w)) (groups (db w))
          (conversations (db w) ++ [newDirect w t])
          (participants (db w)
           ++ [ConversationParticipant.mk
                 (nextParticipantId (db w) + Z.of_nat 0)
                 (nextConversationId (db w)) a t false false t;
               ConversationParticipant.mk
                 (nextParticipantId (db w) + Z.of_nat 1)
                 (nextConversationId (db w)) b t false false t])
          (messages (db w))
          (nextConversationId (db w) + 1)
          (nextParticipantId (db w) + Z.of_nat 2)
          (nextMessageId (db w)))
    t (tl (ticks w)) (connections w)
    (trace w ++ [ConversationCreated (newDirect w t)]).

(** The three ways in which the spec lets [sendMessage] reject a request,
    with the reply of each. *)
Inductive SendRejection (w : World) (userId : Z) (body : SendMessageBody.t)
    : Reply FormattedMessage.t → Prop :=
| conversation_absent :
    prisma.conversationOf (db w) (SendMessageBody.conversationId body) = None →
    SendRejection w userId body (notFound "会话不存在")
| not_a_participant :
    is_Some (prisma.conversationOf (db w) (SendMessageBody.conversationId body)) →
    isParticipant userId
      (prisma.participantsOf (db w) (SendMessageBody.conversationId body))
    = false →
    SendRejection w userId body (error "您不是该会话的参与者" 403)
| reply_not_in_conversation (r : Z) :
    is_Some (prisma.conversationOf (db w) (SendMessageBody.conversationId body)) →
    isParticipant userId
      (prisma.participantsOf (db w) (SendMessageBody.conversationId body))
    = true →
    SendMessageBody.replyToId body = Some r →
    r ≠ 0 →
    (∀ m, prisma.messageOf (db w) r = Some m →
          Message.conversationId m ≠ SendMessageBody.conversationId body) →
    SendRejection w userId body (error "回复的消息不存在或不属于当前会话" 400).

(** ** A small world for the examples *)

Module Sample.
Definition alice := User.mk 3 "alice" None "online".
Definition bob := User.mk 4 "bob" None "online".
Definition carol := User.mk 5 "carol" None "offline".

(** Conversation 1 is the direct conversation of alice and bob. *)
Definition conversation1 :=
  Conversation.mk 1 ConversationType.direct None (Some 300) 100 300.

Definition participant1 :=
  ConversationParticipant.mk 1 1 3 100 false false 100.
Definition participant2 :=
  ConversationParticipant.mk 2 1 4 100 false false 100.

(** Bob wrote message 1; alice wrote message 2 and deleted it. *)
Definition message1 :=
  Message.mk 1 1 4 None (Some "hello") MessageType.text None None
    MessageStatus.sent None None None None 200 200 None.
Definition message2 :=
  Message.mk 2 1 3 None None MessageType.text None None
    MessageStatus.sent None None None None 300 400 (Some 400).

Definition tables : Db :=
  mkDb [alice; bob; carol] [] [conversation1] [participant1; participant2]
       [message1; message2] 2 3 3.

(** Bob has an open socket and a closed one; alice and carol have none. *)
Definition socket7 := WebSocket.mk 7 OPEN [].
Definition socket8 := WebSocket.mk 8 CLOSED [].

Definition world : World :=
  mkWorld tables 1000 [5%N; 7%N] {[ 4 := [socket7; socket8] ]} [].

Definition hi : SendMessageBody.t :=
  SendMessageBody.mk 1 "hi" SendMessageBody.text None None.

Definition audioCall : InitiateCallBody.t :=
  InitiateCallBody.mk 1 CallType.audio.

(** A reply to a message that does not exist, with a key that is not 0
    and with the key 0. *)
Definition reply9 : SendMessageBody.t :=
  SendMessageBody.mk 1 "hi" SendMessageBody.text None (Some 9).
Definition reply0 : SendMessageBody.t :=
  SendMessageBody.mk 1 "hi" SendMessageBody.text None (Some 0).
End Sample.

(** ** The rest of the conversation routes and of the registry *)

(** [conversationId] is [parseInt] of a string of digits.  The lookup of the
    participant row comes first: a caller that is not a participant gets
    the same NotFound as for a conversation that does not exist. *)
Definition getConversation (user : option Z) (id : N)
    : Task (Reply ConversationBasic.t) :=
  let conversationId := Z.of_N id in
  match truthy user with
  | None => mret unauthorized
  | Some userId =>
    try_catch
      (participant ← prisma.conversationParticipant.findUnique
                       conversationId userId;
       match participant with
       | None => mret (notFound "会话不存在或您无权访问")
       | Some participant =>
         d ← gets db;
         match prisma.conversationOf d conversationId with
         | None => mret (notFound "会话不存在")
         | Some row =>
           conversation ← prisma.required (conversationDetail d row);
           unreadCount ← prisma.message.count
             (unread conversationId userId
                     (ConversationParticipant.lastReadAt participant));
           mret (success
                   (ConversationBasic.mk
                      (Conversation.id row) (Conversation.type row)
                      (Conversation.lastMessageAt row) unreadCount
                      (ConversationParticipant.isArchived participant)
                      (ConversationParticipant.isMuted participant)
                      (Conversation.createdAt row) (Conversation.updatedAt row)
                      (otherParticipants userId
                         (ConversationDetail.participants conversation))
                      (formatLastMessage
                         <$> head (ConversationDetail.messages conversation))
                      (ConversationDetail.group conversation))
                   None)
         end
       end)
      (serverError "获取会话详情失败")
  end.

(** What the registry keeps of its sets: none is empty, since
    [removeConnection] deletes the key with the last socket, and a socket is
    in a set once. *)
Definition registry_ok (w : World) : Prop :=
  map_Forall (λ _ l, l ≠ [] ∧ NoDup (WebSocket.wsId <$> l)) (connections w).

#[global] Instance registry_ok_dec w : Decision (registry_ok w).
Proof. unfold registry_ok. apply _. Defined.

(** The sockets of a user after [n] deliveries of [message]: an open socket
    has [n] frames more, a socket that is not open has what it had. *)
Definition delivered (message : ServerEvent) (n : nat) (ws : WebSocket.t)
    : Z * list ServerEvent :=
  (WebSocket.wsId ws,
   WebSocket.sent ws
   ++ (if decide (WebSocket.readyState ws = OPEN)
       then replicate n message else [])).

(** How many times a user is listed among the targets of a dispatch. *)
Definition occurrences (userId : Z) (userIds : list Z) : nat :=
  length (filter (λ u, u = userId) userIds).

(** No two direct conversations for the same pair of users: the lookup of
    [createDirectConversation] finds at most one row. *)
Definition direct_unique (w : World) : Prop :=
  ∀ a b, (length (filter (directBetween (db w) a b) (conversations (db w)))
          ≤ 1)%nat.

(** ** A world with a group conversation for the examples *)

Module Team.
(** Conversation 2 is a group conversation of alice, bob and carol. *)
Definition conversation2 :=
  Conversation.mk 2 ConversationType.group None None 500 500.

Definition participant3 :=
  ConversationParticipant.mk 3 2 3 500 false false 500.
Definition participant4 :=
  ConversationParticipant.mk 4 2 4 500 false false 500.
Definition participant5 :=
  ConversationParticipant.mk 5 2 5 500 false false 500.

Definition tables : Db :=
  mkDb [Sample.alice; Sample.bob; Sample.carol] []
       [Sample.conversation1; conversation2]
       [Sample.participant1; Sample.participant2;
        participant3; participant4; participant5]
       [Sample.message1; Sample.message2] 3 6 3.

(** Carol has an open socket, next to the two sockets of bob. *)
Definition socket9 := WebSocket.mk 9 OPEN [].

Definition world : World :=
  mkWorld tables 1000 [5%N; 7%N]
          {[ 4 := [Sample.socket7; Sample.socket8]; 5 := [socket9] ]} [].

Definition videoCall : InitiateCallBody.t :=
  InitiateCallBody.mk 2 CallType.video.
End Team.

(** ** The requests, one at a time *)

(** The requests of the chat routes that are modelled, with their
    parameters, and the world after a request was handled. *)
Inductive Request :=
| GetConversations (query : PageQuery.t)
| GetConversation (id : N)
| CreateDirectConversation (targetUserId : Z)
| GetMessages (conversationId : N) (query : PageQuery.t)
| SendMessage (body : SendMessageBody.t)
| ReadMessages (body : ReadMessagesBody.t)
| DeleteMessage (id : N)
| InitiateCall (body : InitiateCallBody.t).

Definition handle (user : option Z) (req : Request) (w : World) : World :=
  match req with
  | GetConversations query => (getConversations user query w).2
  | GetConversation id => (getConversation user id w).2
  | CreateDirectConversation targetUserId =>
      (createDirectConversation user targetUserId w).2
  | GetMessages conversationId query =>
      (getMessages user conversationId query w).2
  | SendMessage body => (sendMessage user body w).2
  | ReadMessages body => (readMessages user body w).2
  | DeleteMessage id => (deleteMessage user id w).2
  | InitiateCall body => (initiateCall user body w).2
  end.

(** One step of the server: a request is handled, or a socket is opened or
    closed. *)
Inductive step : World → World → Prop :=
| step_request user req w : step w (handle user req w)
| step_open userId ws w : step w (addConnection userId ws w)
| step_close userId ws w : step w (removeConnection userId ws w).

(** The columns of a row that no update writes. *)
Definition messageCore (m : Message.t)
    : Z * Z * Z * option Z * MessageType.t * DateTime :=
  (Message.id m, Message.conversationId m, Message.senderId m,
   Message.replyToId m, Message.type m, Message.createdAt m).

Definition conversationCore (c : Conversation.t)
    : Z * ConversationType.t * DateTime :=
  (Conversation.id c, Conversation.type c, Conversation.createdAt c).

Definition participantCore (p : ConversationParticipant.t) : Z * Z * Z :=
  (ConversationParticipant.id p, ConversationParticipant.conversationId p,
   ConversationParticipant.userId p).

(** A socket before and after a dispatch: the same socket in the same
    state, with frames added at the end of what was written to it. *)
Definition socket_grows (ws ws' : WebSocket.t) : Prop :=
  WebSocket.wsId ws' = WebSocket.wsId ws
  ∧ WebSocket.readyState ws' = WebSocket.readyState ws
  ∧ WebSocket.sent ws `prefix_of` WebSocket.sent ws'.

(** The world before and after a request: the clock has not gone back, the
    users and the groups are the same, each of the other tables has its
    old rows at the front, in the same order and with the same core
    columns, the log has grown at the end, and every user has the same
    sockets, each with what was written to it at the front. *)
Definition extends (w w' : World) : Prop :=
  clock w ≤ clock w'
  ∧ users (db w') = users (db w)
  ∧ groups (db w') = groups (db w)
  ∧ conversationCore <$> conversations (db w)
    `prefix_of` conversationCore <$> conversations (db w')
  ∧ participantCore <$> participants (db w)
    `prefix_of` participantCore <$> participants (db w')
  ∧ messageCore <$> messages (db w)
    `prefix_of` messageCore <$> messages (db w')
  ∧ trace w `prefix_of` trace w'
  ∧ ∀ u, option_Forall2 (Forall2 socket_grows)
                        (connections w !! u) (connections w' !! u).

(** A task extends the world, whatever it returns or throws. *)
Definition respects {A} (c : Task A) : Prop :=
  ∀ w r w', c w = (r, w') → extends w w'.

(** * Theorems *)

(** ** Running a task *)

Section Tasks.
Context {A B : Type}.

Lemma bind_Return_inv (c : Task A) (f : A → Task B) w b w' :
  (c ≫= f) w = (Return b, w') →
  ∃ a w1, c w = (Return a, w1) ∧ f a w1 = (Return b, w').
Proof.
  unfold mbind, Task_bind. destruct (c w) as [[a|e] w1]; [eauto | done].
Qed.

Lemma bind_inv (c : Task A) (f : A → Task B) w r w' :
  (c ≫= f) w = (r, w') →
  (∃ a w1, c w = (Return a, w1) ∧ f a w1 = (r, w'))
  ∨ (∃ e, c w = (Throw e, w') ∧ r = Throw e).
Proof.
  unfold mbind, Task_bind. destruct (c w) as [[a|e] w1]; [eauto|].
  intros [= <- <-]. eauto.
Qed.

Lemma bind_run (c : Task A) (f : A → Task B) w a w1 :
  c w = (Return a, w1) → (c ≫= f) w = f a w1.
Proof. unfold mbind, Task_bind. by intros ->. Qed.

Lemma bind_throw (c : Task A) (f : A → Task B) w e w1 :
  c w = (Throw e, w1) → (c ≫= f) w = (Throw e, w1).
Proof. unfold mbind, Task_bind. by intros ->. Qed.

Lemma try_catch_Return_inv (body : Task A) (h a : A) w w' :
  try_catch body h w = (Return a, w') → a ≠ h → body w = (Return a, w').
Proof.
  unfold try_catch. destruct (body w) as [[x|e] w1]; intros [= <- <-] Hne; done.
Qed.

Lemma try_catch_inv (body : Task A) (h : A) w r w' :
  try_catch body h w = (r, w') →
  (∃ a, body w = (Return a, w') ∧ r = Return a)
  ∨ (∃ e, body w = (Throw e, w') ∧ r = Return h).
Proof.
  unfold try_catch. destruct (body w) as [[a|e] w1]; intros [= <- <-]; eauto.
Qed.

Lemma try_catch_run (body : Task A) (h a : A) w w' :
  body w = (Return a, w') → try_catch body h w = (Return a, w').
Proof. unfold try_catch. by intros ->. Qed.

Lemma try_catch_throw (body : Task A) (h : A) w e w' :
  body w = (Throw e, w') → try_catch body h w = (Return h, w').
Proof. unfold try_catch. by intros ->. Qed.

Lemma try_catch_returns (body : Task A) (h : A) w :
  ∃ a, (try_catch body h w).1 = Return a.
Proof. unfold try_catch. destruct (body w) as [[x|e] w1]; simpl; eauto. Qed.

Lemma gets_inv (f : World → A) a w w' :
  gets f w = (Return a, w') → a = f w ∧ w' = w.
Proof. by intros [= <- <-]. Qed.

Lemma mret_inv (a b : A) w w' :
  (mret a : Task A) w = (Return b, w') → b = a ∧ w' = w.
Proof. by intros [= <- <-]. Qed.

Lemma required_inv (x : option A) a w w' :
  prisma.required x w = (Return a, w') → x = Some a ∧ w' = w.
Proof. destruct x; simpl; [by intros [= -> ->] | done]. Qed.
End Tasks.

Lemma modify_inv (f : World → World) u w w' :
  modify f w = (Return u, w') → w' = f w.
Proof. by intros [= <-]. Qed.

Lemma truthy_Some (n : Z) : n ≠ 0 → truthy (Some n) = Some n.
Proof. by destruct n. Qed.

Lemma truthy_inv (x : option Z) (n : Z) : truthy x = Some n → x = Some n ∧ n ≠ 0.
Proof. destruct x as [[| |]|]; simpl; intros [= <-]; done. Qed.

Lemma world_eq (w : World) :
  mkWorld (db w) (clock w) (ticks w) (connections w) (trace w) = w.
Proof. by destruct w. Qed.

Lemma db_eq (d : Db) :
  mkDb (users d) (groups d) (conversations d) (participants d) (messages d)
       (nextConversationId d) (nextParticipantId d) (nextMessageId d) = d.
Proof. by destruct d. Qed.

(** The inversion of [c w = (Return _, _)], one step at a time:
    [task_bind H as a w1 H1] splits a bind into its first step [H1] and the
    rest [H]; [task_read H] closes a step that only reads the world. *)
Ltac task_unfold H :=
  unfold prisma.user.findUnique, prisma.conversation.findUnique,
    prisma.conversation.findUnique_participants, prisma.message.findUnique,
    prisma.message.count, prisma.conversationParticipant.findUnique,
    prisma.conversationParticipant.findMany,
    prisma.conversationParticipant.count in H.

Tactic Notation "task_bind" hyp(H) "as" simple_intropattern(a) ident(w1)
    ident(H1) :=
  apply bind_Return_inv in H; destruct H as (a & w1 & H1 & H).

Ltac task_read H :=
  task_unfold H;
  lazymatch type of H with
  | mret _ _ = (Return _, _) => apply mret_inv in H as [-> ->]
  | gets _ _ = (Return _, _) => apply gets_inv in H as [-> ->]
  | modify _ _ = (Return _, _) => apply modify_inv in H as ->
  | throw _ _ = (Return _, _) => discriminate H
  | prisma.required _ _ = (Return _, _) =>
      apply required_inv in H as [H ->]
  end.

(** The last step: [H] becomes the equation between the value returned and
    the value expected. *)
Ltac task_ret H := apply mret_inv in H as [H ->].

(** ** Tables *)

Section Tables.
Context {A : Type}.
Implicit Types (P Q : A → Prop) (f : A → A) (rows : list A).

Lemma findFirst_Some P `{PDec : !∀ x, Decision (P x)} rows x :
  prisma.findFirst P rows = Some x → x ∈ rows ∧ P x.
Proof.
  unfold prisma.findFirst. intros H%head_Some_elem_of.
  by apply list_elem_of_filter in H as [? ?].
Qed.

Lemma findFirst_None P `{PDec : !∀ x, Decision (P x)} rows :
  prisma.findFirst P rows = None ↔ Forall (λ x, ¬ P x) rows.
Proof.
  unfold prisma.findFirst. rewrite head_None, Forall_forall. split.
  - intros H x Hx HP.
    assert (x ∈ filter P rows) as Hin by (by apply list_elem_of_filter).
    rewrite H in Hin. by apply not_elem_of_nil in Hin.
  - intros H. induction rows as [|x rows IH]; [done|].
    rewrite filter_cons_False by (apply H; left).
    apply IH. intros y Hy. apply H. by right.
Qed.

Lemma filter_none P `{PDec : !∀ x, Decision (P x)} rows :
  Forall (λ x, ¬ P x) rows → filter P rows = [].
Proof.
  intros H. apply head_None. by apply (proj2 (findFirst_None P rows)).
Qed.

Lemma findFirst_is_Some P `{PDec : !∀ x, Decision (P x)} rows x :
  x ∈ rows → P x → is_Some (prisma.findFirst P rows).
Proof.
  intros Hx HP. destruct (prisma.findFirst P rows) eqn:E; [eauto|].
  apply findFirst_None in E. rewrite Forall_forall in E. by destruct (E x Hx).
Qed.

Lemma findFirst_app P `{PDec : !∀ x, Decision (P x)} rows rows' :
  prisma.findFirst P (rows ++ rows')
  = match prisma.findFirst P rows with
    | Some x => Some x
    | None => prisma.findFirst P rows'
    end.
Proof.
  unfold prisma.findFirst. rewrite filter_app.
  by destruct (filter P rows).
Qed.

Lemma findFirst_ext P Q `{PDec : !∀ x, Decision (P x)} `{QDec : !∀ x, Decision (Q x)} rows :
  (∀ x, x ∈ rows → P x ↔ Q x) →
  prisma.findFirst P rows = prisma.findFirst Q rows.
Proof.
  intros H. unfold prisma.findFirst. f_equal.
  induction rows as [|x rows IH]; [done|].
  rewrite !filter_cons.
  assert (P x ↔ Q x) as HPQ by (apply H; left).
  rewrite IH by (intros; apply H; by right).
  destruct (decide (P x)), (decide (Q x)); tauto.
Qed.

Lemma filter_updateWhere Q P `{PDec : !∀ x, Decision (P x)} `{QDec : !∀ x, Decision (Q x)}
    f rows :
  (∀ x, Q (f x) ↔ Q x) →
  filter Q (prisma.updateWhere P f rows) = prisma.updateWhere P f (filter Q rows).
Proof.
  intros Hf. unfold prisma.updateWhere.
  induction rows as [|x rows IH]; [done|].
  rewrite fmap_cons, !filter_cons, IH.
  destruct (decide (P x)).
  - destruct (decide (Q (f x))) as [HQ|HQ], (decide (Q x)) as [HQ'|HQ'];
      rewrite Hf in HQ; try tauto.
    rewrite fmap_cons. by rewrite decide_True.
  - destruct (decide (Q x)); [|done].
    rewrite fmap_cons. by rewrite decide_False.
Qed.

Lemma findFirst_updateWhere Q P `{PDec : !∀ x, Decision (P x)} `{QDec : !∀ x, Decision (Q x)}
    f rows :
  (∀ x, Q (f x) ↔ Q x) →
  prisma.findFirst Q (prisma.updateWhere P f rows)
  = (λ r, if decide (P r) then f r else r) <$> prisma.findFirst Q rows.
Proof.
  intros Hf. unfold prisma.findFirst. rewrite filter_updateWhere by done.
  unfold prisma.updateWhere. by destruct (filter Q rows).
Qed.

Lemma updateWhere_length P `{PDec : !∀ x, Decision (P x)} f rows :
  length (prisma.updateWhere P f rows) = length rows.
Proof. unfold prisma.updateWhere. apply length_fmap. Qed.

Lemma updateWhere_none P `{PDec : !∀ x, Decision (P x)} f rows :
  Forall (λ x, ¬ P x) rows → prisma.updateWhere P f rows = rows.
Proof.
  unfold prisma.updateWhere. induction 1 as [|x rows Hx _ IH]; [done|].
  rewrite fmap_cons, IH. by rewrite decide_False.
Qed.

Lemma elem_of_updateWhere P `{PDec : !∀ x, Decision (P x)} f rows y :
  y ∈ prisma.updateWhere P f rows ↔
  ∃ x, x ∈ rows ∧ y = if decide (P x) then f x else x.
Proof.
  unfold prisma.updateWhere. rewrite list_elem_of_fmap.
  split; intros (x & Hx & Hy); exists x; done.
Qed.
End Tables.

(** ** The persistence operations, step by step *)

Lemma now_inv w r w' :
  now w = (r, w') →
  ∃ t, r = Return t ∧ clock w ≤ t
       ∧ w' = mkWorld (db w) t (tl (ticks w)) (connections w) (trace w).
Proof.
  unfold now. intros [= <- <-]. eexists. split; [done|]. split; [lia|done].
Qed.

Lemma message_create_inv data st w m w' :
  prisma.message.create data st w = (Return m, w') →
  prisma.message.references_ok (db w) data
  ∧ ∃ t, clock w ≤ t
    ∧ m = Message.mk (nextMessageId (db w))
            (prisma.message.conversationId data) (prisma.message.senderId data)
            (prisma.message.receiverId data) (prisma.message.content data)
            (prisma.message.type data) (prisma.message.mediaUrl data)
            (prisma.message.replyToId data) st
            (prisma.message.callStatus data) (prisma.message.callStartedAt data)
            None None t t None
    ∧ w' = mkWorld
             (mkDb (users (db w)) (groups (db w)) (conversations (db w))
                   (participants (db w)) (messages (db w) ++ [m])
                   (nextConversationId (db w)) (nextParticipantId (db w))
                   (nextMessageId (db w) + 1))
             t (tl (ticks w)) (connections w) (trace w ++ [MessageCreated m]).
Proof.
  unfold prisma.message.create. intros H.
  task_bind H as d w1 Hd. task_read Hd.
  destruct (decide (prisma.message.references_ok (db w) data)) as [Hok|];
    [|done].
  split; [done|].
  task_bind H as t w1 Ht. apply now_inv in Ht as (tm & [= ->] & Ht & ->).
  task_bind H as u w1 Hm. task_read Hm. task_read H.
  exists tm. done.
Qed.

Lemma conversation_update_inv id lastMessageAt w w' :
  prisma.conversation.update id lastMessageAt w = (Return tt, w') →
  is_Some (prisma.conversationOf (db w) id)
  ∧ ∃ t, clock w ≤ t
    ∧ w' = mkWorld
             (with_conversations
                (prisma.updateWhere (λ c, Conversation.id c = id)
                   (prisma.conversation.set_lastMessageAt (Some lastMessageAt) t)
                   (conversations (db w)))
                (db w))
             t (tl (ticks w)) (connections w)
             (trace w ++ [ConversationUpdated id (Some lastMessageAt)]).
Proof.
  unfold prisma.conversation.update. intros H.
  task_bind H as found w1 Hf. task_read Hf.
  destruct (prisma.conversationOf (db w) id) as [c|] eqn:E; [|done].
  split; [eauto|].
  task_bind H as t w1 Ht. apply now_inv in Ht as (tm & [= ->] & Ht & ->).
  task_read H. exists tm. done.
Qed.

Lemma participant_update_inv conversationId userId lastReadAt w w' :
  prisma.conversationParticipant.update conversationId userId lastReadAt w
  = (Return tt, w') →
  is_Some (prisma.findFirst
             (prisma.conversationParticipant.key conversationId userId)
             (participants (db w)))
  ∧ w' = mkWorld
           (with_participants
              (prisma.updateWhere
                 (prisma.conversationParticipant.key conversationId userId)
                 (prisma.conversationParticipant.set_lastReadAt lastReadAt)
                 (participants (db w)))
              (db w))
           (clock w) (ticks w) (connections w)
           (trace w ++ [ParticipantUpdated conversationId userId lastReadAt]).
Proof.
  unfold prisma.conversationParticipant.update. intros H.
  task_bind H as found w1 Hf. task_read Hf.
  destruct (prisma.findFirst _ (participants (db w))) as [p|] eqn:E; [|done].
  split; [eauto|].
  task_read H. done.
Qed.

Lemma participant_update_throws conversationId userId lastReadAt w r w' :
  prisma.findFirst (prisma.conversationParticipant.key conversationId userId)
                   (participants (db w)) = None →
  prisma.conversationParticipant.update conversationId userId lastReadAt w
  = (r, w') →
  r = Throw RecordNotFound ∧ w' = w.
Proof.
  unfold prisma.conversationParticipant.update,
    prisma.conversationParticipant.findUnique, mbind, Task_bind, gets.
  intros ->. by intros [= <- <-].
Qed.

Lemma updateMany_inv P `{PDec : !∀ x, Decision (P x)} conversationId st w r w' :
  prisma.message.updateMany P conversationId st w = (r, w') →
  r = Return tt
  ∧ ∃ t, clock w ≤ t
    ∧ w' = mkWorld
             (with_messages
                (prisma.updateWhere P (prisma.message.set_status st t)
                                    (messages (db w)))
                (db w))
             t (tl (ticks w)) (connections w)
             (trace w ++ [MessagesUpdatedMany conversationId]).
Proof.
  unfold prisma.message.updateMany, mbind, Task_bind, modify.
  destruct (now w) as [r0 w0] eqn:E.
  apply now_inv in E as (t & -> & Ht & ->).
  intros [= <- <-]. split; [done|]. by exists t.
Qed.

Lemma update_deleted_inv id deletedAt w w' :
  prisma.message.update_deleted id deletedAt w = (Return tt, w') →
  is_Some (prisma.messageOf (db w) id)
  ∧ ∃ t, clock w ≤ t
    ∧ w' = mkWorld
             (with_messages
                (prisma.updateWhere (λ m, Message.id m = id)
                   (prisma.message.set_deleted deletedAt t) (messages (db w)))
                (db w))
             t (tl (ticks w)) (connections w) (trace w ++ [MessageUpdated id]).
Proof.
  unfold prisma.message.update_deleted. intros H.
  task_bind H as found w1 Hf. task_read Hf.
  destruct (prisma.messageOf (db w) id) as [m|] eqn:E; [|done].
  split; [eauto|].
  task_bind H as t w1 Ht. apply now_inv in Ht as (tm & [= ->] & Ht & ->).
  task_read H. exists tm. done.
Qed.

(** The same operations run forward: under the condition stated each one
    returns, and the world it returns is the one of the inversion above. *)

Lemma now_total w :
  ∃ t, clock w ≤ t
    ∧ now w = (Return t,
               mkWorld (db w) t (tl (ticks w)) (connections w) (trace w)).
Proof. eexists. split; [|reflexivity]. lia. Qed.

Lemma message_create_total data st w :
  prisma.message.references_ok (db w) data →
  ∃ t m, clock w ≤ t
    ∧ m = Message.mk (nextMessageId (db w))
            (prisma.message.conversationId data) (prisma.message.senderId data)
            (prisma.message.receiverId data) (prisma.message.content data)
            (prisma.message.type data) (prisma.message.mediaUrl data)
            (prisma.message.replyToId data) st
            (prisma.message.callStatus data) (prisma.message.callStartedAt data)
            None None t t None
    ∧ prisma.message.create data st w
      = (Return m,
         mkWorld
           (mkDb (users (db w)) (groups (db w)) (conversations (db w))
                 (participants (db w)) (messages (db w) ++ [m])
                 (nextConversationId (db w)) (nextParticipantId (db w))
                 (nextMessageId (db w) + 1))
           t (tl (ticks w)) (connections w) (trace w ++ [MessageCreated m])).
Proof.
  intros Hok. destruct (now_total w) as (t & Ht & Hnow).
  eexists t, _. split; [done|]. split; [reflexivity|].
  unfold prisma.message.create.
  erewrite bind_run; [|reflexivity]. rewrite decide_True by done.
  erewrite bind_run; [|exact Hnow].
  erewrite bind_run; reflexivity.
Qed.

Lemma conversation_update_total id lastMessageAt w :
  is_Some (prisma.conversationOf (db w) id) →
  ∃ t, clock w ≤ t
    ∧ prisma.conversation.update id lastMessageAt w
      = (Return tt,
         mkWorld
           (with_conversations
              (prisma.updateWhere (λ c, Conversation.id c = id)
                 (prisma.conversation.set_lastMessageAt (Some lastMessageAt) t)
                 (conversations (db w)))
              (db w))
           t (tl (ticks w)) (connections w)
           (trace w ++ [ConversationUpdated id (Some lastMessageAt)])).
Proof.
  intros [c Hc]. destruct (now_total w) as (t & Ht & Hnow).
  exists t. split; [done|]. unfold prisma.conversation.update.
  erewrite bind_run; [|reflexivity]. rewrite Hc.
  erewrite bind_run; [|exact Hnow]. reflexivity.
Qed.

Lemma participant_update_total conversationId userId lastReadAt w :
  is_Some (prisma.findFirst
             (prisma.conversationParticipant.key conversationId userId)
             (participants (db w))) →
  prisma.conversationParticipant.update conversationId userId lastReadAt w
  = (Return tt,
     mkWorld
       (with_participants
          (prisma.updateWhere
             (prisma.conversationParticipant.key conversationId userId)
             (prisma.conversationParticipant.set_lastReadAt lastReadAt)
             (participants (db w)))
          (db w))
       (clock w) (ticks w) (connections w)
       (trace w ++ [ParticipantUpdated conversationId userId lastReadAt])).
Proof.
  intros [p Hp]. unfold prisma.conversationParticipant.update.
  erewrite bind_run; [|reflexivity]. by rewrite Hp.
Qed.

Lemma update_deleted_total id deletedAt w :
  is_Some (prisma.messageOf (db w) id) →
  ∃ t, clock w ≤ t
    ∧ prisma.message.update_deleted id deletedAt w
      = (Return tt,
         mkWorld
           (with_messages
              (prisma.updateWhere (λ m, Message.id m = id)
                 (prisma.message.set_deleted deletedAt t) (messages (db w)))
              (db w))
           t (tl (ticks w)) (connections w) (trace w ++ [MessageUpdated id])).
Proof.
  intros [m Hm]. destruct (now_total w) as (t & Ht & Hnow).
  exists t. split; [done|]. unfold prisma.message.update_deleted.
  erewrite bind_run; [|reflexivity]. rewrite Hm.
  erewrite bind_run; [|exact Hnow]. reflexivity.
Qed.

(** [task_run H by lemma] replaces the first step of the task of [H] by
    its result, proved by [lemma]. *)
Tactic Notation "task_run" hyp(H) "by" constr(Hrun) :=
  rewrite (bind_run _ _ _ _ _ Hrun) in H.

Tactic Notation "task_run" "by" constr(Hrun) :=
  rewrite (bind_run _ _ _ _ _ Hrun).


(** ** The dispatcher *)

Section Dispatch.
Context (message : ServerEvent).

Lemma forEach_send_closed (l : list WebSocket.t) :
  filter (λ ws, WebSocket.readyState ws = OPEN) l = [] →
  forEach_send message l = l.
Proof.
  induction l as [|ws l IH]; [done|].
  rewrite filter_cons. unfold forEach_send. simpl.
  destruct (decide (WebSocket.readyState ws = OPEN)); [done|].
  intros H. f_equal. by apply IH.
Qed.

Lemma deliver_offline (w : World) (userId : Z) :
  liveConnections w userId = [] → deliver message w userId = w.
Proof.
  unfold liveConnections, deliver.
  destruct (connections w !! userId) as [l|] eqn:E; simpl; [|done].
  intros H. unfold sends. rewrite H, forEach_send_closed by done.
  rewrite insert_id by done.
  unfold log, with_connections. simpl. rewrite app_nil_r. apply world_eq.
Qed.

Lemma deliver_lookup_ne (w : World) (u v : Z) :
  u ≠ v → connections (deliver message w v) !! u = connections w !! u.
Proof.
  intros Hne. unfold deliver.
  destruct (connections w !! v); simpl; [|done].
  by rewrite lookup_insert_ne.
Qed.

Lemma sendsTo_sends_ne (u v : Z) (l : list WebSocket.t) :
  u ≠ v → sendsTo u (sends v message l) = [].
Proof.
  intros Hne. unfold sendsTo, sends.
  induction (filter (λ ws, WebSocket.readyState ws = OPEN) l) as [|ws l' IH];
    [done|].
  rewrite fmap_cons, filter_cons. simpl.
  destruct (decide (v = u)); [congruence | done].
Qed.

Lemma deliver_sendsTo_ne (w : World) (u v : Z) :
  u ≠ v → sendsTo u (trace (deliver message w v)) = sendsTo u (trace w).
Proof.
  intros Hne. unfold deliver.
  destruct (connections w !! v); simpl; [|done].
  unfold sendsTo. rewrite filter_app.
  fold (sendsTo u (sends v message l)).
  by rewrite sendsTo_sends_ne, app_nil_r.
Qed.

Lemma deliver_db (w : World) (v : Z) : db (deliver message w v) = db w.
Proof. unfold deliver. by destruct (connections w !! v). Qed.

Lemma deliver_clock (w : World) (v : Z) :
  clock (deliver message w v) = clock w ∧ ticks (deliver message w v) = ticks w.
Proof. unfold deliver. by destruct (connections w !! v). Qed.

Lemma broadcastToUsers_db (userIds : list Z) (w : World) :
  db (broadcastToUsers userIds message w) = db w.
Proof.
  unfold broadcastToUsers. revert w.
  induction userIds as [|v l IH]; intros w; simpl; [done|].
  by rewrite IH, deliver_db.
Qed.

Lemma broadcastToUsers_clock (userIds : list Z) (w : World) :
  clock (broadcastToUsers userIds message w) = clock w
  ∧ ticks (broadcastToUsers userIds message w) = ticks w.
Proof.
  unfold broadcastToUsers. revert w.
  induction userIds as [|v l IH]; intros w; simpl; [done|].
  destruct (IH (deliver message w v)) as [-> ->]. apply deliver_clock.
Qed.

Lemma liveConnections_deliver (w : World) (u v : Z) :
  liveConnections w u = [] → liveConnections (deliver message w v) u = [].
Proof.
  intros H. destruct (decide (u = v)) as [->|Hne].
  - by rewrite deliver_offline.
  - unfold liveConnections. by rewrite deliver_lookup_ne.
Qed.

Lemma deliver_trace (w : World) (u : Z) :
  ∃ es, trace (deliver message w u) = trace w ++ es
        ∧ Forall (λ e, ∃ ws, e = WsSend u ws message) es.
Proof.
  unfold deliver. destruct (connections w !! u) as [l|]; simpl.
  - eexists. split; [done|]. unfold sends.
    apply Forall_fmap, Forall_forall. intros ws _. simpl. eauto.
  - exists []. by rewrite app_nil_r.
Qed.

Lemma broadcastToUsers_trace (userIds : list Z) (w : World) :
  ∃ es, trace (broadcastToUsers userIds message w) = trace w ++ es
        ∧ Forall (λ e, ∃ u ws, e = WsSend u ws message ∧ u ∈ userIds) es.
Proof.
  unfold broadcastToUsers. revert w.
  induction userIds as [|v l IH]; intros w; simpl.
  - exists []. by rewrite app_nil_r.
  - destruct (IH (deliver message w v)) as (es2 & -> & H2).
    destruct (deliver_trace w v) as (es1 & -> & H1).
    exists (es1 ++ es2). split; [by rewrite app_assoc|].
    apply Forall_app. split.
    + eapply Forall_impl; [exact H1|]. intros e (ws & ->).
      exists v, ws. split; [done | left].
    + eapply Forall_impl; [exact H2|]. intros e (u & ws & -> & Hu).
      exists u, ws. split; [done | by right].
Qed.

(** C8.  Dispatching to a user none of whose registered sockets is open
    (in particular a user with no entry in the registry) changes nothing:
    [broadcastToUser] returns the world it was given, [broadcastToUsers]
    behaves as if the user were not among the targets, writes nothing to
    that user and leaves the frames of its sockets as they were.  The
    functions are total and return no error, and since the world is the
    same there is no record of the event from which a later connection
    could be served. *)
Theorem dispatch_without_live_connection
    (w : World) (userId : Z) (userIds : list Z) :
  liveConnections w userId = [] →
  broadcastToUser userId message w = w
  ∧ broadcastToUsers userIds message w
    = broadcastToUsers (filter (λ u, u ≠ userId) userIds) message w
  ∧ sendsTo userId (trace (broadcastToUsers userIds message w))
    = sendsTo userId (trace w)
  ∧ received (broadcastToUsers userIds message w) userId = received w userId.
Proof.
  intros Hoff. split; [by apply deliver_offline|].
  unfold broadcastToUsers. revert w Hoff.
  induction userIds as [|v l IH]; intros w Hoff; [done|].
  rewrite filter_cons. simpl.
  destruct (decide (v ≠ userId)) as [Hne|Heq].
  - simpl. destruct (IH (deliver message w v)) as (IH1 & IH2 & IH3).
    { by apply liveConnections_deliver. }
    split; [done|]. split.
    + rewrite IH2. by apply deliver_sendsTo_ne.
    + rewrite IH3. unfold received. by rewrite deliver_lookup_ne.
  - assert (v = userId) as -> by (destruct (decide (v = userId)); tauto).
    rewrite deliver_offline by done. by apply IH.
Qed.
End Dispatch.

Lemma dispatch_without_live_connection_witness :
  liveConnections Sample.world 3 = []
  ∧ ∀ message userIds,
      broadcastToUser 3 message Sample.world = Sample.world
      ∧ broadcastToUsers userIds message Sample.world
        = broadcastToUsers (filter (λ u, u ≠ 3) userIds) message Sample.world
      ∧ sendsTo 3 (trace (broadcastToUsers userIds message Sample.world))
        = sendsTo 3 (trace Sample.world)
      ∧ received (broadcastToUsers userIds message Sample.world) 3
        = received Sample.world 3.
Proof.
  split; [vm_compute; reflexivity|].
  intros message userIds.
  apply (dispatch_without_live_connection message Sample.world 3 userIds).
  vm_compute; reflexivity.
Defined.

(** ** Sending a message *)

Lemma conversationOf_update d id f :
  (∀ c, Conversation.id (f c) = Conversation.id c) →
  prisma.conversationOf
    (with_conversations
       (prisma.updateWhere (λ c, Conversation.id c = id) f (conversations d)) d)
    id
  = f <$> prisma.conversationOf d id.
Proof.
  intros Hf. unfold prisma.conversationOf. simpl.
  rewrite findFirst_updateWhere by (intros c; by rewrite Hf).
  destruct (prisma.findFirst _ (conversations d)) as [c|] eqn:E; [|done].
  apply findFirst_Some in E as [_ E]. simpl. by rewrite decide_True.
Qed.

Lemma participant_after_update d conversationId userId t :
  prisma.findFirst (prisma.conversationParticipant.key conversationId userId)
    (prisma.updateWhere (prisma.conversationParticipant.key conversationId userId)
       (prisma.conversationParticipant.set_lastReadAt t) (participants d))
  = prisma.conversationParticipant.set_lastReadAt t
      <$> prisma.findFirst
            (prisma.conversationParticipant.key conversationId userId)
            (participants d).
Proof.
  rewrite findFirst_updateWhere by done.
  destruct (prisma.findFirst _ (participants d)) as [p|] eqn:E; [|done].
  apply findFirst_Some in E as [_ E]. simpl. by rewrite decide_True.
Qed.

(** C1.  A successful [sendMessage] has, when it hands [new_message] to the
    dispatcher, already inserted the message row (status [sent]), set the
    conversation's [lastMessageAt] to the row's [createdAt] and set the
    sender's own [lastReadAt] to a time not before it: the world [w1] that
    the dispatcher receives contains the three writes, in this order, and
    the dispatcher adds only socket writes of that event, addressed to the
    other participants, and leaves the tables as they are. *)
Theorem sendMessage_persists_before_dispatch
    (user : option Z) (body : SendMessageBody.t)
    (data : FormattedMessage.t) (msg : option string) (w w' : World) :
  sendMessage user body w = (Return (success data msg), w') →
  ∃ userId row lastReadAt w1 frames,
    truthy user = Some userId
    ∧ Message.id row = FormattedMessage.id data
    ∧ Message.conversationId row = SendMessageBody.conversationId body
    ∧ Message.senderId row = userId
    ∧ Message.status row = MessageStatus.sent
    ∧ messages (db w1) = messages (db w) ++ [row]
    ∧ Conversation.lastMessageAt
        <$> prisma.conversationOf (db w1) (SendMessageBody.conversationId body)
      = Some (Some (Message.createdAt row))
    ∧ ConversationParticipant.lastReadAt
        <$> prisma.findFirst
              (prisma.conversationParticipant.key
                 (SendMessageBody.conversationId body) userId)
              (participants (db w1))
      = Some lastReadAt
    ∧ Message.createdAt row ≤ lastReadAt
    ∧ trace w1
      = trace w
        ++ [MessageCreated row;
            ConversationUpdated (SendMessageBody.conversationId body)
                                (Some (Message.createdAt row));
            ParticipantUpdated (SendMessageBody.conversationId body) userId
                               lastReadAt]
    ∧ w' = broadcastToUsers
             (otherParticipantIds userId
                (prisma.participantsOf (db w)
                   (SendMessageBody.conversationId body)))
             (new_message data) w1
    ∧ db w' = db w1
    ∧ trace w' = trace w1 ++ frames
    ∧ Forall (λ e, ∃ u ws, e = WsSend u ws (new_message data)
                           ∧ u ∈ otherParticipantIds userId
                                   (prisma.participantsOf (db w)
                                      (SendMessageBody.conversationId body)))
             frames.
Proof.
  unfold sendMessage. intros H.
  destruct (truthy user) as [userId|] eqn:Euser; [|done].
  apply try_catch_Return_inv in H; [|done].
  task_bind H as conv w1 Hc. task_read Hc.
  destruct (prisma.conversationOf (db w) (SendMessageBody.conversationId body))
    as [c|] eqn:Ec; simpl in H; [|done].
  destruct (isParticipant userId _) eqn:Epart; simpl in H; [|done].
  task_bind H as replyOk w1 Hreply.
  assert (w1 = w) as ->.
  { destruct (truthy (SendMessageBody.replyToId body)).
    - task_bind Hreply as rm w2 Hrm. task_read Hrm. by task_read Hreply.
    - by task_read Hreply. }
  clear Hreply. destruct replyOk; simpl in H; [|done].
  task_bind H as row w2 Hrow.
  apply message_create_inv in Hrow as (Hrefs & t1 & Ht1 & Hrow & ->).
  task_bind H as sender w2 Hsender.
  task_bind Hsender as d w3 Hd. task_read Hd. task_read Hsender.
  task_bind H as replyTo w2 HreplyTo.
  task_bind HreplyTo as d w3 Hd. task_read Hd. task_read HreplyTo.
  task_bind H as u w2 Hconv. destruct u.
  apply conversation_update_inv in Hconv as (Hconv & t2 & Ht2 & ->).
  task_bind H as lastReadAt w2 Hnow.
  apply now_inv in Hnow as (t3 & [= ->] & Ht3 & ->).
  task_bind H as u w2 Hp. destruct u.
  apply participant_update_inv in Hp as (Hp & ->).
  task_bind H as u w2 Hb. task_read Hb. task_ret H.
  injection H as -> ->. simpl in Hconv, Hp, Ht2, Ht3.
  match goal with
  | |- context [broadcastToUsers _ _ ?x] => set (w1 := x)
  end.
  destruct (broadcastToUsers_trace
              (new_message (formatMessage row sender replyTo))
              (otherParticipantIds userId
                 (prisma.participantsOf (db w)
                    (SendMessageBody.conversationId body))) w1)
    as (frames & Htrace & Hframes).
  exists userId, row, t3, w1, frames.
  assert (Message.createdAt row = t1) as Hcreated by (by rewrite Hrow).
  split; [done|].
  split; [by rewrite Hrow|].
  split; [by rewrite Hrow|].
  split; [by rewrite Hrow|].
  split; [by rewrite Hrow|].
  split; [done|].
  split.
  { subst w1. simpl.
    pose proof (conversationOf_update
      (mkDb (users (db w)) (groups (db w)) (conversations (db w))
            (participants (db w)) (messages (db w) ++ [row])
            (nextConversationId (db w)) (nextParticipantId (db w))
            (nextMessageId (db w) + 1))
      (SendMessageBody.conversationId body)
      (prisma.conversation.set_lastMessageAt (Some (Message.createdAt row)) t2))
      as Hupd.
    unfold prisma.conversationOf in *. simpl in *.
    rewrite Hupd by done. destruct Hconv as [c' ->]. done. }
  split.
  { subst w1. simpl. rewrite participant_after_update.
    destruct Hp as [p ->]. done. }
  split; [rewrite Hcreated; lia|].
  split; [subst w1; simpl; by rewrite <- !app_assoc|].
  split; [done|].
  split; [apply broadcastToUsers_db|].
  split; [done|done].
Qed.

Lemma sendMessage_persists_before_dispatch_witness :
  ∃ data msg w',
    sendMessage (Some 3) Sample.hi Sample.world = (Return (success data msg), w')
    ∧ received Sample.world 4 = [(7, []); (8, [])]
    ∧ received w' 4 = [(7, [new_message data]); (8, [])]
    ∧ ∃ row lastReadAt w1,
        Message.status row = MessageStatus.sent
        ∧ messages (db w1) = messages (db Sample.world) ++ [row]
        ∧ trace w1
          = trace Sample.world
            ++ [MessageCreated row;
                ConversationUpdated 1 (Some (Message.createdAt row));
                ParticipantUpdated 1 3 lastReadAt]
        ∧ w' = broadcastToUsers [4] (new_message data) w1.
Proof.
  eexists _, _, _. split; [vm_compute; reflexivity|].
  split; [vm_compute; reflexivity|]. split; [vm_compute; reflexivity|].
  destruct (sendMessage_persists_before_dispatch (Some 3) Sample.hi _ _
              Sample.world _ eq_refl)
    as (userId & row & lastReadAt & w1 & frames & Hu & _ & _ & _ & Hs & Hm
        & _ & _ & _ & Ht & Hw & _).
  injection Hu as <-.
  exists row, lastReadAt, w1. done.
Defined.

(** ** Requests that [sendMessage] rejects *)




(** ** Read receipts *)

Lemma wf_message_ids w m : wf w → m ∈ messages (db w) → 0 < Message.id m.
Proof.
  intros (_ & _ & _ & _ & Hm) Hin. rewrite Forall_forall in Hm.
  destruct (Hm m Hin) as ([? _] & _). done.
Qed.

Lemma wf_messageOf_zero w : wf w → prisma.messageOf (db w) 0 = None.
Proof.
  intros Hwf. apply findFirst_None, Forall_forall. intros m Hin Hid.
  apply (wf_message_ids w m Hwf) in Hin. lia.
Qed.

Lemma messageOf_updateWhere d P `{PDec : !∀ m, Decision (P m)} f id :
  (∀ m, Message.id (f m) = Message.id m) →
  prisma.messageOf (with_messages (prisma.updateWhere P f (messages d)) d) id
  = (λ m, if decide (P m) then f m else m) <$> prisma.messageOf d id.
Proof.
  intros Hf. unfold prisma.messageOf. simpl.
  apply findFirst_updateWhere. intros m. by rewrite Hf.
Qed.

Lemma Forall2_updateWhere {A} (P : A → Prop) `{PDec : !∀ x, Decision (P x)}
    (f : A → A) (rows : list A) :
  Forall2 (λ x y, if decide (P x) then y = f x else y = x)
          rows (prisma.updateWhere P f rows).
Proof.
  unfold prisma.updateWhere. induction rows as [|x rows IH]; [constructor|].
  rewrite fmap_cons. constructor; [|done]. by destruct (decide (P x)).
Qed.

(** The notification that ends [readMessages] writes to sockets only. *)
Lemma readMessages_notify_inv (lastReadMessageId : option Z)
    (conversationId userId : Z) u w w' :
  match truthy lastReadMessageId with
  | Some x =>
      message ← prisma.message.findUnique x;
      match message with
      | Some m =>
          if decide (Message.senderId m ≠ userId) then
            readAt ← now;
            modify (broadcastToUser (Message.senderId m)
                      (message_read x conversationId userId readAt))
          else mret tt
      | None => mret tt
      end
  | None => mret tt
  end w = (Return u, w') →
  db w' = db w ∧ clock w ≤ clock w'.
Proof.
  intros H. destruct (truthy lastReadMessageId) as [x|].
  - task_bind H as message w1 Hm. task_read Hm.
    destruct (prisma.messageOf (db w) x) as [m|].
    + destruct (decide (Message.senderId m ≠ userId)).
      * task_bind H as readAt w1 Hnow.
        apply now_inv in Hnow as (t & [= ->] & Ht & ->).
        task_read H. unfold broadcastToUser.
        rewrite deliver_db. destruct (deliver_clock
          (message_read x conversationId userId t)
          (mkWorld (db w) t (tl (ticks w)) (connections w) (trace w))
          (Message.senderId m)) as [-> _]. done.
      * task_read H. split; [done|lia].
    + task_read H. split; [done|lia].
  - task_read H. split; [done|lia].
Qed.

(** C3.  After a successful [readMessages] with [lastReadMessageId = x],
    the message table is the old one row by row, where each message of the
    conversation with [id ≤ x] that another user sent and that was [sent] or
    [delivered] is now [read] and every other row, so every row with
    [id > x], is the same; no message of the conversation with [id ≤ x] from
    another sender is left [sent] or [delivered]; and the caller's
    [lastReadAt] is the [createdAt] of message [x], or the time read at the
    start of the call when there is no message [x]. *)
Theorem readMessages_marks_read
    (user : option Z) (conversationId x : Z) (msg : option string)
    (w w' : World) :
  wf w →
  readMessages user (ReadMessagesBody.mk conversationId (Some x)) w
  = (Return (success tt msg), w') →
  ∃ userId today,
    truthy user = Some userId
    ∧ clock w ≤ today ≤ clock w'
    ∧ Forall2 (markedRead conversationId x userId)
              (messages (db w)) (messages (db w'))
    ∧ Forall2 (λ m m', x < Message.id m → m' = m)
              (messages (db w)) (messages (db w'))
    ∧ Forall (λ m', Message.conversationId m' = conversationId →
                    Message.id m' ≤ x →
                    Message.senderId m' ≠ userId →
                    Message.status m' ≠ MessageStatus.sent
                    ∧ Message.status m' ≠ MessageStatus.delivered)
             (messages (db w'))
    ∧ ConversationParticipant.lastReadAt
        <$> prisma.findFirst
              (prisma.conversationParticipant.key conversationId userId)
              (participants (db w'))
      = Some (from_option Message.createdAt today (prisma.messageOf (db w) x)).
Proof.
  intros Hwf H. unfold readMessages in H.
  cbn [ReadMessagesBody.conversationId ReadMessagesBody.lastReadMessageId] in H.
  destruct (truthy user) as [userId|] eqn:Euser; [|done].
  apply try_catch_Return_inv in H; [|done].
  task_bind H as conv w1 Hc. task_read Hc.
  destruct (prisma.conversationOf (db w) conversationId) as [c|] eqn:Ec;
    [|done].
  task_bind H as today w1 Hnow.
  apply now_inv in Hnow as (t0 & [= ->] & Ht0 & ->).
  task_bind H as lastReadAt w2 Hmark.
  task_bind H as u w3 Hp. destruct u.
  apply participant_update_inv in Hp as (Hp & ->).
  task_bind H as u w3 Hn.
  apply (readMessages_notify_inv (Some x)) in Hn as [Hdb Hclock].
  task_ret H. clear H.
  exists userId, t0. split; [done|].
  destruct (decide (x = 0)) as [->|Hx].
  - change (truthy (Some 0)) with (@None Z) in Hmark. task_read Hmark.
    simpl in *. rewrite Hdb. simpl.
    assert (∀ m, m ∈ messages (db w) → ¬ readable conversationId 0 userId m)
      as Hnone.
    { intros m Hin (_ & Hid & _). apply (wf_message_ids w m Hwf) in Hin. lia. }
    split; [lia|]. split.
    { apply Forall_Forall2_diag, Forall_forall. intros m Hin.
      unfold markedRead. rewrite decide_False; [done | by apply Hnone]. }
    split.
    { apply Forall_Forall2_diag, Forall_forall. done. }
    split.
    { apply Forall_forall. intros m Hin Hconv Hid.
      apply (wf_message_ids w m Hwf) in Hin. lia. }
    rewrite participant_after_update. destruct Hp as [p ->].
    by rewrite wf_messageOf_zero.
  - rewrite truthy_Some in Hmark by done.
    task_bind Hmark as u' w4 Hupd.
    apply updateMany_inv in Hupd as (_ & t1 & Ht1 & ->).
    task_bind Hmark as lastMessage w4 Hl. task_read Hl. task_read Hmark.
    simpl in *. rewrite Hdb. simpl.
    pose proof (Forall2_updateWhere (readable conversationId x userId)
                  (prisma.message.set_status MessageStatus.read t1)
                  (messages (db w))) as Hrows.
    split; [lia|]. split.
    { eapply Forall2_impl; [exact Hrows|]. intros m m' Hm. cbv beta in Hm.
      unfold markedRead.
      destruct (decide (readable conversationId x userId m)); [eauto | done]. }
    split.
    { eapply Forall2_impl; [exact Hrows|]. intros m m' Hm Hid. cbv beta in Hm.
      destruct (decide (readable conversationId x userId m))
        as [(_ & Hle & _)|]; [lia | done]. }
    split.
    { apply Forall_forall. intros m' Hin Hconv Hid Hsender.
      apply elem_of_updateWhere in Hin as (m & Hin & ->).
      destruct (decide (readable conversationId x userId m)) as [Hr|Hr].
      - by simpl.
      - split; intros Hst; apply Hr; unfold readable; tauto. }
    rewrite participant_after_update. destruct Hp as [p ->]. simpl.
    pose proof (messageOf_updateWhere (db w) (readable conversationId x userId)
                  (prisma.message.set_status MessageStatus.read t1) x) as Hm.
    rewrite Hm by done.
    destruct (prisma.messageOf (db w) x) as [m|]; [|done].
    simpl. by destruct (decide _).
Qed.


Lemma readMessages_marks_read_witness :
  wf Sample.world
  ∧ ∃ msg w',
      readMessages (Some 3) (ReadMessagesBody.mk 1 (Some 1)) Sample.world
      = (Return (success tt msg), w')
      ∧ Forall2 (markedRead 1 1 3)
                (messages (db Sample.world)) (messages (db w'))
      ∧ Message.status <$> messages (db w')
        = [MessageStatus.read; MessageStatus.sent]
      ∧ ConversationParticipant.lastReadAt
          <$> prisma.findFirst (prisma.conversationParticipant.key 1 3)
                               (participants (db w'))
        = Some 200.
Proof.
  assert (wf Sample.world) as Hwf
    by (apply (bool_decide_unpack _); vm_compute; reflexivity).
  split; [exact Hwf|].
  eexists _, _. split; [vm_compute; reflexivity|].
  destruct (readMessages_marks_read (Some 3) 1 1 _ Sample.world _ Hwf eq_refl)
    as (userId & today & Hu & _ & Hrows & _ & _ & Hread).
  injection Hu as <-.
  split; [exact Hrows|]. split; [vm_compute; reflexivity|].
  vm_compute; reflexivity.
Defined.

(** The first half of [readMessages]: the bulk update, when a key is given,
    and the date to record.  It does not fail. *)
Lemma readMessages_mark_inv (lastReadMessageId : option Z)
    (conversationId userId : Z) (today : DateTime) w r w' :
  match truthy lastReadMessageId with
  | Some x =>
      prisma.message.updateMany (readable conversationId x userId)
        conversationId MessageStatus.read;;
      lastMessage ← prisma.message.findUnique x;
      mret (match lastMessage with
            | Some m => Message.createdAt m
            | None => today
            end)
  | None => mret today
  end w = (r, w') →
  ∃ lastReadAt, r = Return lastReadAt
    ∧ participants (db w') = participants (db w)
    ∧ match truthy lastReadMessageId with
      | Some x =>
          ∃ t, messages (db w')
               = prisma.updateWhere (readable conversationId x userId)
                   (prisma.message.set_status MessageStatus.read t)
                   (messages (db w))
      | None => w' = w
      end.
Proof.
  destruct (truthy lastReadMessageId) as [x|].
  - unfold mbind at 1, Task_bind.
    destruct (prisma.message.updateMany _ _ _ w) as [r1 w1] eqn:Hupd.
    apply updateMany_inv in Hupd as (-> & t & Ht & ->).
    unfold prisma.message.findUnique, mbind, Task_bind, gets, mret, Task_ret.
    intros [= <- <-]. eexists. split; [done|]. split; [done|].
    exists t. done.
  - intros [= <- <-]. eexists. done.
Qed.

Lemma not_participant_no_row (d : Db) (conversationId userId : Z) :
  isParticipant userId (prisma.participantsOf d conversationId) = false →
  prisma.findFirst (prisma.conversationParticipant.key conversationId userId)
                   (participants d) = None.
Proof.
  unfold isParticipant. intros Hp%bool_decide_eq_false.
  apply findFirst_None, Forall_forall. intros p Hin [Hc Hu].
  apply Hp, Exists_exists. exists p. split; [|done].
  unfold prisma.participantsOf. by apply list_elem_of_filter.
Qed.



(** ** Integrity is kept by the updates *)

Lemma wf_message w m :
  wf w → m ∈ messages (db w) →
  0 < Message.id m < nextMessageId (db w)
  ∧ is_Some (prisma.conversationOf (db w) (Message.conversationId m))
  ∧ is_Some (prisma.userOf (db w) (Message.senderId m))
  ∧ Message.createdAt m ≤ clock w.
Proof.
  intros (_ & _ & _ & _ & Hm) Hin. rewrite Forall_forall in Hm. by apply Hm.
Qed.

Lemma wf_participant w p :
  wf w → p ∈ participants (db w) →
  is_Some (prisma.conversationOf (db w) (ConversationParticipant.conversationId p))
  ∧ is_Some (prisma.userOf (db w) (ConversationParticipant.userId p)).
Proof.
  intros (_ & _ & _ & Hp & _) Hin. rewrite Forall_forall in Hp. by apply Hp.
Qed.

Lemma wf_user w u : wf w → u ∈ users (db w) → 0 < User.id u.
Proof.
  intros (_ & Hu & _) Hin. rewrite Forall_forall in Hu. by apply Hu.
Qed.

Ltac wf_split :=
  unfold wf; simpl; refine (conj _ (conj _ (conj _ (conj _ _)))); try done.

Lemma wf_later w t tk conns tr :
  wf w → clock w ≤ t → wf (mkWorld (db w) t tk conns tr).
Proof.
  intros (Hn & Hu & Hc & Hp & Hm) Ht. wf_split.
  eapply Forall_impl; [exact Hm|]. simpl. intros m (? & ? & ? & ?).
  split; [done|]. split; [done|]. split; [done|]. lia.
Qed.

Lemma wf_update_messages w P `{PDec : !∀ m, Decision (P m)} f t tk conns tr :
  wf w → clock w ≤ t →
  (∀ m, Message.id (f m) = Message.id m
        ∧ Message.conversationId (f m) = Message.conversationId m
        ∧ Message.senderId (f m) = Message.senderId m
        ∧ Message.createdAt (f m) = Message.createdAt m) →
  wf (mkWorld (with_messages (prisma.updateWhere P f (messages (db w))) (db w))
              t tk conns tr).
Proof.
  intros (Hn & Hu & Hc & Hp & Hm) Ht Hf. wf_split.
  apply Forall_forall. intros m' (m & Hin & ->)%elem_of_updateWhere.
  rewrite Forall_forall in Hm. destruct (Hm m Hin) as (? & ? & ? & ?).
  unfold prisma.conversationOf, prisma.userOf in *. simpl.
  destruct (decide (P m)).
  - destruct (Hf m) as (-> & -> & -> & ->).
    split; [done|]. split; [done|]. split; [done|]. lia.
  - split; [done|]. split; [done|]. split; [done|]. lia.
Qed.

Lemma wf_broadcastToUsers w userIds message :
  wf w → wf (broadcastToUsers userIds message w).
Proof.
  intros Hwf. unfold wf.
  rewrite broadcastToUsers_db.
  destruct (broadcastToUsers_clock message userIds w) as [-> _]. exact Hwf.
Qed.

Lemma messageOf_elem_of d id m :
  prisma.messageOf d id = Some m → m ∈ messages d ∧ Message.id m = id.
Proof. exact (findFirst_Some (λ m, Message.id m = id) (messages d) m). Qed.

(** ** Deleting a message *)

Lemma deleteMessage_absent user userId id w :
  truthy user = Some userId →
  prisma.messageOf (db w) (Z.of_N id) = None →
  deleteMessage user id w = (Return (notFound "消息不存在"), w).
Proof.
  intros Hu Em. unfold deleteMessage. rewrite Hu. apply try_catch_run.
  task_run by (eq_refl : prisma.message.findUnique (Z.of_N id) w = (Return _, w)).
  by rewrite Em.
Qed.

Lemma deleteMessage_not_sender user userId id w m :
  wf w → truthy user = Some userId →
  prisma.messageOf (db w) (Z.of_N id) = Some m →
  Message.senderId m ≠ userId →
  deleteMessage user id w = (Return (error "您没有权限删除此消息" 403), w).
Proof.
  intros Hwf Hu Em Hs. unfold deleteMessage. rewrite Hu.
  apply try_catch_run.
  task_run by (eq_refl : prisma.message.findUnique (Z.of_N id) w = (Return _, w)).
  rewrite Em.
  apply messageOf_elem_of in Em as [Hin _].
  destruct (wf_message w m Hwf Hin) as (_ & [c Hc] & _).
  task_run by (eq_refl : gets db w = _).
  rewrite Hc.
  task_run by (eq_refl : prisma.required (Some c) w = _).
  by rewrite decide_True.
Qed.

Lemma deleteMessage_sender user userId id w m :
  wf w → truthy user = Some userId →
  prisma.messageOf (db w) (Z.of_N id) = Some m →
  Message.senderId m = userId →
  ∃ t1 t2 t3 tk,
    clock w ≤ t1 ∧ t1 ≤ t2 ∧ t2 ≤ t3
    ∧ deleteMessage user id w
      = (Return (success tt (Some "消息已删除")),
         broadcastToUsers
           (otherParticipantIds userId
              (prisma.participantsOf (db w) (Message.conversationId m)))
           (message_deleted (Z.of_N id) (Message.conversationId m) t3)
           (mkWorld
              (with_messages
                 (prisma.updateWhere (λ m, Message.id m = Z.of_N id)
                    (prisma.message.set_deleted t1 t2) (messages (db w)))
                 (db w))
              t3 tk (connections w) (trace w ++ [MessageUpdated (Z.of_N id)]))).
Proof.
  intros Hwf Hu Em Hs. unfold deleteMessage. rewrite Hu.
  pose proof Em as Hin. apply messageOf_elem_of in Hin as [Hin _].
  destruct (wf_message w m Hwf Hin) as (_ & [c Hc] & _).
  destruct (now_total w) as (t1 & Ht1 & Hnow1).
  destruct (update_deleted_total (Z.of_N id) t1
              (mkWorld (db w) t1 (tl (ticks w)) (connections w) (trace w)))
    as (t2 & Ht2 & Hdel); [simpl; eauto|].
  match type of Hdel with
  | _ = (_, ?x) => destruct (now_total x) as (t3 & Ht3 & Hnow3)
  end.
  exists t1, t2, t3. eexists. split; [done|]. split; [done|]. split; [done|].
  apply try_catch_run.
  task_run by (eq_refl : prisma.message.findUnique (Z.of_N id) w = (Return _, w)).
  rewrite Em.
  task_run by (eq_refl : gets db w = _).
  rewrite Hc.
  task_run by (eq_refl : prisma.required (Some c) w = _).
  rewrite decide_False by (intros ?; done).
  task_run by Hnow1. task_run by Hdel. task_run by Hnow3.
  erewrite bind_run; reflexivity.
Qed.



(** ** Call signaling *)

Lemma participantsOf_elem_of d conversationId p :
  p ∈ prisma.participantsOf d conversationId →
  p ∈ participants d ∧ ConversationParticipant.conversationId p = conversationId.
Proof.
  unfold prisma.participantsOf. intros [? ?]%list_elem_of_filter. done.
Qed.

(** The two rows of a two-party conversation, in one order or the other. *)
Lemma two_party (ps : list ConversationParticipant.t) (userId other : Z) :
  userId ≠ other →
  ConversationParticipant.userId <$> ps ≡ₚ [userId; other] →
  ∃ pu po,
    ConversationParticipant.userId pu = userId
    ∧ ConversationParticipant.userId po = other
    ∧ (ps = [pu; po] ∨ ps = [po; pu]).
Proof.
  intros Hne Hperm. symmetry in Hperm.
  apply Permutation_length_2_inv in Hperm.
  destruct ps as [|p1 [|p2 [|p3 ps]]]; destruct Hperm as [Hp|Hp];
    try discriminate Hp; injection Hp as H1 H2.
  - exists p1, p2. eauto.
  - exists p2, p1. eauto.
Qed.

Lemma two_party_facts (ps : list ConversationParticipant.t) (userId other : Z) :
  userId ≠ other →
  ConversationParticipant.userId <$> ps ≡ₚ [userId; other] →
  isParticipant userId ps = true
  ∧ otherParticipantIds userId ps = [other]
  ∧ ConversationParticipant.userId
      <$> prisma.findFirst (λ p, ConversationParticipant.userId p ≠ userId) ps
    = Some other
  ∧ (∃ pu, pu ∈ ps ∧ ConversationParticipant.userId pu = userId)
  ∧ (∃ po, po ∈ ps ∧ ConversationParticipant.userId po = other).
Proof.
  intros Hne Hperm.
  destruct (two_party ps userId other Hne Hperm) as (pu & po & Hu & Ho & Hps).
  unfold isParticipant, otherParticipantIds, prisma.findFirst.
  destruct Hps as [-> | ->].
  - split; [apply bool_decide_eq_true; by left|].
    rewrite !filter_cons, filter_nil.
    rewrite (decide_False (P := ConversationParticipant.userId pu ≠ userId))
      by (intros ?; done).
    rewrite (decide_True (P := ConversationParticipant.userId po ≠ userId))
      by congruence.
    simpl. rewrite Ho. repeat split; try done.
    + exists pu. split; [left | done].
    + exists po. split; [right; left | done].
  - split; [apply bool_decide_eq_true; right; by left|].
    rewrite !filter_cons, filter_nil.
    rewrite (decide_False (P := ConversationParticipant.userId pu ≠ userId))
      by (intros ?; done).
    rewrite (decide_True (P := ConversationParticipant.userId po ≠ userId))
      by congruence.
    simpl. rewrite Ho. repeat split; try done.
    + exists pu. split; [right; left | done].
    + exists po. split; [left | done].
Qed.



(** ** Message history *)

Lemma paginate_inv {A} (skip take_ : Z) (rows : list A) (a : list A) w w' :
  prisma.paginate skip take_ rows w = (Return a, w') →
  0 ≤ skip
  ∧ a = take (Z.to_nat take_) (drop (Z.to_nat skip) rows)
  ∧ w' = w.
Proof.
  unfold prisma.paginate. destruct (decide (skip < 0)); [done|].
  intros [= <- <-]. split; [lia | done].
Qed.

(** C10.  A successful [getMessages] sets the caller's [lastReadAt] for the
    conversation to the time read when the page has been fetched, whatever
    the page, the limit and the cursor; no message is dated after that
    time, so the count of unread messages of the conversation, as
    [getConversations] computes it, is 0 for the caller. *)
Theorem getMessages_resets_unread
    (user : option Z) (conversationId : N) (query : PageQuery.t)
    (data : Page.t FormattedMessage.t) (msg : option string) (w w' : World) :
  wf w →
  getMessages user conversationId query w = (Return (success data msg), w') →
  ∃ userId lastReadAt,
    truthy user = Some userId
    ∧ clock w ≤ lastReadAt
    ∧ clock w' = lastReadAt
    ∧ ConversationParticipant.lastReadAt
        <$> prisma.findFirst
              (prisma.conversationParticipant.key (Z.of_N conversationId) userId)
              (participants (db w'))
      = Some lastReadAt
    ∧ messages (db w') = messages (db w)
    ∧ prisma.message.count (unread (Z.of_N conversationId) userId lastReadAt) w'
      = (Return 0, w').
Proof.
  intros Hwf H. unfold getMessages in H.
  destruct (truthy user) as [userId|] eqn:Euser; [|done].
  apply try_catch_Return_inv in H; [|done].
  task_bind H as participant w1 Hp. task_read Hp.
  destruct (prisma.findFirst _ (participants (db w))) as [p|] eqn:Ep; [|done].
  task_bind H as before w1 Hbefore.
  assert (w1 = w) as ->.
  { destruct (PageQuery.before query).
    - task_bind Hbefore as bm w2 Hbm. task_read Hbm. by task_read Hbefore.
    - by task_read Hbefore. }
  clear Hbefore.
  task_bind H as d w1 Hd. task_read Hd.
  task_bind H as rows w1 Hrows. apply paginate_inv in Hrows as (_ & _ & ->).
  task_bind H as messages w1 Hmessages. task_read Hmessages.
  task_bind H as total w1 Htotal. task_read Htotal.
  task_bind H as lastReadAt w1 Hnow.
  apply now_inv in Hnow as (t & [= ->] & Ht & ->).
  task_bind H as u w1 Hupdate. destruct u.
  apply participant_update_inv in Hupdate as (Hrow & ->).
  task_ret H. clear H.
  simpl in Hrow. exists userId, t. simpl.
  split; [done|]. split; [done|]. split; [done|].
  split; [rewrite participant_after_update; by destruct Hrow as [p' ->]|].
  split; [done|].
  unfold prisma.message.count, gets. simpl.
  rewrite filter_none; [done|].
  apply Forall_forall. intros m Hin (_ & Hlater & _).
  destruct (wf_message w m Hwf Hin) as (_ & _ & _ & Hdate). lia.
Qed.

Lemma getMessages_resets_unread_witness :
  wf Sample.world
  ∧ ∃ data msg w',
      getMessages (Some 3) 1%N (PageQuery.mk (Some 2%N) (Some 1%N) (Some 2%N))
                  Sample.world
      = (Return (success data msg), w')
      ∧ ConversationParticipant.lastReadAt
          <$> prisma.findFirst (prisma.conversationParticipant.key 1 3)
                               (participants (db w'))
        = Some (clock w')
      ∧ prisma.message.count (unread 1 3 (clock w')) w' = (Return 0, w').
Proof.
  assert (wf Sample.world) as Hwf
    by (apply (bool_decide_unpack _); vm_compute; reflexivity).
  split; [exact Hwf|].
  eexists _, _, _. split; [vm_compute; reflexivity|].
  destruct (getMessages_resets_unread (Some 3) 1%N
              (PageQuery.mk (Some 2%N) (Some 1%N) (Some 2%N)) _ _
              Sample.world _ Hwf eq_refl)
    as (userId & lastReadAt & Hu & _ & Hclock & Hread & _ & Hcount).
  injection Hu as <-. subst lastReadAt. split; [exact Hread | exact Hcount].
Defined.

(** ** Direct conversations *)

Lemma directBetween_sym d a b c : directBetween d a b c → directBetween d b a c.
Proof.
  unfold directBetween. intros (Ht & Hall & Ha & Hb).
  split; [done|]. split; [|done].
  eapply Forall_impl; [exact Hall|]. intros p.
  rewrite !elem_of_cons, !elem_of_nil. tauto.
Qed.

Lemma findFirst_directBetween_sym d a b rows :
  prisma.findFirst (directBetween d a b) rows
  = prisma.findFirst (directBetween d b a) rows.
Proof.
  apply findFirst_ext. intros c _. split; apply directBetween_sym.
Qed.

Lemma participantsWithUser_total w conversationId :
  wf w → is_Some (participantsWithUser (db w) conversationId).
Proof.
  intros Hwf. unfold participantsWithUser.
  apply mapM_is_Some, Forall_forall. intros p [Hp _]%participantsOf_elem_of.
  destruct (wf_participant w p Hwf Hp) as [_ [u Hu]]. simpl. rewrite Hu. eauto.
Qed.

Lemma messagesOf_elem_of d conversationId m :
  m ∈ prisma.messagesOf d conversationId →
  m ∈ messages d ∧ Message.conversationId m = conversationId.
Proof.
  unfold prisma.messagesOf. intros [? ?]%list_elem_of_filter. done.
Qed.

Lemma orderByCreatedAtDesc_elem_of rows m :
  m ∈ prisma.orderByCreatedAtDesc rows ↔ m ∈ rows.
Proof.
  unfold prisma.orderByCreatedAtDesc. by rewrite merge_sort_Permutation.
Qed.

Lemma withSender_total w (rows : list Message.t) :
  wf w → Forall (λ m, m ∈ messages (db w)) rows →
  is_Some (mapM (λ m, u ← senderOf (db w) m; Some (m, u)) rows).
Proof.
  intros Hwf Hrows. apply mapM_is_Some.
  eapply Forall_impl; [exact Hrows|]. intros m Hm. simpl.
  destruct (wf_message w m Hwf Hm) as (_ & _ & [u Hu] & _).
  unfold senderOf. rewrite Hu. simpl. eauto.
Qed.

(** The lookup finds a conversation: it is returned, nothing is written. *)
Lemma createDirectConversation_existing (a b : Z) (w : World) c :
  wf w → a ≠ 0 → a ≠ b →
  is_Some (prisma.userOf (db w) b) →
  prisma.findFirst (directBetween (db w) a b) (conversations (db w)) = Some c →
  ∃ d, createDirectConversation (Some a) b w = (Return (success d None), w)
       ∧ ConversationBasic.id d = Conversation.id c.
Proof.
  intros Hwf Ha Hab [tu Htu] Hc.
  destruct (participantsWithUser_total w (Conversation.id c) Hwf) as [ps Hps].
  destruct (withSender_total w
              (option_list (head (prisma.orderByCreatedAtDesc
                  (prisma.messagesOf (db w) (Conversation.id c))))) Hwf)
    as [lm Hlm].
  { destruct (head _) as [m|] eqn:Eh; [|constructor]. simpl.
    constructor; [|constructor].
    apply head_Some_elem_of in Eh.
    apply (proj1 (orderByCreatedAtDesc_elem_of _ _)) in Eh.
    by apply messagesOf_elem_of in Eh as [? _]. }
  eexists. unfold createDirectConversation.
  rewrite truthy_Some by done. rewrite decide_False by done.
  split.
  - apply try_catch_run.
    task_run by (eq_refl : prisma.user.findUnique b w = (Return _, w)).
    rewrite Htu.
    task_run by (eq_refl : gets db w = _).
    rewrite Hc.
    rewrite Hps.
    task_run by (eq_refl : prisma.required (Some ps) w = _ ).
    task_run by (eq_refl :
      prisma.conversationParticipant.findUnique (Conversation.id c) a w
      = (Return _, w)).
    rewrite Hlm.
    task_run by (eq_refl : prisma.required (Some lm) w = _ ).
    reflexivity.
  - reflexivity.
Qed.

Lemma conversation_create_total (a b : Z) w :
  is_Some (prisma.userOf (db w) a) → is_Some (prisma.userOf (db w) b) → a ≠ b →
  ∃ t, clock w ≤ t
    ∧ prisma.conversation.create ConversationType.direct [a; b] w
      = (Return (newDirect w t), directCreated a b t w).
Proof.
  intros Ha Hb Hab. destruct (now_total w) as (t & Ht & Hnow).
  exists t. split; [done|].
  unfold prisma.conversation.create.
  task_run by (eq_refl : gets db w = _).
  rewrite decide_True by (repeat constructor; done).
  rewrite decide_True.
  2:{ apply NoDup_cons. split; [|apply NoDup_singleton].
      rewrite elem_of_cons, elem_of_nil. tauto. }
  task_run by Hnow.
  erewrite bind_run; reflexivity.
Qed.

Lemma wf_conversation w c :
  wf w → c ∈ conversations (db w) →
  0 < Conversation.id c < nextConversationId (db w).
Proof.
  intros (_ & _ & Hc & _) Hin. rewrite Forall_forall in Hc. by apply Hc.
Qed.

Lemma conversationOf_elem_of d id c :
  prisma.conversationOf d id = Some c →
  c ∈ conversations d ∧ Conversation.id c = id.
Proof.
  exact (findFirst_Some (λ c, Conversation.id c = id) (conversations d) c).
Qed.

Lemma conversationOf_app d l id :
  is_Some (prisma.conversationOf d id) →
  is_Some (prisma.findFirst (λ c, Conversation.id c = id) (conversations d ++ l)).
Proof.
  intros [c Hc]. rewrite findFirst_app. unfold prisma.conversationOf in Hc.
  rewrite Hc. eauto.
Qed.

Lemma wf_directCreated (a b : Z) (t : DateTime) w :
  wf w →
  is_Some (prisma.userOf (db w) a) → is_Some (prisma.userOf (db w) b) →
  clock w ≤ t →
  wf (directCreated a b t w).
Proof.
  intros Hwf Ha Hb Ht. pose proof Hwf as ([Hn1 Hn2] & Hu & Hc & Hp & Hm).
  unfold wf, directCreated, prisma.conversationOf, prisma.userOf in *. simpl.
  split; [split; lia|]. split; [done|]. split.
  { apply Forall_app. split.
    - eapply Forall_impl; [exact Hc|]. simpl. intros c ?. lia.
    - repeat constructor; simpl; lia. }
  split.
  { apply Forall_app. split.
    - eapply Forall_impl; [exact Hp|]. simpl. intros p [H1 H2].
      split; [by apply conversationOf_app | done].
    - assert (is_Some (prisma.findFirst
                          (λ c, Conversation.id c = nextConversationId (db w))
                          (conversations (db w) ++ [newDirect w t]))) as Hnew.
      { rewrite findFirst_app.
        destruct (prisma.findFirst _ (conversations (db w))); [eauto|].
        unfold prisma.findFirst. rewrite filter_cons, filter_nil.
        rewrite decide_True by done. simpl. eauto. }
      repeat constructor; done. }
  eapply Forall_impl; [exact Hm|]. simpl. intros m (? & ? & ? & ?).
  split; [done|]. split; [by apply conversationOf_app|]. split; [done|]. lia.
Qed.

(** The rows of the conversations that existed are not touched by the
    insertion, and the rows of the new conversation are the two inserted. *)
Lemma participantsOf_directCreated_old (a b : Z) (t : DateTime) w id :
  id ≠ nextConversationId (db w) →
  prisma.participantsOf (db (directCreated a b t w)) id
  = prisma.participantsOf (db w) id.
Proof.
  intros Hid. unfold prisma.participantsOf, directCreated. simpl.
  rewrite filter_app, !filter_cons, filter_nil. simpl.
  rewrite !decide_False by done. by rewrite app_nil_r.
Qed.

Lemma participantsOf_directCreated_new (a b : Z) (t : DateTime) w :
  wf w →
  ConversationParticipant.userId
    <$> prisma.participantsOf (db (directCreated a b t w))
          (nextConversationId (db w))
  = [a; b].
Proof.
  intros Hwf. unfold prisma.participantsOf, directCreated. simpl.
  rewrite filter_app, !filter_cons, filter_nil. simpl.
  rewrite !decide_True by done.
  rewrite filter_none; [done|].
  apply Forall_forall. intros p Hp Hid.
  destruct (wf_participant w p Hwf Hp) as [[c Hc] _].
  apply conversationOf_elem_of in Hc as [Hc Hcid].
  apply (wf_conversation w c Hwf) in Hc. lia.
Qed.

Lemma findFirst_directCreated (a b : Z) (t : DateTime) w :
  wf w →
  prisma.findFirst (directBetween (db w) a b) (conversations (db w)) = None →
  prisma.findFirst (directBetween (db (directCreated a b t w)) a b)
                   (conversations (db (directCreated a b t w)))
  = Some (newDirect w t).
Proof.
  intros Hwf Hnone.
  change (conversations (db (directCreated a b t w)))
    with (conversations (db w) ++ [newDirect w t]).
  rewrite findFirst_app.
  rewrite (findFirst_ext _ (directBetween (db w) a b)).
  2:{ intros c Hc. apply (wf_conversation w c Hwf) in Hc.
      unfold directBetween.
      rewrite participantsOf_directCreated_old by lia. done. }
  rewrite Hnone. unfold prisma.findFirst.
  rewrite filter_cons, filter_nil. rewrite decide_True; [done|].
  pose proof (participantsOf_directCreated_new a b t w Hwf) as Hps.
  unfold directBetween. simpl.
  destruct (prisma.participantsOf _ _) as [|pa [|pb [|pc l]]];
    try discriminate Hps.
  injection Hps as Hpa Hpb.
  split; [done|]. split.
  - constructor; [rewrite Hpa, !elem_of_cons; tauto|].
    constructor; [rewrite Hpb, !elem_of_cons; tauto|]. constructor.
  - split; [by left | right; by left].
Qed.

(** The lookup finds nothing: the conversation is inserted. *)
Lemma createDirectConversation_new (a b : Z) (w : World) :
  a ≠ 0 → a ≠ b →
  is_Some (prisma.userOf (db w) a) → is_Some (prisma.userOf (db w) b) →
  prisma.findFirst (directBetween (db w) a b) (conversations (db w)) = None →
  ∃ t d, clock w ≤ t
    ∧ createDirectConversation (Some a) b w
      = (Return (success d None), directCreated a b t w)
    ∧ ConversationBasic.id d = nextConversationId (db w).
Proof.
  intros Ha Hab Hua Hub Hnone.
  destruct (conversation_create_total a b w Hua Hub Hab) as (t & Ht & Hcreate).
  destruct Hub as [tu Htu].
  exists t. eexists. split; [done|].
  unfold createDirectConversation.
  rewrite truthy_Some by done. rewrite decide_False by done.
  split.
  - apply try_catch_run.
    task_run by (eq_refl : prisma.user.findUnique b w = (Return _, w)).
    rewrite Htu.
    task_run by (eq_refl : gets db w = _).
    rewrite Hnone.
    task_run by Hcreate. reflexivity.
  - reflexivity.
Qed.

Lemma userOf_positive w id : wf w → is_Some (prisma.userOf (db w) id) → id ≠ 0.
Proof.
  intros Hwf [u Hu].
  apply (findFirst_Some (λ u, User.id u = id)) in Hu as [Hin <-].
  apply (wf_user w u Hwf) in Hin. lia.
Qed.

(** C2.  For two different users that exist, [createDirectConversation]
    succeeds; when a direct conversation of exactly the two exists, the
    first that the lookup finds is returned and the world is unchanged,
    otherwise one is inserted with its two participants; and a second call
    for the same pair, by either of the two for the other, returns the same
    conversation id and changes nothing. *)
Theorem createDirectConversation_idempotent (a b : Z) (w : World) :
  wf w →
  is_Some (prisma.userOf (db w) a) →
  is_Some (prisma.userOf (db w) b) →
  a ≠ b →
  ∃ d w1,
    createDirectConversation (Some a) b w = (Return (success d None), w1)
    ∧ match prisma.findFirst (directBetween (db w) a b)
                             (conversations (db w)) with
      | Some c => ConversationBasic.id d = Conversation.id c ∧ w1 = w
      | None =>
          ∃ t, clock w ≤ t
               ∧ w1 = directCreated a b t w
               ∧ ConversationBasic.id d = nextConversationId (db w)
      end
    ∧ ∀ x y, (x = a ∧ y = b) ∨ (x = b ∧ y = a) →
        ∃ d', createDirectConversation (Some x) y w1
              = (Return (success d' None), w1)
              ∧ ConversationBasic.id d' = ConversationBasic.id d.
Proof.
  intros Hwf Hua Hub Hab.
  pose proof (userOf_positive w a Hwf Hua) as Ha.
  pose proof (userOf_positive w b Hwf Hub) as Hb.
  destruct (prisma.findFirst (directBetween (db w) a b) (conversations (db w)))
    as [c|] eqn:Hfind.
  - destruct (createDirectConversation_existing a b w c Hwf Ha Hab Hub Hfind)
      as (d & Hrun & Hid).
    exists d, w. split; [done|]. split; [done|].
    intros x y [[-> ->] | [-> ->]].
    + exists d. done.
    + rewrite findFirst_directBetween_sym in Hfind.
      destruct (createDirectConversation_existing b a w c Hwf Hb
                  (not_eq_sym Hab) Hua Hfind) as (d' & Hrun' & Hid').
      exists d'. split; [done | congruence].
  - destruct (createDirectConversation_new a b w Ha Hab Hua Hub Hfind)
      as (t & d & Ht & Hrun & Hid).
    exists d, (directCreated a b t w). split; [done|].
    split; [eauto|].
    pose proof (wf_directCreated a b t w Hwf Hua Hub Ht) as Hwf'.
    pose proof (findFirst_directCreated a b t w Hwf Hfind) as Hfind'.
    intros x y [[-> ->] | [-> ->]].
    + destruct (createDirectConversation_existing a b (directCreated a b t w)
                  (newDirect w t) Hwf' Ha Hab Hub Hfind')
        as (d' & Hrun' & Hid').
      exists d'. split; [done|]. rewrite Hid', Hid. done.
    + rewrite findFirst_directBetween_sym in Hfind'.
      destruct (createDirectConversation_existing b a (directCreated a b t w)
                  (newDirect w t) Hwf' Hb (not_eq_sym Hab) Hua Hfind')
        as (d' & Hrun' & Hid').
      exists d'. split; [done|]. rewrite Hid', Hid. done.
Qed.

Lemma createDirectConversation_idempotent_witness :
  wf Sample.world
  ∧ is_Some (prisma.userOf (db Sample.world) 3)
  ∧ is_Some (prisma.userOf (db Sample.world) 5)
  ∧ 3 ≠ 5
  ∧ ∃ d w1,
      createDirectConversation (Some 3) 5 Sample.world
      = (Return (success d None), w1)
      ∧ ConversationBasic.id d = 2
      ∧ ∃ d', createDirectConversation (Some 5) 3 w1
              = (Return (success d' None), w1)
              ∧ ConversationBasic.id d' = 2.
Proof.
  assert (wf Sample.world) as Hwf
    by (apply (bool_decide_unpack _); vm_compute; reflexivity).
  assert (is_Some (prisma.userOf (db Sample.world) 3)) as H3
    by (vm_compute; eauto).
  assert (is_Some (prisma.userOf (db Sample.world) 5)) as H5
    by (vm_compute; eauto).
  assert (3 ≠ 5) as Hne by discriminate.
  split; [exact Hwf|]. split; [exact H3|]. split; [exact H5|].
  split; [exact Hne|].
  destruct (createDirectConversation_idempotent 3 5 Sample.world Hwf H3 H5 Hne)
    as (d & w1 & Hrun & Hcase & Hagain).
  change (prisma.findFirst (directBetween (db Sample.world) 3 5)
            (conversations (db Sample.world)))
    with (@None Conversation.t) in Hcase.
  destruct Hcase as (t & _ & _ & Hid).
  exists d, w1. split; [exact Hrun|]. split; [exact Hid|].
  destruct (Hagain 5 3) as (d' & Hrun' & Hid'); [by right|].
  exists d'. split; [exact Hrun'|]. by rewrite Hid', Hid.
Defined.

(** ** The list of conversations *)

Lemma newer_first_total : Total prisma.newer_first.
Proof. intros a b. unfold prisma.newer_first. lia. Qed.

Lemma newer_first_trans : Transitive prisma.newer_first.
Proof. intros a b c. unfold prisma.newer_first. lia. Qed.

(** The first row of the descending order is a row of the table, and no row
    is more recent; there is none only when the table has no row. *)
Lemma head_orderByCreatedAtDesc_Some rows m :
  head (prisma.orderByCreatedAtDesc rows) = Some m →
  m ∈ rows ∧ Forall (λ m', Message.createdAt m' ≤ Message.createdAt m) rows.
Proof.
  unfold prisma.orderByCreatedAtDesc. intros Hhead.
  pose proof (@StronglySorted_merge_sort _ prisma.newer_first _
                newer_first_trans newer_first_total rows) as Hsorted.
  pose proof (merge_sort_Permutation prisma.newer_first rows) as Hperm.
  destruct (merge_sort prisma.newer_first rows) as [|x l]; [done|].
  injection Hhead as ->.
  split; [rewrite <- Hperm; left|].
  rewrite <- Hperm. apply StronglySorted_inv in Hsorted as [_ Hall].
  constructor; [lia | exact Hall].
Qed.

Lemma head_orderByCreatedAtDesc_None rows :
  head (prisma.orderByCreatedAtDesc rows) = None → rows = [].
Proof.
  unfold prisma.orderByCreatedAtDesc. intros Hhead%head_None.
  pose proof (merge_sort_Permutation prisma.newer_first rows) as Hperm.
  rewrite Hhead in Hperm. by apply Permutation_nil_l in Hperm.
Qed.

Lemma forEachTask_reads {A B} (f : A → Task B) (g : A → B) (l : list A) w :
  (∀ x, f x w = (Return (g x), w)) →
  forEachTask f l w = (Return (g <$> l), w).
Proof.
  intros Hf. induction l as [|x l IH]; [done|]. simpl.
  task_run by (Hf x). task_run by IH. reflexivity.
Qed.

Lemma findFirst_filter {A} (P Q : A → Prop)
    `{PDec : !∀ x, Decision (P x)} `{QDec : !∀ x, Decision (Q x)} rows :
  prisma.findFirst P (filter Q rows) = prisma.findFirst (λ x, P x ∧ Q x) rows.
Proof.
  unfold prisma.findFirst. f_equal.
  induction rows as [|x rows IH]; [done|].
  rewrite !filter_cons.
  destruct (decide (Q x)), (decide (P x ∧ Q x)) as [[? ?]|Hn];
    rewrite ?filter_cons; try destruct (decide (P x)); try tauto;
    by rewrite IH.
Qed.

Lemma mapM_head {A B} (f : A → option B) (l : list A) (k : list B) :
  mapM f l = Some k → head k = head l ≫= f.
Proof.
  intros H%mapM_Some. destruct H as [|x y l k Hxy _]; [done|].
  simpl. by rewrite Hxy.
Qed.

(** What [getConversations] computes for one conversation of the page. *)
Lemma conversationDetail_annotations (w : World) (userId : Z)
    (rows : list Conversation.t) (c : Conversation.t)
    (det : ConversationDetail.t) :
  c ∈ rows →
  Exists (λ p, ConversationParticipant.userId p = userId)
         (prisma.participantsOf (db w) (Conversation.id c)) →
  conversationDetail (db w) c = Some det →
  ConversationDetail.row det = c
  ∧ (∃ p,
       prisma.findFirst
         (prisma.conversationParticipant.key (Conversation.id c) userId)
         (participants (db w)) = Some p
       ∧ prisma.findFirst
           (λ p, ConversationParticipant.conversationId p = Conversation.id c)
           (filter (λ p, ConversationParticipant.userId p = userId
                         ∧ ConversationParticipant.conversationId p
                             ∈ (Conversation.id <$> rows))
                   (participants (db w)))
         = Some p)
  ∧ match formatLastMessage <$> head (ConversationDetail.messages det) with
    | None => prisma.messagesOf (db w) (Conversation.id c) = []
    | Some lm =>
        ∃ m, m ∈ prisma.messagesOf (db w) (Conversation.id c)
             ∧ LastMessage.id lm = Message.id m
             ∧ LastMessage.content lm = Message.content m
             ∧ LastMessage.createdAt lm = Message.createdAt m
             ∧ LastMessage.senderId lm = Message.senderId m
             ∧ Forall (λ m', Message.createdAt m' ≤ Message.createdAt m)
                      (prisma.messagesOf (db w) (Conversation.id c))
    end.
Proof.
  intros Hc Hpart Hdet. unfold conversationDetail in Hdet.
  destruct (participantsWithUser (db w) (Conversation.id c)) as [ps|];
    [|done].
  destruct (latestMessages (db w) (Conversation.id c)) as [ms|] eqn:Hms;
    [|done].
  injection Hdet as <-. simpl. split; [done|]. split.
  - apply Exists_exists in Hpart as (p0 & Hp0 & Hu0).
    apply participantsOf_elem_of in Hp0 as [Hp0 Hc0].
    destruct (findFirst_is_Some
                (prisma.conversationParticipant.key (Conversation.id c) userId)
                (participants (db w)) p0 Hp0) as [p Hp]; [done|].
    exists p. split; [done|].
    rewrite findFirst_filter. rewrite <- Hp. apply findFirst_ext.
    intros q _. unfold prisma.conversationParticipant.key.
    split; [tauto|]. intros [Hq1 Hq2]. split; [done|]. split; [done|].
    rewrite Hq1. apply list_elem_of_fmap. eauto.
  - unfold latestMessages in Hms. apply mapM_Some in Hms.
    destruct (prisma.orderByCreatedAtDesc
                (prisma.messagesOf (db w) (Conversation.id c)))
      as [|m l] eqn:Hsorted.
    + apply Forall2_nil_inv_l in Hms as ->. simpl.
      apply head_orderByCreatedAtDesc_None. by rewrite Hsorted.
    + simpl in Hms. rewrite take_0 in Hms.
      apply Forall2_cons_inv_l in Hms as (y & k & Hy & Hk & ->).
      simpl. destruct (senderOf (db w) m) as [u|]; [|done].
      injection Hy as <-. simpl.
      destruct (head_orderByCreatedAtDesc_Some
                  (prisma.messagesOf (db w) (Conversation.id c)) m)
        as [Hin Hmax]; [by rewrite Hsorted|].
      exists m. done.
Qed.

(** C4, as the code has it.  Each conversation in a page of
    [getConversations] carries as its last message the most recent message
    of the conversation, deleted or not (none when the conversation has no
    message), and as its unread count the number of messages of the
    conversation that are dated after the [lastReadAt] of the caller's
    participant row and that the caller did not send. *)
Theorem getConversations_annotations
    (user : option Z) (query : PageQuery.t)
    (page : Page.t ConversationBasic.t) (msg : option string) (w w' : World) :
  getConversations user query w = (Return (success page msg), w') →
  ∃ userId,
    truthy user = Some userId
    ∧ w' = w
    ∧ Forall
        (λ e,
           ∃ p,
             prisma.findFirst
               (prisma.conversationParticipant.key (ConversationBasic.id e)
                                                   userId)
               (participants (db w)) = Some p
             ∧ ConversationBasic.unreadCount e
               = Z.of_nat
                   (length
                      (filter (unread (ConversationBasic.id e) userId
                                 (ConversationParticipant.lastReadAt p))
                              (messages (db w))))
             ∧ match ConversationBasic.lastMessage e with
               | None =>
                   prisma.messagesOf (db w) (ConversationBasic.id e) = []
               | Some lm =>
                   ∃ m, m ∈ prisma.messagesOf (db w) (ConversationBasic.id e)
                        ∧ LastMessage.id lm = Message.id m
                        ∧ LastMessage.content lm = Message.content m
                        ∧ LastMessage.createdAt lm = Message.createdAt m
                        ∧ LastMessage.senderId lm = Message.senderId m
                        ∧ Forall (λ m', Message.createdAt m'
                                        ≤ Message.createdAt m)
                                 (prisma.messagesOf (db w)
                                    (ConversationBasic.id e))
               end)
        (Page.items page).
Proof.
  intros H. unfold getConversations in H.
  destruct (truthy user) as [userId|] eqn:Euser; [|done].
  apply try_catch_Return_inv in H; [|done].
  task_bind H as d w1 Hd. task_read Hd.
  task_bind H as rows w1 Hrows. apply paginate_inv in Hrows as (_ & Hrows & ->).
  task_bind H as dets w1 Hdets. task_read Hdets.
  task_bind H as total w1 Htotal. task_read Htotal.
  task_bind H as ucp w1 Hucp. task_read Hucp.
  task_bind H as items w1 Hitems.
  erewrite forEachTask_reads in Hitems; [|intros det; reflexivity].
  injection Hitems as <- <-.
  task_ret H. injection H as -> _.
  exists userId. split; [done|]. split; [done|]. simpl.
  assert (Forall (λ c, Exists (λ p, ConversationParticipant.userId p = userId)
                         (prisma.participantsOf (db w) (Conversation.id c)))
                 rows) as Hmember.
  { apply Forall_forall. intros c Hc. rewrite Hrows in Hc.
    apply (subseteq_take _ _ c) in Hc.
    apply (subseteq_drop _ _ c) in Hc.
    unfold prisma.orderByLastMessageAtDesc in Hc.
    rewrite merge_sort_Permutation in Hc.
    by apply list_elem_of_filter in Hc as [Hc _]. }
  clear Hrows. apply mapM_Some in Hdets.
  apply Forall_fmap, Forall_forall. intros det Hdet.
  apply list_elem_of_lookup in Hdet as [i Hi].
  destruct (Forall2_lookup_r _ _ _ _ _ Hdets Hi) as (c & Hci & Hdetail).
  assert (c ∈ rows) as Hc by (apply list_elem_of_lookup; eauto).
  rewrite Forall_forall in Hmember.
  destruct (conversationDetail_annotations w userId rows c det Hc
              (Hmember c Hc) Hdetail) as (Hrow & (p & Hp & Hfind) & Hlast).
  simpl. rewrite Hrow. exists p. split; [done|].
  rewrite Hfind. simpl. split; [done|]. exact Hlast.
Qed.

Lemma getConversations_annotations_witness :
  ∃ page msg w',
    getConversations (Some 4) (PageQuery.mk None None None) Sample.world
    = (Return (success page msg), w')
    ∧ ConversationBasic.unreadCount <$> Page.items page = [1]
    ∧ Forall
        (λ e, ∃ p,
           prisma.findFirst
             (prisma.conversationParticipant.key (ConversationBasic.id e) 4)
             (participants (db Sample.world)) = Some p
           ∧ ConversationBasic.unreadCount e
             = Z.of_nat
                 (length
                    (filter (unread (ConversationBasic.id e) 4
                               (ConversationParticipant.lastReadAt p))
                            (messages (db Sample.world)))))
        (Page.items page).
Proof.
  eexists _, _, _. split; [vm_compute; reflexivity|].
  split; [vm_compute; reflexivity|].
  destruct (getConversations_annotations (Some 4)
              (PageQuery.mk None None None) _ _ Sample.world _ eq_refl)
    as (userId & Hu & _ & Hitems).
  injection Hu as <-.
  eapply Forall_impl; [exact Hitems|].
  intros e (p & Hp & Hcount & _). exists p. done.
Defined.

(** C4, as the spec has it, fails on a conversation whose most recent
    message is deleted: alice's page shows message 2, which she deleted,
    as the last message of conversation 1, while the most recent message
    that is not deleted is message 1. *)
Lemma getConversations_last_message_deleted :
  ∃ page,
    getConversations (Some 3) (PageQuery.mk None None None) Sample.world
    = (Return (success page None), Sample.world)
    ∧ (λ e, LastMessage.id <$> ConversationBasic.lastMessage e)
        <$> Page.items page
      = [Some 2]
    ∧ Message.id Sample.message2 = 2
    ∧ Message.deletedAt Sample.message2 = Some 400
    ∧ head (prisma.orderByCreatedAtDesc
              (filter (λ m, Message.deletedAt m = None)
                      (prisma.messagesOf (db Sample.world) 1)))
      = Some Sample.message1
    ∧ Message.id Sample.message1 = 1.
Proof.
  eexists. split; [vm_compute; reflexivity|].
  split; [vm_compute; reflexivity|].
  split; [reflexivity|]. split; [reflexivity|].
  split; [vm_compute; reflexivity | reflexivity].
Qed.

(** ** The integrity of the tables is an invariant *)

Lemma wf_initial : wf initial.
Proof. unfold wf, initial. simpl. repeat split; done || constructor. Qed.

Section Preserves.
Context {A B : Type}.

Lemma preserves_ret (a : A) : preserves (mret a).
Proof. intros w r w' Hwf [= <- <-]. done. Qed.

Lemma preserves_throw (e : PrismaError) : preserves (throw e : Task A).
Proof. intros w r w' Hwf [= <- <-]. done. Qed.

Lemma preserves_gets (f : World → A) : preserves (gets f).
Proof. intros w r w' Hwf [= <- <-]. done. Qed.

Lemma preserves_required (x : option A) : preserves (prisma.required x).
Proof. destruct x; [apply preserves_ret | apply preserves_throw]. Qed.

Lemma preserves_bind (c : Task A) (f : A → Task B) :
  preserves c → (∀ a, preserves (f a)) → preserves (c ≫= f).
Proof.
  intros Hc Hf w r w' Hwf H.
  apply bind_inv in H as [(a & w1 & H1 & H2) | (e & H1 & _)].
  - eapply Hf; [|exact H2]. eapply Hc; [exact Hwf | exact H1].
  - eapply Hc; [exact Hwf | exact H1].
Qed.

Lemma preserves_try_catch (body : Task A) (h : A) :
  preserves body → preserves (try_catch body h).
Proof.
  intros Hb w r w' Hwf H.
  apply try_catch_inv in H as [(a & H & _) | (e & H & _)];
    eapply Hb; eauto.
Qed.

End Preserves.

Lemma preserves_paginate {A} (skip take_ : Z) (rows : list A) :
  preserves (prisma.paginate skip take_ rows).
Proof.
  unfold prisma.paginate.
  destruct (decide (skip < 0)); [apply preserves_throw | apply preserves_ret].
Qed.

Lemma preserves_forEachTask {A B} (f : A → Task B) (l : list A) :
  (∀ x, preserves (f x)) → preserves (forEachTask f l).
Proof.
  intros Hf. induction l as [|x l IH]; simpl; [apply preserves_ret|].
  apply preserves_bind; [done|]. intros y.
  apply preserves_bind; [done|]. intros ys. apply preserves_ret.
Qed.

Lemma preserves_now : preserves now.
Proof.
  intros w r w' Hwf H. apply now_inv in H as (t & _ & Ht & ->).
  by apply wf_later.
Qed.

Lemma preserves_dispatch (f : World → World) :
  (∀ w, db (f w) = db w ∧ clock (f w) = clock w) → preserves (modify f).
Proof.
  intros Hf w r w' Hwf [= <- <-]. unfold wf.
  destruct (Hf w) as [-> ->]. exact Hwf.
Qed.

Lemma preserves_broadcastToUsers userIds message :
  preserves (modify (broadcastToUsers userIds message)).
Proof.
  apply preserves_dispatch. intros w. split; [apply broadcastToUsers_db|].
  by destruct (broadcastToUsers_clock message userIds w).
Qed.

Lemma preserves_broadcastToUser userId message :
  preserves (modify (broadcastToUser userId message)).
Proof.
  apply preserves_dispatch. intros w. split; [apply deliver_db|].
  by destruct (deliver_clock message w userId).
Qed.

Lemma preserves_message_create data st :
  preserves (prisma.message.create data st).
Proof.
  intros w r w' Hwf H. unfold prisma.message.create in H.
  apply bind_inv in H as [(d & w1 & Hd & H) | (e & Hd & _)];
    [|discriminate Hd].
  apply gets_inv in Hd as [-> ->].
  destruct (decide (prisma.message.references_ok (db w) data))
    as [(Hc & Hs & _)|]; [|by injection H as _ <-].
  apply bind_inv in H as [(t & w1 & Hnow & H) | (e & Hnow & _)];
    [|by apply now_inv in Hnow as (? & ? & _)].
  apply now_inv in Hnow as (t' & [= ->] & Ht & ->).
  apply bind_inv in H as [(u & w1 & Hm & H) | (e & Hm & _)];
    [|discriminate Hm].
  apply modify_inv in Hm as ->. injection H as _ <-.
  destruct Hwf as ([Hn1 Hn2] & Hu & Hcs & Hp & Hm).
  unfold wf, prisma.conversationOf, prisma.userOf in *. simpl.
  split; [split; lia|]. split; [done|]. split; [done|]. split; [done|].
  apply Forall_app. split.
  - eapply Forall_impl; [exact Hm|]. simpl. intros m (? & ? & ? & ?).
    split; [lia|]. split; [done|]. split; [done|]. lia.
  - constructor; [|constructor]. simpl.
    split; [lia|]. split; [done|]. split; [done|]. lia.
Qed.

Lemma wf_update_conversations w id f t tk conns tr :
  wf w → clock w ≤ t →
  (∀ c, Conversation.id (f c) = Conversation.id c) →
  wf (mkWorld
        (with_conversations
           (prisma.updateWhere (λ c, Conversation.id c = id) f
                               (conversations (db w)))
           (db w))
        t tk conns tr).
Proof.
  intros Hwf Ht Hf. pose proof Hwf as (Hn & Hu & Hc & Hp & Hm).
  assert (∀ x, is_Some (prisma.conversationOf (db w) x) →
               is_Some (prisma.findFirst (λ c, Conversation.id c = x)
                          (prisma.updateWhere (λ c, Conversation.id c = id) f
                             (conversations (db w))))) as Hkeep.
  { intros x [c Hx]. rewrite findFirst_updateWhere by (intros c'; by rewrite Hf).
    unfold prisma.conversationOf in Hx. rewrite Hx. simpl. eauto. }
  unfold wf, prisma.conversationOf, prisma.userOf in *. simpl.
  split; [done|]. split; [done|]. split.
  { apply Forall_forall. intros c' (c & Hin & ->)%elem_of_updateWhere.
    rewrite Forall_forall in Hc. specialize (Hc c Hin). simpl in Hc.
    destruct (decide (Conversation.id c = id)); [rewrite Hf|]; done. }
  split.
  { eapply Forall_impl; [exact Hp|]. simpl. intros p [? ?].
    split; [by apply Hkeep | done]. }
  eapply Forall_impl; [exact Hm|]. simpl. intros m (? & ? & ? & ?).
  split; [done|]. split; [by apply Hkeep|]. split; [done|]. lia.
Qed.

Lemma preserves_conversation_update id lastMessageAt :
  preserves (prisma.conversation.update id lastMessageAt).
Proof.
  intros w r w' Hwf H. unfold prisma.conversation.update in H.
  apply bind_inv in H as [(found & w1 & Hf & H) | (e & Hf & _)];
    [|discriminate Hf].
  apply gets_inv in Hf as [-> ->].
  destruct (prisma.conversationOf (db w) id) as [c|];
    [|by injection H as _ <-].
  apply bind_inv in H as [(t & w1 & Hnow & H) | (e & Hnow & _)];
    [|by apply now_inv in Hnow as (? & ? & _)].
  apply now_inv in Hnow as (t' & [= ->] & Ht & ->).
  injection H as _ <-. unfold log, with_db. simpl.
  by apply wf_update_conversations.
Qed.

Lemma preserves_participant_update conversationId userId lastReadAt :
  preserves (prisma.conversationParticipant.update conversationId userId
                                                   lastReadAt).
Proof.
  intros w r w' Hwf H. unfold prisma.conversationParticipant.update in H.
  apply bind_inv in H as [(found & w1 & Hf & H) | (e & Hf & _)];
    [|discriminate Hf].
  apply gets_inv in Hf as [-> ->].
  destruct (prisma.findFirst _ (participants (db w))) as [p|];
    [|by injection H as _ <-].
  injection H as _ <-.
  destruct Hwf as (Hn & Hu & Hc & Hp & Hm).
  unfold wf, prisma.conversationOf, prisma.userOf in *. simpl.
  split; [done|]. split; [done|]. split; [done|]. split; [|done].
  apply Forall_forall. intros p' (q & Hin & ->)%elem_of_updateWhere.
  rewrite Forall_forall in Hp. specialize (Hp q Hin). simpl in Hp.
  by destruct (decide _).
Qed.

Lemma preserves_updateMany P `{PDec : !∀ m, Decision (P m)} conversationId st :
  preserves (prisma.message.updateMany P conversationId st).
Proof.
  intros w r w' Hwf H. apply updateMany_inv in H as (_ & t & Ht & ->).
  by apply wf_update_messages.
Qed.

Lemma preserves_update_deleted id deletedAt :
  preserves (prisma.message.update_deleted id deletedAt).
Proof.
  intros w r w' Hwf H. unfold prisma.message.update_deleted in H.
  apply bind_inv in H as [(found & w1 & Hf & H) | (e & Hf & _)];
    [|discriminate Hf].
  apply gets_inv in Hf as [-> ->].
  destruct (prisma.messageOf (db w) id) as [m|]; [|by injection H as _ <-].
  apply bind_inv in H as [(t & w1 & Hnow & H) | (e & Hnow & _)];
    [|by apply now_inv in Hnow as (? & ? & _)].
  apply now_inv in Hnow as (t' & [= ->] & Ht & ->).
  injection H as _ <-. unfold log, with_db. simpl.
  by apply wf_update_messages.
Qed.

Lemma preserves_conversation_create type userIds :
  preserves (prisma.conversation.create type userIds).
Proof.
  intros w r w' Hwf H. unfold prisma.conversation.create in H.
  apply bind_inv in H as [(d & w1 & Hd & H) | (e & Hd & _)];
    [|discriminate Hd].
  apply gets_inv in Hd as [-> ->].
  destruct (decide (Forall _ userIds)) as [Husers|]; [|by injection H as _ <-].
  destruct (decide (NoDup userIds)); [|by injection H as _ <-].
  apply bind_inv in H as [(t & w1 & Hnow & H) | (e & Hnow & _)];
    [|by apply now_inv in Hnow as (? & ? & _)].
  apply now_inv in Hnow as (t' & [= ->] & Ht & ->).
  apply bind_inv in H as [(u & w1 & Hm & H) | (e & Hm & _)];
    [|discriminate Hm].
  apply modify_inv in Hm as ->. injection H as _ <-.
  destruct Hwf as ([Hn1 Hn2] & Hu & Hc & Hp & Hm).
  unfold wf, prisma.conversationOf, prisma.userOf in *. simpl.
  split; [split; lia|]. split; [done|]. split.
  { apply Forall_app. split.
    - eapply Forall_impl; [exact Hc|]. simpl. intros c ?. lia.
    - constructor; [simpl; lia | constructor]. }
  split.
  { apply Forall_app. split.
    - eapply Forall_impl; [exact Hp|]. simpl. intros p [[c Hpc] ?].
      split; [|done]. rewrite findFirst_app, Hpc. eauto.
    - apply Forall_forall. intros p (i & x & -> & Hi)%elem_of_lookup_imap.
      simpl. split.
      + rewrite findFirst_app.
        destruct (prisma.findFirst _ (conversations (db w))); [eauto|].
        unfold prisma.findFirst. rewrite filter_cons, filter_nil.
        rewrite decide_True by done. simpl. eauto.
      + rewrite Forall_forall in Husers. apply Husers.
        apply list_elem_of_lookup. eauto. }
  eapply Forall_impl; [exact Hm|]. simpl. intros m (? & [c Hmc] & ? & ?).
  split; [done|]. split; [rewrite findFirst_app, Hmc; eauto|].
  split; [done|]. lia.
Qed.

(** A task built from the steps above keeps the integrity. *)
Ltac preserve_step :=
  lazymatch goal with
  | |- preserves (_ ≫= _) => apply preserves_bind; [|intros ?]
  | |- preserves (try_catch _ _) => apply preserves_try_catch
  | |- preserves (mret _) => apply preserves_ret
  | |- preserves (throw _) => apply preserves_throw
  | |- preserves (gets _) => apply preserves_gets
  | |- preserves (prisma.required _) => apply preserves_required
  | |- preserves (prisma.paginate _ _ _) => apply preserves_paginate
  | |- preserves now => apply preserves_now
  | |- preserves (modify (broadcastToUsers _ _)) =>
      apply preserves_broadcastToUsers
  | |- preserves (modify (broadcastToUser _ _)) =>
      apply preserves_broadcastToUser
  | |- preserves (prisma.message.create _ _) => apply preserves_message_create
  | |- preserves (prisma.message.updateMany _ _ _) => apply preserves_updateMany
  | |- preserves (prisma.message.update_deleted _ _) =>
      apply preserves_update_deleted
  | |- preserves (prisma.conversation.update _ _) =>
      apply preserves_conversation_update
  | |- preserves (prisma.conversation.create _ _) =>
      apply preserves_conversation_create
  | |- preserves (prisma.conversationParticipant.update _ _ _) =>
      apply preserves_participant_update
  | |- preserves (forEachTask _ _) => apply preserves_forEachTask; intros ?
  | |- preserves (match ?x with _ => _ end) => destruct x
  | |- preserves (let _ := _ in _) => cbv zeta
  end.

Ltac preserve_handler :=
  unfold formatConversation, prisma.user.findUnique,
    prisma.conversation.findUnique, prisma.conversation.findUnique_participants,
    prisma.message.findUnique, prisma.message.count,
    prisma.conversationParticipant.findUnique,
    prisma.conversationParticipant.findMany,
    prisma.conversationParticipant.count;
  repeat preserve_step.

(** Every handler keeps the integrity of the tables, whatever it replies;
    with [wf_initial] it holds in every world that the handlers reach. *)
Theorem handlers_preserve_integrity :
  (∀ user body, preserves (sendMessage user body))
  ∧ (∀ user body, preserves (readMessages user body))
  ∧ (∀ user id, preserves (deleteMessage user id))
  ∧ (∀ user body, preserves (initiateCall user body))
  ∧ (∀ user conversationId query,
       preserves (getMessages user conversationId query))
  ∧ (∀ user query, preserves (getConversations user query))
  ∧ (∀ user targetUserId,
       preserves (createDirectConversation user targetUserId)).
Proof.
  repeat apply conj; intros.
  - unfold sendMessage. preserve_handler.
  - unfold readMessages. preserve_handler.
  - unfold deleteMessage. preserve_handler.
  - unfold initiateCall. preserve_handler.
  - unfold getMessages. preserve_handler.
  - unfold getConversations. preserve_handler.
  - unfold createDirectConversation. preserve_handler.
Qed.

(** * More of the code *)

(** ** The registry: [addConnection], [removeConnection] *)

Lemma with_connections_id (w : World) (m : gmap Z (list WebSocket.t)) :
  m = connections w → with_connections m w = w.
Proof. intros ->. by destruct w. Qed.

Lemma set_add_new (ws : WebSocket.t) (l : list WebSocket.t) :
  Forall (λ x, WebSocket.wsId x ≠ WebSocket.wsId ws) l →
  set_add ws l = l ++ [ws].
Proof.
  intros Hl. unfold set_add. rewrite decide_False; [done|].
  intros (x & Hx & Hid)%Exists_exists. rewrite Forall_forall in Hl.
  by apply (Hl x Hx).
Qed.

Lemma set_add_old (ws : WebSocket.t) (l : list WebSocket.t) :
  Exists (λ x, WebSocket.wsId x = WebSocket.wsId ws) l → set_add ws l = l.
Proof. intros Hl. unfold set_add. by rewrite decide_True. Qed.

Lemma set_add_ids (ws : WebSocket.t) (l : list WebSocket.t) :
  WebSocket.wsId ws ∈ WebSocket.wsId <$> set_add ws l.
Proof.
  unfold set_add. destruct (decide _) as [He|_].
  - apply Exists_exists in He as (x & Hx & <-). apply list_elem_of_fmap. eauto.
  - rewrite fmap_app. apply elem_of_app. right. simpl. left.
Qed.

Lemma set_add_NoDup (ws : WebSocket.t) (l : list WebSocket.t) :
  NoDup (WebSocket.wsId <$> l) → NoDup (WebSocket.wsId <$> set_add ws l).
Proof.
  intros Hl. unfold set_add. destruct (decide _) as [_|Hn]; [done|].
  rewrite fmap_app. apply NoDup_app. split; [done|]. split.
  - intros i (x & -> & Hx)%list_elem_of_fmap Hi. simpl in Hi.
    apply list_elem_of_singleton in Hi.
    apply Hn, Exists_exists. eauto.
  - simpl. apply NoDup_singleton.
Qed.

Lemma set_add_nonempty (ws : WebSocket.t) (l : list WebSocket.t) :
  set_add ws l ≠ [].
Proof.
  unfold set_add. destruct (decide _) as [He|_].
  - intros ->. inversion He.
  - by destruct l.
Qed.

Lemma NoDup_fmap_filter {A B} (f : A → B) (P : A → Prop)
    `{PDec : !∀ x, Decision (P x)} (l : list A) :
  NoDup (f <$> l) → NoDup (f <$> filter P l).
Proof.
  induction l as [|x l IH]; [done|].
  rewrite fmap_cons, filter_cons. intros [Hx Hl]%NoDup_cons.
  destruct (decide (P x)); [|by apply IH].
  rewrite fmap_cons. apply NoDup_cons. split; [|by apply IH].
  intros (y & Hy & Hin)%list_elem_of_fmap.
  apply list_elem_of_filter in Hin as [_ Hin].
  apply Hx, list_elem_of_fmap. eauto.
Qed.

(** The entry of the user after [addConnection]. *)
Lemma addConnection_lookup (w : World) (userId : Z) (ws : WebSocket.t) :
  connections (addConnection userId ws w) !! userId
  = Some (set_add ws (default [] (connections w !! userId))).
Proof.
  unfold addConnection. simpl.
  destruct (connections w !! userId) as [l|] eqn:E; simpl.
  - by rewrite lookup_alter_eq, E.
  - by rewrite lookup_alter_eq, lookup_insert_eq.
Qed.

Lemma addConnection_lookup_ne (w : World) (u v : Z) (ws : WebSocket.t) :
  u ≠ v →
  connections (addConnection u ws w) !! v = connections w !! v.
Proof.
  intros Hne. unfold addConnection. simpl.
  destruct (connections w !! u); simpl.
  - by rewrite lookup_alter_ne.
  - by rewrite lookup_alter_ne, lookup_insert_ne.
Qed.

(** The entry of the user after [removeConnection]. *)
Lemma removeConnection_lookup (w : World) (userId : Z) (ws : WebSocket.t) :
  connections (removeConnection userId ws w) !! userId
  = match connections w !! userId with
    | Some l =>
        let rest := filter (λ x, WebSocket.wsId x ≠ WebSocket.wsId ws) l in
        if decide (rest = []) then None else Some rest
    | None => None
    end.
Proof.
  unfold removeConnection.
  destruct (connections w !! userId) as [l|] eqn:E; [|done]. simpl.
  destruct (filter _ l) as [|x rest] eqn:Ef; simpl.
  - by rewrite lookup_delete_eq.
  - by rewrite lookup_insert_eq.
Qed.

Lemma removeConnection_lookup_ne (w : World) (u v : Z) (ws : WebSocket.t) :
  u ≠ v →
  connections (removeConnection u ws w) !! v = connections w !! v.
Proof.
  intros Hne. unfold removeConnection.
  destruct (connections w !! u) as [l|]; [|done].
  destruct (decide _); simpl.
  - by rewrite lookup_delete_ne.
  - by rewrite lookup_insert_ne.
Qed.

Lemma forEach_send_ids (message : ServerEvent) (l : list WebSocket.t) :
  WebSocket.wsId <$> forEach_send message l = WebSocket.wsId <$> l.
Proof.
  unfold forEach_send. rewrite <- list_fmap_compose.
  apply list_fmap_ext. intros i ws _. simpl. by destruct (decide _).
Qed.

Lemma registry_ok_deliver (message : ServerEvent) (w : World) (v : Z) :
  registry_ok w → registry_ok (deliver message w v).
Proof.
  unfold registry_ok, deliver. intros Hok.
  destruct (connections w !! v) as [l|] eqn:E; [|done]. simpl.
  apply map_Forall_insert_2; [|done].
  destruct (Hok v l E) as [Hne Hnd]. split.
  - unfold forEach_send. by destruct l.
  - by rewrite forEach_send_ids.
Qed.

Lemma registry_ok_addConnection (w : World) (userId : Z) (ws : WebSocket.t) :
  registry_ok w → registry_ok (addConnection userId ws w).
Proof.
  intros Hok v l Hv. destruct (decide (v = userId)) as [->|Hne].
  - rewrite addConnection_lookup in Hv. injection Hv as <-.
    split; [apply set_add_nonempty|]. apply set_add_NoDup.
    destruct (connections w !! userId) as [l|] eqn:E; simpl.
    + by destruct (Hok userId l E).
    + apply NoDup_nil. done.
  - rewrite addConnection_lookup_ne in Hv by done. by apply (Hok v).
Qed.

Lemma registry_ok_removeConnection (w : World) (userId : Z)
    (ws : WebSocket.t) :
  registry_ok w → registry_ok (removeConnection userId ws w).
Proof.
  intros Hok v l Hv. destruct (decide (v = userId)) as [->|Hne].
  - rewrite removeConnection_lookup in Hv.
    destruct (connections w !! userId) as [l0|] eqn:E; [|done].
    simpl in Hv. destruct (decide _) as [|Hrest]; [done|].
    injection Hv as <-. split; [done|].
    destruct (Hok userId l0 E) as [_ Hnd]. by apply NoDup_fmap_filter.
  - rewrite removeConnection_lookup_ne in Hv by done. by apply (Hok v).
Qed.

(** X1.  The registry keeps its sets non-empty and without a socket twice:
    this holds when the server starts and after every [addConnection],
    [removeConnection] and dispatch. *)
Theorem registry_ok_kept
    (w : World) (userId : Z) (ws : WebSocket.t) (userIds : list Z)
    (message : ServerEvent) :
  registry_ok w →
  registry_ok initial
  ∧ registry_ok (addConnection userId ws w)
  ∧ registry_ok (removeConnection userId ws w)
  ∧ registry_ok (broadcastToUser userId message w)
  ∧ registry_ok (broadcastToUsers userIds message w).
Proof.
  intros Hok. split; [apply map_Forall_empty|].
  split; [by apply registry_ok_addConnection|].
  split; [by apply registry_ok_removeConnection|].
  split; [by apply registry_ok_deliver|].
  unfold broadcastToUsers. revert w Hok.
  induction userIds as [|v l IH]; intros w Hok; [done|]. simpl.
  apply IH. by apply registry_ok_deliver.
Qed.

Lemma registry_ok_kept_witness :
  registry_ok Sample.world
  ∧ registry_ok (removeConnection 4 Sample.socket7 Sample.world)
  ∧ registry_ok (addConnection 3 Sample.socket7 Sample.world).
Proof.
  assert (registry_ok Sample.world) as Hok
    by (apply (bool_decide_unpack _); vm_compute; reflexivity).
  split; [exact Hok|].
  destruct (registry_ok_kept Sample.world 4 Sample.socket7 []
              (message_deleted 0 0 0) Hok) as (_ & _ & Hremove & _).
  destruct (registry_ok_kept Sample.world 3 Sample.socket7 []
              (message_deleted 0 0 0) Hok) as (_ & Hadd & _).
  split; [exact Hremove | exact Hadd].
Defined.

Lemma filter_all {A} (P : A → Prop) `{PDec : !∀ x, Decision (P x)}
    (l : list A) :
  Forall P l → filter P l = l.
Proof.
  induction 1 as [|x l Hx _ IH]; [done|].
  by rewrite filter_cons_True, IH.
Qed.

Lemma world_connections_eq (w w' : World) :
  db w' = db w → clock w' = clock w → ticks w' = ticks w →
  trace w' = trace w → connections w' = connections w → w' = w.
Proof. destruct w, w'. simpl. by intros -> -> -> -> ->. Qed.

(** X2.  Registering a socket that the user does not have and removing it
    again gives back the registry as it was, whether the user had other
    sockets or none. *)
Theorem removeConnection_addConnection
    (w : World) (userId : Z) (ws : WebSocket.t) :
  registry_ok w →
  Forall (λ x, WebSocket.wsId x ≠ WebSocket.wsId ws)
         (default [] (connections w !! userId)) →
  removeConnection userId ws (addConnection userId ws w) = w.
Proof.
  intros Hok Hnew.
  apply world_connections_eq;
    try (unfold removeConnection;
         destruct (connections (addConnection userId ws w) !! userId);
         [destruct (decide _)|]; reflexivity).
  apply map_eq. intros v. destruct (decide (v = userId)) as [->|Hne].
  - rewrite removeConnection_lookup, addConnection_lookup.
    rewrite set_add_new by done. simpl.
    rewrite filter_app, filter_all by done.
    rewrite filter_cons_False, filter_nil by (intros Hx; by apply Hx).
    rewrite app_nil_r.
    destruct (connections w !! userId) as [l|] eqn:E; simpl.
    + destruct (Hok userId l E) as [Hl _]. by destruct l.
    + done.
  - rewrite removeConnection_lookup_ne, addConnection_lookup_ne by done. done.
Qed.

Lemma removeConnection_addConnection_witness :
  registry_ok Sample.world
  ∧ removeConnection 3 Sample.socket7 (addConnection 3 Sample.socket7 Sample.world)
    = Sample.world
  ∧ connections (addConnection 3 Sample.socket7 Sample.world) !! 3
    = Some [Sample.socket7].
Proof.
  assert (registry_ok Sample.world) as Hok
    by (apply (bool_decide_unpack _); vm_compute; reflexivity).
  split; [exact Hok|]. split; [|vm_compute; reflexivity].
  apply (removeConnection_addConnection Sample.world 3 Sample.socket7 Hok).
  vm_compute. constructor.
Defined.

(** X3.  [removeConnection] deletes the key of the user exactly when the
    socket removed was the only socket of the user; this is the test
    ([connections.has(userId)]) on which the close handler marks the user
    offline.  Otherwise the user keeps the other sockets, in their order. *)
Theorem removeConnection_last
    (w : World) (userId : Z) (ws : WebSocket.t) (l : list WebSocket.t) :
  registry_ok w →
  connections w !! userId = Some l →
  (connections (removeConnection userId ws w) !! userId = None
   ↔ WebSocket.wsId <$> l = [WebSocket.wsId ws])
  ∧ (WebSocket.wsId <$> l ≠ [WebSocket.wsId ws] →
     connections (removeConnection userId ws w) !! userId
     = Some (filter (λ x, WebSocket.wsId x ≠ WebSocket.wsId ws) l)).
Proof.
  intros Hok Hl. destruct (Hok userId l Hl) as [Hne Hnd].
  rewrite removeConnection_lookup, Hl. simpl.
  assert (filter (λ x, WebSocket.wsId x ≠ WebSocket.wsId ws) l = []
          ↔ WebSocket.wsId <$> l = [WebSocket.wsId ws]) as Hiff.
  { split.
    - intros Hf. destruct l as [|x [|y l]]; [done| |].
      + rewrite filter_cons, filter_nil in Hf.
        destruct (decide (WebSocket.wsId x ≠ WebSocket.wsId ws)) as [|Hx];
          [done|].
        simpl. f_equal. by destruct (decide (WebSocket.wsId x = WebSocket.wsId ws)).
      + exfalso. rewrite !filter_cons in Hf.
        destruct (decide (WebSocket.wsId x ≠ WebSocket.wsId ws)) as [|Hx];
          [done|].
        destruct (decide (WebSocket.wsId y ≠ WebSocket.wsId ws)) as [|Hy];
          [done|].
        simpl in Hnd. apply NoDup_cons in Hnd as [Hxy _].
        apply Hxy.
        replace (WebSocket.wsId x) with (WebSocket.wsId y); [left|].
        destruct (decide (WebSocket.wsId x = WebSocket.wsId ws));
          destruct (decide (WebSocket.wsId y = WebSocket.wsId ws));
          try tauto; congruence.
    - intros Hids. destruct l as [|x [|y l]]; try discriminate Hids.
      injection Hids as Hx. rewrite filter_cons, filter_nil.
      by rewrite decide_False by (intros H; by apply H). }
  split.
  - destruct (decide _) as [He|He]; [tauto|].
    split; [done|]. intros Hids. by apply Hiff in Hids.
  - intros Hids. rewrite decide_False; [done|]. by rewrite Hiff.
Qed.

Lemma removeConnection_last_witness :
  registry_ok Sample.world
  ∧ connections Sample.world !! 4 = Some [Sample.socket7; Sample.socket8]
  ∧ connections (removeConnection 4 Sample.socket7 Sample.world) !! 4
    = Some [Sample.socket8]
  ∧ connections (removeConnection 4 Sample.socket8
                   (removeConnection 4 Sample.socket7 Sample.world)) !! 4
    = None.
Proof.
  assert (registry_ok Sample.world) as Hok
    by (apply (bool_decide_unpack _); vm_compute; reflexivity).
  split; [exact Hok|]. split; [reflexivity|].
  destruct (removeConnection_last Sample.world 4 Sample.socket7
              [Sample.socket7; Sample.socket8] Hok eq_refl) as [_ Hrest].
  split; [apply Hrest; discriminate|].
  vm_compute. reflexivity.
Defined.

(** X4.  [addConnection] follows [Set.add]: after it the socket is one of
    the sockets of the user, adding it a second time changes nothing, and
    the sets of the other users are not touched. *)
Theorem addConnection_set (w : World) (userId : Z) (ws : WebSocket.t) :
  (∃ l, connections (addConnection userId ws w) !! userId = Some l
        ∧ WebSocket.wsId ws ∈ WebSocket.wsId <$> l)
  ∧ addConnection userId ws (addConnection userId ws w)
    = addConnection userId ws w
  ∧ ∀ other, other ≠ userId →
      connections (addConnection userId ws w) !! other
      = connections w !! other.
Proof.
  split; [|split].
  - eexists. split; [apply addConnection_lookup | apply set_add_ids].
  - apply world_connections_eq; try reflexivity.
    apply map_eq. intros v. destruct (decide (v = userId)) as [->|Hne].
    + rewrite !addConnection_lookup. simpl. f_equal.
      apply set_add_old.
      pose proof (set_add_ids ws (default [] (connections w !! userId))) as Hin.
      apply list_elem_of_fmap in Hin as (x & Hx & Hin).
      apply Exists_exists. eauto.
    + by rewrite addConnection_lookup_ne.
  - intros other Hne. by apply addConnection_lookup_ne.
Qed.

(** ** The dispatcher: what is delivered *)

Lemma deliver_lookup_eq (message : ServerEvent) (w : World) (u : Z) :
  connections (deliver message w u) !! u
  = forEach_send message <$> connections w !! u.
Proof.
  unfold deliver. destruct (connections w !! u) as [l|] eqn:E; simpl.
  - by rewrite lookup_insert_eq.
  - by rewrite E.
Qed.

Lemma delivered_send (message : ServerEvent) (n : nat) (ws : WebSocket.t) :
  delivered message n
    (if decide (WebSocket.readyState ws = OPEN) then send message ws else ws)
  = delivered message (S n) ws.
Proof.
  unfold delivered.
  destruct (decide (WebSocket.readyState ws = OPEN)) as [Ho|Hc]; simpl.
  - rewrite decide_True by done. by rewrite <- app_assoc.
  - by rewrite decide_False.
Qed.

Lemma delivered_none (message : ServerEvent) (w : World) (userId : Z) :
  delivered message 0 <$> default [] (connections w !! userId)
  = received w userId.
Proof.
  unfold received. apply list_fmap_ext. intros i ws _.
  unfold delivered. simpl. destruct (decide _); by rewrite app_nil_r.
Qed.

Lemma received_broadcastToUsers
    (message : ServerEvent) (userIds : list Z) (w : World) (userId : Z) :
  received (broadcastToUsers userIds message w) userId
  = delivered message (occurrences userId userIds)
      <$> default [] (connections w !! userId).
Proof.
  unfold broadcastToUsers. revert w.
  induction userIds as [|v l IH]; intros w.
  - simpl. symmetry. apply delivered_none.
  - simpl. rewrite IH. destruct (decide (v = userId)) as [->|Hne].
    + rewrite deliver_lookup_eq. unfold occurrences.
      rewrite filter_cons_True by done. simpl.
      destruct (connections w !! userId) as [l0|]; [|done]. simpl.
      unfold forEach_send. rewrite <- list_fmap_compose.
      apply list_fmap_ext. intros i ws _. simpl. apply delivered_send.
    + rewrite deliver_lookup_ne by done. unfold occurrences.
      by rewrite filter_cons_False.
Qed.

Lemma occurrences_others (userId : Z) (ps : list ConversationParticipant.t) :
  occurrences userId (otherParticipantIds userId ps) = 0%nat.
Proof.
  unfold occurrences, otherParticipantIds.
  induction ps as [|p ps IH]; [done|].
  rewrite filter_cons. destruct (decide _) as [Hne|]; [|done].
  rewrite fmap_cons, filter_cons_False by done. exact IH.
Qed.

Lemma occurrences_absent (userId : Z) (userIds : list Z) :
  userId ∉ userIds → occurrences userId userIds = 0%nat.
Proof.
  intros Hnot. unfold occurrences. rewrite filter_none; [done|].
  apply Forall_forall. intros u Hu ->. done.
Qed.

(** X5.  A dispatch writes the frame to every open socket of a user once
    for each time the user is listed among the targets, so not at all for a
    user that is not listed and twice for a user listed twice; it writes
    nothing to a socket that is not open, and it leaves the tables and the
    clock as they are.  [broadcastToUser] is the dispatch to the one
    user. *)
Theorem broadcastToUsers_delivers
    (message : ServerEvent) (userIds : list Z) (w : World) (userId : Z) :
  received (broadcastToUsers userIds message w) userId
  = delivered message (occurrences userId userIds)
      <$> default [] (connections w !! userId)
  ∧ db (broadcastToUsers userIds message w) = db w
  ∧ clock (broadcastToUsers userIds message w) = clock w
  ∧ broadcastToUser userId message w = broadcastToUsers [userId] message w.
Proof.
  split; [apply received_broadcastToUsers|].
  split; [apply broadcastToUsers_db|]. split; [|done].
  by destruct (broadcastToUsers_clock message userIds w).
Qed.

(** ** Message history: the page *)

Lemma mapM_origin {A B} (f : A → option B) (g : B → A) (l : list A)
    (k : list B) :
  (∀ x y, f x = Some y → g y = x) → mapM f l = Some k → g <$> k = l.
Proof.
  intros Hg H%mapM_Some_1. induction H as [|x y l k Hxy _ IH]; [done|].
  by rewrite fmap_cons, (Hg x y Hxy), IH.
Qed.

Lemma StronglySorted_page {A} (R : relation A) (l : list A) (i n : nat) :
  StronglySorted R l → StronglySorted R (take n (drop i l)).
Proof.
  intros H. rewrite <- (take_drop i l) in H.
  apply StronglySorted_app_1_r in H.
  rewrite <- (take_drop n (drop i l)) in H.
  by apply StronglySorted_app_1_l in H.
Qed.

Lemma orderByCreatedAtDesc_sorted rows :
  StronglySorted prisma.newer_first (prisma.orderByCreatedAtDesc rows).
Proof.
  exact (@StronglySorted_merge_sort _ prisma.newer_first _
           newer_first_trans newer_first_total rows).
Qed.

Lemma page_elem_of {A} (l : list A) (i n : nat) (x : A) :
  x ∈ take n (drop i l) → x ∈ l.
Proof.
  intros H. apply (subseteq_take _ _ x) in H.
  by apply (subseteq_drop _ _ x) in H.
Qed.

(** What a successful [getMessages] has read and written. *)
Lemma getMessages_inv (user : option Z) (conversationId : N)
    (query : PageQuery.t) (data : Page.t FormattedMessage.t)
    (msg : option string) (w w' : World) :
  getMessages user conversationId query w = (Return (success data msg), w') →
  ∃ userId before rows found lastReadAt,
    truthy user = Some userId
    ∧ is_Some (prisma.findFirst
                 (prisma.conversationParticipant.key (Z.of_N conversationId)
                                                     userId)
                 (participants (db w)))
    ∧ before = match PageQuery.before query with
               | Some b => Message.createdAt
                             <$> prisma.messageOf (db w) (Z.of_N b)
               | None => None
               end
    ∧ 0 ≤ PageQuery.skip query
    ∧ rows = take (Z.to_nat (PageQuery.limitNum query))
               (drop (Z.to_nat (PageQuery.skip query))
                  (prisma.orderByCreatedAtDesc
                     (filter (inHistory (Z.of_N conversationId) before)
                             (messages (db w)))))
    ∧ mapM (λ m, u ← senderOf (db w) m; r ← replyToOf (db w) m;
                 Some (m, u, r)) rows = Some found
    ∧ data = Page.mk
               ((λ m : Message.t * User.t * option (Message.t * User.t),
                   formatMessage m.1.1 m.1.2 m.2) <$> found)
               (Z.of_nat (length (filter (inHistory (Z.of_N conversationId)
                                                    before)
                                         (messages (db w)))))
               (PageQuery.pageNum query) (PageQuery.limitNum query)
               (bool_decide
                  (PageQuery.skip query + Z.of_nat (length found)
                   < Z.of_nat (length (filter (inHistory
                                                 (Z.of_N conversationId) before)
                                              (messages (db w))))))
    ∧ clock w ≤ lastReadAt
    ∧ w' = mkWorld
             (with_participants
                (prisma.updateWhere
                   (prisma.conversationParticipant.key (Z.of_N conversationId)
                                                       userId)
                   (prisma.conversationParticipant.set_lastReadAt lastReadAt)
                   (participants (db w)))
                (db w))
             lastReadAt (tl (ticks w)) (connections w)
             (trace w ++ [ParticipantUpdated (Z.of_N conversationId) userId
                                             lastReadAt]).
Proof.
  intros H. unfold getMessages in H.
  destruct (truthy user) as [userId|] eqn:Euser; [|done].
  apply try_catch_Return_inv in H; [|done].
  task_bind H as participant w1 Hp. task_read Hp.
  destruct (prisma.findFirst _ (participants (db w))) as [p|] eqn:Ep; [|done].
  task_bind H as before w1 Hbefore.
  assert (w1 = w
          ∧ before = match PageQuery.before query with
                     | Some b => Message.createdAt
                                   <$> prisma.messageOf (db w) (Z.of_N b)
                     | None => None
                     end) as [-> Hb].
  { destruct (PageQuery.before query).
    - task_bind Hbefore as bm w2 Hbm. task_read Hbm. by task_read Hbefore.
    - by task_read Hbefore. }
  clear Hbefore.
  task_bind H as d w1 Hd. task_read Hd.
  task_bind H as rows w1 Hrows. apply paginate_inv in Hrows as (Hskip & Hrows & ->).
  task_bind H as found w1 Hfound. task_read Hfound.
  task_bind H as total w1 Htotal. task_read Htotal.
  task_bind H as lastReadAt w1 Hnow.
  apply now_inv in Hnow as (t & [= ->] & Ht & ->).
  task_bind H as u w1 Hupdate. destruct u.
  apply participant_update_inv in Hupdate as (_ & ->).
  task_ret H. injection H as -> _.
  exists userId, before, rows, found, t.
  rewrite Ep. repeat apply conj; done.
Qed.

(** The rows behind the items of a page. *)
Lemma getMessages_items
    (user : option Z) (conversationId : N) (query : PageQuery.t)
    (data : Page.t FormattedMessage.t) (msg : option string) (w w' : World) :
  getMessages user conversationId query w = (Return (success data msg), w') →
  Forall (λ item,
            FormattedMessage.conversationId item = Z.of_N conversationId
            ∧ ∃ m, m ∈ messages (db w)
                   ∧ Message.deletedAt m = None
                   ∧ Message.id m = FormattedMessage.id item
                   ∧ Message.content m = FormattedMessage.content item
                   ∧ Message.createdAt m = FormattedMessage.createdAt item)
         (Page.items data).
Proof.
  intros H. apply getMessages_inv in H
    as (userId & before & rows & found & t & _ & _ & Hbefore & Hskip & Hrows
        & Hfound & -> & _ & _).
  assert ((λ y : Message.t * User.t * option (Message.t * User.t), y.1.1)
            <$> found = rows) as Horigin.
  { eapply mapM_origin; [|exact Hfound]. intros x y Hxy. simpl in Hxy.
    destruct (senderOf (db w) x); [|done]. simpl in Hxy.
    destruct (replyToOf (db w) x); [|done]. by injection Hxy as <-. }
  simpl. apply Forall_fmap, Forall_forall. intros y Hy.
  assert (y.1.1 ∈ rows) as Hin.
  { rewrite <- Horigin.
    apply (list_elem_of_fmap_2
             (λ y : Message.t * User.t * option (Message.t * User.t), y.1.1)).
    exact Hy. }
  rewrite Hrows in Hin. apply page_elem_of in Hin.
  apply (proj1 (orderByCreatedAtDesc_elem_of _ _)) in Hin.
  apply list_elem_of_filter in Hin as [(Hc & Hd & _) Hin].
  simpl. split; [done|]. by exists y.1.1.
Qed.

(** X6.  A page of history holds only messages of the conversation asked
    for that are not deleted, each with the key, the content and the date
    of its row, the newest first; it is no longer than the limit, [hasMore]
    says whether rows remain after it, and without a cursor [total] is the
    number of messages of the conversation that are not deleted. *)
Theorem getMessages_page
    (user : option Z) (conversationId : N) (query : PageQuery.t)
    (data : Page.t FormattedMessage.t) (msg : option string) (w w' : World) :
  getMessages user conversationId query w = (Return (success data msg), w') →
  Forall (λ item,
            FormattedMessage.conversationId item = Z.of_N conversationId
            ∧ ∃ m, m ∈ messages (db w)
                   ∧ Message.deletedAt m = None
                   ∧ Message.id m = FormattedMessage.id item
                   ∧ Message.content m = FormattedMessage.content item
                   ∧ Message.createdAt m = FormattedMessage.createdAt item)
         (Page.items data)
  ∧ StronglySorted (λ a b, FormattedMessage.createdAt b
                           ≤ FormattedMessage.createdAt a)
                   (Page.items data)
  ∧ Z.of_nat (length (Page.items data)) ≤ PageQuery.limitNum query
  ∧ (Page.hasMore data = true
     ↔ PageQuery.skip query + Z.of_nat (length (Page.items data))
       < Page.total data)
  ∧ Page.total data
    ≤ Z.of_nat (length (filter (λ m, Message.deletedAt m = None)
                               (prisma.messagesOf (db w)
                                  (Z.of_N conversationId))))
  ∧ (PageQuery.before query = None →
     Page.total data
     = Z.of_nat (length (filter (λ m, Message.deletedAt m = None)
                                (prisma.messagesOf (db w)
                                   (Z.of_N conversationId))))).
Proof.
  intros H. split; [exact (getMessages_items _ _ _ _ _ _ _ H)|].
  apply getMessages_inv in H
    as (userId & before & rows & found & t & _ & _ & Hbefore & Hskip & Hrows
        & Hfound & -> & _ & _).
  assert ((λ y : Message.t * User.t * option (Message.t * User.t), y.1.1)
            <$> found = rows) as Horigin.
  { eapply mapM_origin; [|exact Hfound]. intros x y Hxy. simpl in Hxy.
    destruct (senderOf (db w) x); [|done]. simpl in Hxy.
    destruct (replyToOf (db w) x); [|done]. by injection Hxy as <-. }
  assert (length found = length rows) as Hlen
    by (by rewrite <- Horigin, length_fmap).
  simpl. refine (conj _ (conj _ (conj _ (conj _ _)))).
  - rewrite <- (list_fmap_id found), <- Horigin in Hfound. clear Hfound.
    assert (StronglySorted prisma.newer_first rows) as Hsorted.
    { rewrite Hrows. apply StronglySorted_page, orderByCreatedAtDesc_sorted. }
    rewrite <- Horigin in Hsorted. clear - Hsorted.
    induction found as [|y found IH]; [constructor|].
    rewrite fmap_cons in Hsorted.
    apply StronglySorted_inv in Hsorted as [Hs Hall].
    rewrite fmap_cons. constructor; [by apply IH|].
    apply Forall_fmap. apply (proj1 (Forall_fmap _ _ _)) in Hall.
    eapply Forall_impl; [exact Hall|]. by intros z Hz.
  - rewrite length_fmap, Hlen, Hrows, length_take.
    pose proof (N2Z.is_nonneg (default 20%N (PageQuery.limit query))).
    unfold PageQuery.limitNum in *. lia.
  - rewrite length_fmap. apply bool_decide_eq_true.
  - apply inj_le. unfold prisma.messagesOf.
    rewrite <- (list_filter_filter_l
                  (inHistory (Z.of_N conversationId) before)
                  (λ m, Message.deletedAt m = None
                        ∧ Message.conversationId m = Z.of_N conversationId)
                  (messages (db w)))
      by (by intros m (Hc & Hd & _)).
    rewrite <- (list_filter_filter (λ m, Message.deletedAt m = None)
                  (λ m, Message.conversationId m = Z.of_N conversationId)).
    apply length_filter.
  - intros Hnone. rewrite Hnone in Hbefore. subst before.
    unfold prisma.messagesOf. rewrite list_filter_filter. f_equal. f_equal.
    apply list_filter_iff. intros m. unfold inHistory. simpl. tauto.
Qed.

Lemma getMessages_page_witness :
  ∃ data msg w',
    getMessages (Some 3) 1%N (PageQuery.mk None None None) Sample.world
    = (Return (success data msg), w')
    ∧ FormattedMessage.id <$> Page.items data = [1]
    ∧ Page.total data = 1
    ∧ Page.hasMore data = false
    ∧ Forall (λ item, ∃ m, m ∈ messages (db Sample.world)
                           ∧ Message.deletedAt m = None
                           ∧ Message.id m = FormattedMessage.id item)
             (Page.items data).
Proof.
  eexists _, _, _. split; [vm_compute; reflexivity|].
  split; [vm_compute; reflexivity|].
  split; [reflexivity|]. split; [reflexivity|].
  destruct (getMessages_page (Some 3) 1%N (PageQuery.mk None None None) _ _
              Sample.world _ eq_refl) as (Hitems & _).
  eapply Forall_impl; [exact Hitems|].
  intros item (_ & m & Hm & Hd & Hid & _). by exists m.
Defined.



Lemma paginate_total {A} (skip take_ : Z) (rows : list A) w :
  0 ≤ skip →
  prisma.paginate skip take_ rows w
  = (Return (take (Z.to_nat take_) (drop (Z.to_nat skip) rows)), w).
Proof. intros H. unfold prisma.paginate. by rewrite decide_False by lia. Qed.

Lemma withSenderReply_total w (rows : list Message.t) :
  wf w → Forall (λ m, m ∈ messages (db w)) rows →
  is_Some (mapM (λ m, u ← senderOf (db w) m; r ← replyToOf (db w) m;
                      Some (m, u, r)) rows).
Proof.
  intros Hwf Hrows. apply mapM_is_Some_2. eapply Forall_impl; [exact Hrows|].
  intros m Hm. simpl.
  destruct (wf_message w m Hwf Hm) as (_ & _ & [u Hu] & _).
  unfold senderOf at 1. rewrite Hu. simpl.
  unfold replyToOf. destruct (Message.replyToId m) as [r|]; [|by eexists].
  destruct (prisma.messageOf (db w) r) as [rm|] eqn:Erm; [|by eexists].
  apply messageOf_elem_of in Erm as [Hrm _].
  destruct (wf_message w rm Hwf Hrm) as (_ & _ & [ru Hru] & _).
  unfold senderOf. rewrite Hru. by eexists.
Qed.



(** ** Deleting: what follows a delete *)

(** What a successful [deleteMessage] has read and written. *)
Lemma deleteMessage_success_inv (user : option Z) (id : N)
    (msg : option string) (w w' : World) :
  wf w →
  deleteMessage user id w = (Return (success tt msg), w') →
  ∃ userId m t1 t2 t3 tk,
    truthy user = Some userId
    ∧ prisma.messageOf (db w) (Z.of_N id) = Some m
    ∧ Message.senderId m = userId
    ∧ clock w ≤ t1 ∧ t1 ≤ t2 ∧ t2 ≤ t3
    ∧ w' = broadcastToUsers
             (otherParticipantIds userId
                (prisma.participantsOf (db w) (Message.conversationId m)))
             (message_deleted (Z.of_N id) (Message.conversationId m) t3)
             (mkWorld
                (with_messages
                   (prisma.updateWhere (λ m, Message.id m = Z.of_N id)
                      (prisma.message.set_deleted t1 t2) (messages (db w)))
                   (db w))
                t3 tk (connections w)
                (trace w ++ [MessageUpdated (Z.of_N id)])).
Proof.
  intros Hwf H.
  destruct (truthy user) as [userId|] eqn:Euser.
  2: { unfold deleteMessage in H. by rewrite Euser in H. }
  destruct (prisma.messageOf (db w) (Z.of_N id)) as [m|] eqn:Em.
  2: { by rewrite (deleteMessage_absent user userId id w Euser Em) in H. }
  destruct (decide (Message.senderId m = userId)) as [Hs|Hs].
  2: { by rewrite (deleteMessage_not_sender user userId id w m Hwf Euser Em Hs)
         in H. }
  destruct (deleteMessage_sender user userId id w m Hwf Euser Em Hs)
    as (t1 & t2 & t3 & tk & H1 & H2 & H3 & Hrun).
  rewrite Hrun in H. injection H as _ <-.
  by exists userId, m, t1, t2, t3, tk.
Qed.

(** X9.  A message that was deleted is on no page of history: after a
    successful [deleteMessage], no [getMessages], of any conversation, by
    any user and with any page, limit and cursor, returns an item with the
    key of the message. *)
Theorem deleted_message_not_in_history
    (user reader : option Z) (id conversationId : N) (query : PageQuery.t)
    (msg msg' : option string) (data : Page.t FormattedMessage.t)
    (w w1 w2 : World) :
  wf w →
  deleteMessage user id w = (Return (success tt msg), w1) →
  getMessages reader conversationId query w1
  = (Return (success data msg'), w2) →
  Forall (λ item, FormattedMessage.id item ≠ Z.of_N id) (Page.items data).
Proof.
  intros Hwf Hdel Hget.
  apply deleteMessage_success_inv in Hdel
    as (userId & m & t1 & t2 & t3 & tk & _ & _ & _ & _ & _ & _ & ->);
    [|done].
  apply getMessages_items in Hget. rewrite broadcastToUsers_db in Hget.
  eapply Forall_impl; [exact Hget|].
  intros item (_ & m' & Hm' & Hd & Hid & _) Hitem. simpl in Hm'.
  apply elem_of_updateWhere in Hm' as (x & _ & ->).
  destruct (decide (Message.id x = Z.of_N id)) as [Hx|Hx]; [done|].
  by rewrite Hid, Hitem in Hx.
Qed.

Lemma deleted_message_not_in_history_witness :
  wf Sample.world
  ∧ ∃ pageBefore msg0 w0,
      getMessages (Some 3) 1%N (PageQuery.mk None None None) Sample.world
      = (Return (success pageBefore msg0), w0)
      ∧ FormattedMessage.id <$> Page.items pageBefore = [1]
      ∧ ∃ msg w1 data msg' w2,
          deleteMessage (Some 4) 1%N Sample.world
          = (Return (success tt msg), w1)
          ∧ getMessages (Some 3) 1%N (PageQuery.mk None None None) w1
            = (Return (success data msg'), w2)
          ∧ Forall (λ item, FormattedMessage.id item ≠ 1) (Page.items data).
Proof.
  assert (wf Sample.world) as Hwf
    by (apply (bool_decide_unpack _); vm_compute; reflexivity).
  split; [exact Hwf|].
  eexists _, _, _. split; [vm_compute; reflexivity|].
  split; [vm_compute; reflexivity|].
  eexists _, _, _, _, _.
  split; [vm_compute; reflexivity|]. split; [vm_compute; reflexivity|].
  exact (deleted_message_not_in_history (Some 4) (Some 3) 1%N 1%N
           (PageQuery.mk None None None) _ _ _ Sample.world _ _ Hwf
           eq_refl eq_refl).
Defined.

(** X10.  [deleteMessage] does not look at [deletedAt]: the sender can
    delete a deleted message again, and the second delete is answered as
    the first, stamps the message with a new [deletedAt], which is not
    earlier, keeps every other row, and notifies the other participants a
    second time. *)
Theorem deleteMessage_again
    (user : option Z) (id : N) (msg : option string) (w w1 : World) :
  wf w →
  deleteMessage user id w = (Return (success tt msg), w1) →
  ∃ userId m deletedAt notifiedAt w2 w3,
    truthy user = Some userId
    ∧ prisma.messageOf (db w) (Z.of_N id) = Some m
    ∧ deleteMessage user id w1
      = (Return (success tt (Some "消息已删除")), w3)
    ∧ clock w1 ≤ deletedAt ≤ notifiedAt
    ∧ Forall (λ m', Message.id m' = Z.of_N id →
                    Message.deletedAt m' = Some deletedAt)
             (messages (db w3))
    ∧ Forall2 (λ m1 m3, Message.id m1 ≠ Z.of_N id → m3 = m1)
              (messages (db w1)) (messages (db w3))
    ∧ connections w2 = connections w1
    ∧ w3 = broadcastToUsers
             (otherParticipantIds userId
                (prisma.participantsOf (db w) (Message.conversationId m)))
             (message_deleted (Z.of_N id) (Message.conversationId m) notifiedAt)
             w2.
Proof.
  intros Hwf Hdel.
  apply deleteMessage_success_inv in Hdel
    as (userId & m & t1 & t2 & t3 & tk & Hu & Em & Hs & H1 & H2 & H3 & ->);
    [|done].
  match goal with
  | |- context [deleteMessage user id ?x] => set (w1 := x)
  end.
  assert (wf w1) as Hwf1.
  { apply wf_broadcastToUsers, wf_update_messages; [done | lia | done]. }
  assert (prisma.messageOf (db w1) (Z.of_N id)
          = Some (prisma.message.set_deleted t1 t2 m)) as Em1.
  { unfold w1. rewrite broadcastToUsers_db. simpl.
    pose proof (messageOf_updateWhere (db w)
                  (λ m, Message.id m = Z.of_N id)
                  (prisma.message.set_deleted t1 t2) (Z.of_N id)) as Hm.
    rewrite Hm by done. rewrite Em. simpl.
    apply messageOf_elem_of in Em as [_ Em]. by rewrite decide_True. }
  destruct (deleteMessage_sender user userId id w1
              (prisma.message.set_deleted t1 t2 m) Hwf1 Hu Em1 Hs)
    as (t1' & t2' & t3' & tk' & H1' & H2' & H3' & Hrun).
  assert (prisma.participantsOf (db w1) (Message.conversationId m)
          = prisma.participantsOf (db w) (Message.conversationId m)) as Hps.
  { unfold w1. by rewrite broadcastToUsers_db. }
  simpl in Hrun. rewrite Hps in Hrun.
  eexists userId, m, t1', t3', _, _.
  split; [done|]. split; [done|]. split; [exact Hrun|].
  split; [lia|]. refine (conj _ (conj _ (conj _ eq_refl))).
  - rewrite broadcastToUsers_db. simpl.
    apply Forall_forall. intros m' (x & _ & ->)%elem_of_updateWhere Hid.
    destruct (decide (Message.id x = Z.of_N id)); done.
  - rewrite broadcastToUsers_db. simpl.
    eapply Forall2_impl; [apply Forall2_updateWhere|].
    intros x y Hxy Hne. cbv beta in Hxy.
    destruct (decide (Message.id x = Z.of_N id)); done.
  - reflexivity.
Qed.

Lemma deleteMessage_again_witness :
  wf Sample.world
  ∧ ∃ msg w1 w3,
      deleteMessage (Some 4) 1%N Sample.world = (Return (success tt msg), w1)
      ∧ deleteMessage (Some 4) 1%N w1
        = (Return (success tt (Some "消息已删除")), w3)
      ∧ Message.deletedAt <$> prisma.messageOf (db w1) 1 = Some (Some 1005)
      ∧ Message.deletedAt <$> prisma.messageOf (db w3) 1 = Some (Some 1012)
      ∧ ∃ deletedAt,
          Forall (λ m', Message.id m' = 1 →
                        Message.deletedAt m' = Some deletedAt)
                 (messages (db w3)).
Proof.
  assert (wf Sample.world) as Hwf
    by (apply (bool_decide_unpack _); vm_compute; reflexivity).
  split; [exact Hwf|].
  eexists _, _, _. split; [vm_compute; reflexivity|].
  split; [vm_compute; reflexivity|].
  split; [vm_compute; reflexivity|]. split; [vm_compute; reflexivity|].
  destruct (deleteMessage_again (Some 4) 1%N _ Sample.world _ Hwf eq_refl)
    as (userId & m & deletedAt & notifiedAt & w2 & w3 & _ & _ & Hrun & _
        & Hall & _).
  exists deletedAt. injection Hrun as <-. exact Hall.
Defined.

Lemma otherParticipantIds_elem_of (userId v : Z)
    (ps : list ConversationParticipant.t) :
  v ∈ otherParticipantIds userId ps
  ↔ v ≠ userId ∧ Exists (λ p, ConversationParticipant.userId p = v) ps.
Proof.
  unfold otherParticipantIds. rewrite list_elem_of_fmap, Exists_exists. split.
  - intros (p & -> & Hp). apply list_elem_of_filter in Hp as [Hne Hp].
    split; [done|]. by exists p.
  - intros (Hne & p & Hp & <-). exists p. split; [done|].
    by apply list_elem_of_filter.
Qed.

(** X11.  The frame [message_deleted] of a successful [deleteMessage] goes
    to the participants of the conversation of the message other than the
    caller, once for each participant row and socket that is open: the
    sockets of the caller and of the users that do not participate receive
    nothing. *)
Theorem deleteMessage_notifies
    (user : option Z) (id : N) (msg : option string) (w w' : World) :
  wf w →
  deleteMessage user id w = (Return (success tt msg), w') →
  ∃ userId m notifiedAt,
    truthy user = Some userId
    ∧ prisma.messageOf (db w) (Z.of_N id) = Some m
    ∧ clock w ≤ notifiedAt
    ∧ clock w' = notifiedAt
    ∧ received w' userId = received w userId
    ∧ (∀ v, ¬ Exists (λ p, ConversationParticipant.userId p = v)
                     (prisma.participantsOf (db w) (Message.conversationId m)) →
            received w' v = received w v)
    ∧ (∀ v, received w' v
            = delivered
                (message_deleted (Z.of_N id) (Message.conversationId m)
                                 notifiedAt)
                (occurrences v
                   (otherParticipantIds userId
                      (prisma.participantsOf (db w)
                         (Message.conversationId m))))
                <$> default [] (connections w !! v)).
Proof.
  intros Hwf Hdel.
  apply deleteMessage_success_inv in Hdel
    as (userId & m & t1 & t2 & t3 & tk & Hu & Em & Hs & H1 & H2 & H3 & ->);
    [|done].
  exists userId, m, t3. split; [done|]. split; [done|]. split; [lia|].
  split; [by destruct (broadcastToUsers_clock
                         (message_deleted (Z.of_N id)
                            (Message.conversationId m) t3)
                         (otherParticipantIds userId
                            (prisma.participantsOf (db w)
                               (Message.conversationId m)))
                         (mkWorld
                            (with_messages
                               (prisma.updateWhere
                                  (λ m, Message.id m = Z.of_N id)
                                  (prisma.message.set_deleted t1 t2)
                                  (messages (db w)))
                               (db w))
                            t3 tk (connections w)
                            (trace w ++ [MessageUpdated (Z.of_N id)])))|].
  split; [|split].
  - rewrite received_broadcastToUsers, occurrences_others. simpl.
    apply (delivered_none _ w).
  - intros v Hv. rewrite received_broadcastToUsers, occurrences_absent.
    + apply (delivered_none _ w).
    + intros Hin. apply otherParticipantIds_elem_of in Hin as [_ Hin]. done.
  - intros v. by rewrite received_broadcastToUsers.
Qed.

Lemma deleteMessage_notifies_witness :
  wf Sample.world
  ∧ ∃ msg w',
      deleteMessage (Some 3) 2%N
        (addConnection 3 (WebSocket.mk 9 OPEN []) Sample.world)
      = (Return (success tt msg), w')
      ∧ received w' 3 = [(9, [])]
      ∧ received w' 4 = [(7, [message_deleted 2 1 (clock w')]); (8, [])].
Proof.
  assert (wf (addConnection 3 (WebSocket.mk 9 OPEN []) Sample.world)) as Hwf
    by (apply (bool_decide_unpack _); vm_compute; reflexivity).
  split; [apply (bool_decide_unpack _); vm_compute; reflexivity|].
  eexists _, _. split; [vm_compute; reflexivity|].
  destruct (deleteMessage_notifies (Some 3) 2%N _ _ _ Hwf eq_refl)
    as (userId & m & notifiedAt & Hu & Hm & _ & Hclock & Hself & _ & Hall).
  injection Hu as <-. injection Hm as <-. subst notifiedAt.
  split; [exact Hself | exact (Hall 4)].
Defined.

(** ** Sending: the reply, the unread counts, the success *)

(** What a successful [sendMessage] has read and written. *)
Lemma sendMessage_inv (user : option Z) (body : SendMessageBody.t)
    (data : FormattedMessage.t) (msg : option string) (w w' : World) :
  sendMessage user body w = (Return (success data msg), w') →
  ∃ userId row sender replyTo lastReadAt w1,
    truthy user = Some userId
    ∧ is_Some (prisma.conversationOf (db w)
                 (SendMessageBody.conversationId body))
    ∧ isParticipant userId
        (prisma.participantsOf (db w) (SendMessageBody.conversationId body))
      = true
    ∧ match truthy (SendMessageBody.replyToId body) with
      | Some r =>
          ∃ rm, prisma.messageOf (db w) r = Some rm
                ∧ Message.conversationId rm
                  = SendMessageBody.conversationId body
      | None => True
      end
    ∧ from_option (λ r, is_Some (prisma.messageOf (db w) r)) True
                  (SendMessageBody.replyToId body)
    ∧ row = Message.mk (nextMessageId (db w))
              (SendMessageBody.conversationId body) userId None
              (Some (SendMessageBody.content body))
              (SendMessageBody.messageType (SendMessageBody.type body))
              (SendMessageBody.mediaUrl body)
              (SendMessageBody.replyToId body) MessageStatus.sent
              None None None None
              (Message.createdAt row) (Message.createdAt row) None
    ∧ clock w ≤ Message.createdAt row ≤ lastReadAt
    ∧ senderOf (db w1) row = Some sender
    ∧ replyToOf (db w1) row = Some replyTo
    ∧ data = formatMessage row sender replyTo
    ∧ users (db w1) = users (db w)
    ∧ messages (db w1) = messages (db w) ++ [row]
    ∧ participants (db w1)
      = prisma.updateWhere
          (prisma.conversationParticipant.key
             (SendMessageBody.conversationId body) userId)
          (prisma.conversationParticipant.set_lastReadAt lastReadAt)
          (participants (db w))
    ∧ connections w1 = connections w
    ∧ clock w1 = lastReadAt
    ∧ w' = broadcastToUsers
             (otherParticipantIds userId
                (prisma.participantsOf (db w)
                   (SendMessageBody.conversationId body)))
             (new_message data) w1.
Proof.
  unfold sendMessage. intros H.
  destruct (truthy user) as [userId|] eqn:Euser; [|done].
  apply try_catch_Return_inv in H; [|done].
  task_bind H as conv w1 Hc. task_read Hc.
  destruct (prisma.conversationOf (db w) (SendMessageBody.conversationId body))
    as [c|] eqn:Ec; simpl in H; [|done].
  destruct (isParticipant userId _) eqn:Epart; simpl in H; [|done].
  task_bind H as replyOk w1 Hreply.
  assert (w1 = w
          ∧ (replyOk = true →
             match truthy (SendMessageBody.replyToId body) with
             | Some r =>
                 ∃ rm, prisma.messageOf (db w) r = Some rm
                       ∧ Message.conversationId rm
                         = SendMessageBody.conversationId body
             | None => True
             end)) as [-> Hvalid].
  { destruct (truthy (SendMessageBody.replyToId body)) as [r|].
    - task_bind Hreply as rm w2 Hrm. task_read Hrm. task_read Hreply.
      split; [done|]. destruct (prisma.messageOf (db w) r) as [rm|]; [|done].
      intros Hok%bool_decide_eq_true. by exists rm.
    - by task_read Hreply. }
  clear Hreply. destruct replyOk; simpl in H; [|done].
  task_bind H as row w2 Hrow.
  apply message_create_inv in Hrow as (Hrefs & t1 & Ht1 & Hrow & ->).
  task_bind H as sender w2 Hsender.
  task_bind Hsender as d w3 Hd. task_read Hd. task_read Hsender.
  task_bind H as replyTo w2 HreplyTo.
  task_bind HreplyTo as d w3 Hd. task_read Hd. task_read HreplyTo.
  task_bind H as u w2 Hconv. destruct u.
  apply conversation_update_inv in Hconv as (Hconv & t2 & Ht2 & ->).
  task_bind H as lastReadAt w2 Hnow.
  apply now_inv in Hnow as (t3 & [= ->] & Ht3 & ->).
  task_bind H as u w2 Hp. destruct u.
  apply participant_update_inv in Hp as (Hp & ->).
  task_bind H as u w2 Hb. task_read Hb. task_ret H.
  injection H as -> ->. simpl in Ht2, Ht3.
  destruct Hrefs as (_ & _ & _ & Hrefs). simpl in Hrefs.
  assert (Message.createdAt row = t1) as Hcreated by (by rewrite Hrow).
  eexists userId, row, sender, replyTo, t3, _.
  split; [done|]. split; [done|]. split; [done|].
  split; [by apply Hvalid|]. split; [done|].
  split; [by rewrite Hcreated|]. split; [lia|].
  refine (conj _ (conj _ (conj eq_refl (conj _ (conj _ (conj _ (conj _
            (conj _ eq_refl)))))))); try done.
Qed.

(** X12.  A message that is sent as a reply, when the tables are sound:
    the message replied to exists and is of the same conversation, deleted
    or not; the reply of the request and the frame carry its key, its
    content, its sender and the name of its sender; and the row that is
    stored refers to it. *)
Theorem sendMessage_reply
    (user : option Z) (body : SendMessageBody.t) (r : Z)
    (data : FormattedMessage.t) (msg : option string) (w w' : World) :
  wf w →
  SendMessageBody.replyToId body = Some r →
  sendMessage user body w = (Return (success data msg), w') →
  ∃ rm u,
    r ≠ 0
    ∧ prisma.messageOf (db w) r = Some rm
    ∧ Message.conversationId rm = SendMessageBody.conversationId body
    ∧ prisma.userOf (db w) (Message.senderId rm) = Some u
    ∧ FormattedMessage.replyTo data
      = Some (FormattedReplyTo.mk r (Message.content rm) (Message.senderId rm)
                                  (User.username u))
    ∧ Message.replyToId
        <$> prisma.messageOf (db w') (FormattedMessage.id data)
      = Some (Some r).
Proof.
  intros Hwf Hreply H.
  apply sendMessage_inv in H
    as (userId & row & sender & replyTo & t & w1 & Hu & Hc & Hp & Hvalid
        & Hrefs & Hrow & Ht & Hsender & HreplyTo & -> & Husers & Hmsgs
        & Hparts & Hconns & Hclock & ->).
  rewrite Hreply in Hrefs, Hvalid. simpl in Hrefs.
  assert (r ≠ 0) as Hr.
  { intros ->. rewrite wf_messageOf_zero in Hrefs by done.
    by destruct Hrefs. }
  rewrite truthy_Some in Hvalid by done. destruct Hvalid as (rm & Hrm & Hcid).
  assert (Message.replyToId row = Some r) as Hrr
    by (rewrite Hrow; exact Hreply).
  assert (Message.id row = nextMessageId (db w)) as Hid
    by (by rewrite Hrow).
  assert (prisma.messageOf (db w1) r = Some rm) as Hrm1.
  { unfold prisma.messageOf in *. by rewrite Hmsgs, findFirst_app, Hrm. }
  unfold replyToOf in HreplyTo. rewrite Hrr, Hrm1 in HreplyTo.
  unfold senderOf, prisma.userOf in HreplyTo. rewrite Husers in HreplyTo.
  destruct (prisma.findFirst _ (users (db w))) as [u|] eqn:Eu; [|done].
  simpl in HreplyTo. injection HreplyTo as <-.
  exists rm, u. split; [done|]. split; [done|]. split; [done|].
  split; [exact Eu|]. split.
  - simpl. unfold formatReplyTo. simpl.
    apply messageOf_elem_of in Hrm as [_ ->]. done.
  - rewrite broadcastToUsers_db. simpl. rewrite Hid.
    unfold prisma.messageOf. rewrite Hmsgs, findFirst_app.
    destruct (prisma.findFirst _ (messages (db w))) as [old|] eqn:Eold.
    + apply findFirst_Some in Eold as [Hin Hold].
      destruct (wf_message w old Hwf Hin) as (Hlt & _). lia.
    + unfold prisma.findFirst. rewrite filter_cons_True by done.
      simpl. by rewrite Hrr.
Qed.

Lemma sendMessage_reply_witness :
  wf Sample.world
  ∧ Message.deletedAt Sample.message2 = Some 400
  ∧ ∃ data msg w',
      sendMessage (Some 4)
        (SendMessageBody.mk 1 "re" SendMessageBody.text None (Some 2))
        Sample.world
      = (Return (success data msg), w')
      ∧ FormattedMessage.replyTo data
        = Some (FormattedReplyTo.mk 2 None 3 "alice").
Proof.
  assert (wf Sample.world) as Hwf
    by (apply (bool_decide_unpack _); vm_compute; reflexivity).
  split; [exact Hwf|]. split; [reflexivity|].
  eexists _, _, _. split; [vm_compute; reflexivity|].
  destruct (sendMessage_reply (Some 4)
              (SendMessageBody.mk 1 "re" SendMessageBody.text None (Some 2))
              2 _ _ Sample.world _ Hwf eq_refl eq_refl)
    as (rm & u & _ & Hrm & _ & Hu & Hdata & _).
  vm_compute in Hrm. injection Hrm as <-.
  vm_compute in Hu. injection Hu as <-.
  exact Hdata.
Defined.

(** X13.  The unread counts after a message is sent, as [getConversations]
    computes them from the participant row of a user: the count of the
    sender for the conversation is 0, since the sender is marked as having
    read up to the time after the insertion; the row of any other
    participant is as it was, and the count of that participant is one
    more when the participant had last read before the new message, and
    the same otherwise. *)
Theorem sendMessage_unread_counts
    (userId : Z) (body : SendMessageBody.t) (data : FormattedMessage.t)
    (msg : option string) (w w' : World) (v : Z)
    (p : ConversationParticipant.t) :
  wf w →
  sendMessage (Some userId) body w = (Return (success data msg), w') →
  prisma.findFirst
    (prisma.conversationParticipant.key (SendMessageBody.conversationId body) v)
    (participants (db w)) = Some p →
  ∃ p',
    prisma.findFirst
      (prisma.conversationParticipant.key (SendMessageBody.conversationId body)
                                          v)
      (participants (db w')) = Some p'
    ∧ if decide (v = userId) then
        ConversationParticipant.lastReadAt p' = clock w'
        ∧ filter (unread (SendMessageBody.conversationId body) v
                         (ConversationParticipant.lastReadAt p'))
                 (messages (db w')) = []
      else
        p' = p
        ∧ length (filter (unread (SendMessageBody.conversationId body) v
                                 (ConversationParticipant.lastReadAt p'))
                         (messages (db w')))
          = (length (filter (unread (SendMessageBody.conversationId body) v
                                    (ConversationParticipant.lastReadAt p))
                            (messages (db w)))
             + if decide (ConversationParticipant.lastReadAt p
                          < FormattedMessage.createdAt data)%Z
               then 1 else 0)%nat.
Proof.
  intros Hwf H Hp.
  apply sendMessage_inv in H
    as (u & row & sender & replyTo & t & w1 & Hu & _ & _ & _ & _ & Hrow & Ht
        & _ & _ & -> & _ & Hmsgs & Hparts & _ & Hclock & ->).
  apply truthy_inv in Hu as [[= <-] Hu0].
  assert (Message.senderId row = userId
          ∧ Message.conversationId row = SendMessageBody.conversationId body)
    as [Hsender Hconv] by (by rewrite Hrow).
  destruct (broadcastToUsers_clock
              (new_message (formatMessage row sender replyTo))
              (otherParticipantIds userId
                 (prisma.participantsOf (db w)
                    (SendMessageBody.conversationId body))) w1) as [Hclock' _].
  rewrite broadcastToUsers_db, Hclock', Hmsgs, Hparts, Hclock.
  destruct (decide (v = userId)) as [->|Hne].
  - rewrite participant_after_update, Hp. eexists. split; [reflexivity|].
    split; [done|]. simpl. apply filter_none, Forall_app. split.
    + apply Forall_forall. intros m Hm (_ & Hlater & _).
      destruct (wf_message w m Hwf Hm) as (_ & _ & _ & Hdate). lia.
    + constructor; [|constructor]. intros (_ & _ & Hother). done.
  - rewrite findFirst_updateWhere, Hp by done. simpl.
    apply findFirst_Some in Hp as [_ [_ Hv]].
    rewrite decide_False by (intros [_ Hk]; congruence).
    eexists. split; [reflexivity|]. split; [done|].
    rewrite filter_app, length_app. f_equal. simpl.
    destruct (decide (ConversationParticipant.lastReadAt p
                      < Message.createdAt row)) as [Hlt|Hge].
    + rewrite filter_cons_True; [done|]. split; [done|]. split; [done|].
      congruence.
    + rewrite filter_cons_False; [done|]. intros (_ & Hlt & _). done.
Qed.

Lemma sendMessage_unread_counts_witness :
  wf Sample.world
  ∧ ∃ data msg w',
      sendMessage (Some 3) Sample.hi Sample.world
      = (Return (success data msg), w')
      ∧ length (filter (unread 1 4 100) (messages (db Sample.world))) = 1%nat
      ∧ ∃ p', prisma.findFirst (prisma.conversationParticipant.key 1 4)
                               (participants (db w')) = Some p'
              ∧ p' = Sample.participant2
              ∧ length (filter (unread 1 4
                                  (ConversationParticipant.lastReadAt p'))
                               (messages (db w'))) = 2%nat.
Proof.
  assert (wf Sample.world) as Hwf
    by (apply (bool_decide_unpack _); vm_compute; reflexivity).
  split; [exact Hwf|].
  eexists _, _, _. split; [vm_compute; reflexivity|].
  split; [vm_compute; reflexivity|].
  destruct (sendMessage_unread_counts 3 Sample.hi _ _ Sample.world _ 4
              Sample.participant2 Hwf eq_refl ltac:(vm_compute; reflexivity))
    as (p' & Hp' & Hrest).
  exists p'. split; [exact Hp'|].
  rewrite decide_False in Hrest by done. destruct Hrest as [-> Hlen].
  split; [reflexivity|].
  exact (eq_trans Hlen ltac:(vm_compute; reflexivity)).
Defined.

Lemma participant_row (d : Db) (conversationId userId : Z) :
  isParticipant userId (prisma.participantsOf d conversationId) = true →
  ∃ p, prisma.findFirst
         (prisma.conversationParticipant.key conversationId userId)
         (participants d) = Some p
       ∧ p ∈ participants d.
Proof.
  intros H%bool_decide_eq_true. apply Exists_exists in H as (p & Hp & Hu).
  apply participantsOf_elem_of in Hp as [Hp Hc].
  destruct (findFirst_is_Some
              (prisma.conversationParticipant.key conversationId userId)
              (participants d) p Hp (conj Hc Hu)) as [q Hq].
  exists q. split; [done|]. by apply findFirst_Some in Hq as [? _].
Qed.

Lemma message_create_throws data st w :
  ¬ prisma.message.references_ok (db w) data →
  prisma.message.create data st w = (Throw ForeignKeyViolation, w).
Proof.
  intros H. unfold prisma.message.create.
  task_run by (eq_refl : gets db w = _). by rewrite decide_False.
Qed.

(** X14.  [sendMessage] accepts what it does not reject, when the tables
    are sound: for a participant of a conversation that exists, a message
    that replies to nothing, or to a message of the conversation with a key
    other than 0, is stored under the next key and answered with a success.
    A reply to the key 0 passes the check of the reply, which reads 0 as no
    reply, and fails on the insertion: the answer is a server error, and
    nothing is stored or sent. *)
Theorem sendMessage_accepts
    (userId : Z) (body : SendMessageBody.t) (w : World) :
  wf w → userId ≠ 0 →
  is_Some (prisma.conversationOf (db w) (SendMessageBody.conversationId body)) →
  isParticipant userId
    (prisma.participantsOf (db w) (SendMessageBody.conversationId body))
  = true →
  match SendMessageBody.replyToId body with
  | Some 0 =>
      sendMessage (Some userId) body w
      = (Return (serverError "发送消息失败"), w)
  | replyToId =>
      from_option
        (λ r, ∃ rm, prisma.messageOf (db w) r = Some rm
                    ∧ Message.conversationId rm
                      = SendMessageBody.conversationId body)
        True replyToId →
      ∃ data w',
        sendMessage (Some userId) body w = (Return (success data None), w')
        ∧ FormattedMessage.id data = nextMessageId (db w)
        ∧ FormattedMessage.senderId data = userId
        ∧ FormattedMessage.status data = MessageStatus.sent
        ∧ nextMessageId (db w') = nextMessageId (db w) + 1
  end.
Proof.
  intros Hwf Hu [c Ec] Hp.
  destruct (participant_row _ _ _ Hp) as (p & Hrow & Hin).
  assert (is_Some (prisma.userOf (db w) userId)) as Huser.
  { destruct (wf_participant w p Hwf Hin) as [_ Hpu].
    apply findFirst_Some in Hrow as [_ [_ Hpuser]]. by rewrite Hpuser in Hpu. }
  assert (∀ replyToId,
            SendMessageBody.replyToId body = replyToId →
            truthy replyToId = replyToId →
            from_option
              (λ r, ∃ rm, prisma.messageOf (db w) r = Some rm
                          ∧ Message.conversationId rm
                            = SendMessageBody.conversationId body)
              True replyToId →
            ∃ data w',
              sendMessage (Some userId) body w
              = (Return (success data None), w')
              ∧ FormattedMessage.id data = nextMessageId (db w)
              ∧ FormattedMessage.senderId data = userId
              ∧ FormattedMessage.status data = MessageStatus.sent
              ∧ nextMessageId (db w') = nextMessageId (db w) + 1) as Hok.
  { intros replyToId Hreply Htruthy Hvalid.
    assert (match truthy (SendMessageBody.replyToId body) with
            | Some r =>
                replyToMessage ← prisma.message.findUnique r;
                mret (match replyToMessage with
                      | None => false
                      | Some rm =>
                          bool_decide (Message.conversationId rm
                                       = SendMessageBody.conversationId body)
                      end)
            | None => mret true
            end w = (Return true, w)) as Hcheck.
    { rewrite Hreply, Htruthy. destruct replyToId as [r|]; [|done].
      destruct Hvalid as (rm & Hrm & Hcid).
      unfold mbind, Task_bind, prisma.message.findUnique, gets.
      rewrite Hrm. by rewrite bool_decide_true. }
    destruct (message_create_total
                (prisma.message.mkCreateInput
                   (SendMessageBody.conversationId body) userId None
                   (Some (SendMessageBody.content body))
                   (SendMessageBody.messageType (SendMessageBody.type body))
                   (SendMessageBody.mediaUrl body)
                   (SendMessageBody.replyToId body) None None)
                MessageStatus.sent w)
      as (t1 & row & Ht1 & Erow & Hcreate).
    { unfold prisma.message.references_ok. simpl.
      split; [by rewrite Ec|]. split; [done|]. split; [done|].
      rewrite Hreply. destruct replyToId as [r|]; [|done]. simpl.
      destruct Hvalid as (rm & -> & _). by eexists. }
    match type of Hcreate with _ = (_, ?x) => set (w1 := x) in * end.
    destruct Huser as [sender Hsender].
    assert ((d ← gets db; prisma.required (senderOf d row)) w1
            = (Return sender, w1)) as Hs.
    { unfold mbind, Task_bind, gets, senderOf. rewrite Erow. simpl.
      unfold prisma.userOf in *. simpl. by rewrite Hsender. }
    assert (∃ replyTo, (d ← gets db; prisma.required (replyToOf d row)) w1
                       = (Return replyTo, w1)) as [replyTo Hr].
    { unfold mbind, Task_bind, gets, replyToOf. rewrite Erow. simpl.
      rewrite Hreply. destruct replyToId as [r|]; [|by eexists].
      destruct Hvalid as (rm & Hrm & _).
      unfold prisma.messageOf in *. simpl. rewrite findFirst_app, Hrm.
      apply findFirst_Some in Hrm as [Hrm _].
      destruct (wf_message w rm Hwf Hrm) as (_ & _ & [u Hu'] & _).
      unfold senderOf, prisma.userOf in *. simpl. rewrite Hu'. by eexists. }
    destruct (conversation_update_total (SendMessageBody.conversationId body)
                (Message.createdAt row) w1) as (t2 & Ht2 & Hconv).
    { unfold prisma.conversationOf in *. simpl. by rewrite Ec. }
    match type of Hconv with _ = (_, ?x) => set (w2 := x) in * end.
    destruct (now_total w2) as (t3 & Ht3 & Hnow).
    match type of Hnow with _ = (_, ?x) => set (w3 := x) in * end.
    pose proof (participant_update_total
                  (SendMessageBody.conversationId body) userId t3 w3) as Hupd.
    eexists _, _. split.
    - unfold sendMessage. rewrite truthy_Some by done. apply try_catch_run.
      task_run by (eq_refl : prisma.conversation.findUnique_participants
                               (SendMessageBody.conversationId body) w
                             = (Return _, w)).
      rewrite Ec. simpl. rewrite Hp. simpl.
      task_run by Hcheck. simpl.
      task_run by Hcreate. task_run by Hs. task_run by Hr.
      task_run by Hconv. task_run by Hnow.
      task_run by (Hupd ltac:(simpl; by rewrite Hrow)).
      erewrite bind_run; reflexivity.
    - rewrite broadcastToUsers_db. simpl. by rewrite Erow. }
  destruct (SendMessageBody.replyToId body) as [r|] eqn:Hreply.
  2: { by apply Hok. }
  destruct (decide (r = 0)) as [->|Hr].
  2: { destruct r; [done| |]; by apply Hok. }
  unfold sendMessage. rewrite truthy_Some by done.
  apply (try_catch_throw _ _ _ ForeignKeyViolation).
  task_run by (eq_refl : prisma.conversation.findUnique_participants
                           (SendMessageBody.conversationId body) w
                         = (Return _, w)).
  rewrite Ec. simpl. rewrite Hp. simpl. rewrite Hreply.
  change (truthy (Some 0)) with (@None Z).
  task_run by (eq_refl : (mret true : Task bool) w = (Return true, w)).
  simpl. apply bind_throw, message_create_throws.
  intros (_ & _ & _ & Hbad). simpl in Hbad.
  rewrite wf_messageOf_zero in Hbad by done. by destruct Hbad.
Qed.

Lemma sendMessage_accepts_witness :
  wf Sample.world
  ∧ 3 ≠ 0
  ∧ is_Some (prisma.conversationOf (db Sample.world) 1)
  ∧ isParticipant 3 (prisma.participantsOf (db Sample.world) 1) = true
  ∧ sendMessage (Some 3) Sample.reply0 Sample.world
    = (Return (serverError "发送消息失败"), Sample.world)
  ∧ ∃ data w',
      sendMessage (Some 3) Sample.hi Sample.world
      = (Return (success data None), w')
      ∧ FormattedMessage.id data = 3.
Proof.
  assert (wf Sample.world) as Hwf
    by (apply (bool_decide_unpack _); vm_compute; reflexivity).
  assert (is_Some (prisma.conversationOf (db Sample.world) 1)) as Hc
    by (by eexists).
  assert (isParticipant 3 (prisma.participantsOf (db Sample.world) 1) = true)
    as Hp by (vm_compute; reflexivity).
  split; [exact Hwf|]. split; [done|]. split; [exact Hc|]. split; [exact Hp|].
  split.
  - exact (sendMessage_accepts 3 Sample.reply0 Sample.world Hwf
             ltac:(done) Hc Hp).
  - destruct (sendMessage_accepts 3 Sample.hi Sample.world Hwf
                ltac:(done) Hc Hp I) as (data & w' & Hrun & Hid & _).
    exists data, w'. split; [exact Hrun | exact Hid].
Defined.

(** X27.  A message that was sent is in the history: after a successful
    [sendMessage], a first page of the conversation without a cursor that
    is long enough for all its messages holds an item with the key, the
    sender and the content of the message sent, whoever reads it. *)
Theorem sent_message_in_history
    (user reader : option Z) (body : SendMessageBody.t) (conversationId : N)
    (query : PageQuery.t) (data : FormattedMessage.t)
    (page : Page.t FormattedMessage.t) (msg msg' : option string)
    (w w1 w2 : World) :
  sendMessage user body w = (Return (success data msg), w1) →
  SendMessageBody.conversationId body = Z.of_N conversationId →
  PageQuery.before query = None →
  PageQuery.skip query = 0 →
  getMessages reader conversationId query w1
  = (Return (success page msg'), w2) →
  Page.total page ≤ PageQuery.limitNum query →
  ∃ item,
    item ∈ Page.items page
    ∧ FormattedMessage.id item = FormattedMessage.id data
    ∧ FormattedMessage.senderId item = FormattedMessage.senderId data
    ∧ FormattedMessage.content item = Some (SendMessageBody.content body).
Proof.
  intros Hsend Hcid Hnone Hskip Hget Hlimit.
  apply sendMessage_inv in Hsend
    as (userId & row & sender & replyTo & t & w0 & _ & _ & _ & _ & _ & Hrow
        & _ & _ & _ & -> & _ & Hmsgs & _ & _ & _ & ->).
  apply getMessages_inv in Hget
    as (readerId & before & rows & found & t' & _ & _ & Hbefore & _ & Hrows
        & Hfound & -> & _ & _).
  rewrite Hnone in Hbefore. subst before.
  rewrite broadcastToUsers_db in Hrows, Hfound, Hlimit.
  rewrite Hmsgs in Hrows, Hlimit.
  simpl in Hlimit. rewrite Hskip in Hrows.
  change (Z.to_nat 0) with 0%nat in Hrows. rewrite drop_0 in Hrows.
  assert (Message.conversationId row = Z.of_N conversationId
          ∧ Message.deletedAt row = None
          ∧ Message.content row = Some (SendMessageBody.content body))
    as (Hrc & Hrd & Hrcontent) by (by rewrite Hrow, <- Hcid).
  assert (row ∈ rows) as Hin.
  { rewrite Hrows, take_ge.
    - apply orderByCreatedAtDesc_elem_of, list_elem_of_filter.
      split; [done|]. apply elem_of_app. right. left.
    - unfold prisma.orderByCreatedAtDesc.
      rewrite merge_sort_Permutation. lia. }
  apply mapM_Some in Hfound. apply list_elem_of_lookup in Hin as [i Hi].
  destruct (Forall2_lookup_l _ _ _ _ _ Hfound Hi) as (y & Hy & Hf).
  simpl in Hf. destruct (senderOf _ row) as [u|]; [|done]. simpl in Hf.
  destruct (replyToOf _ row) as [r|]; [|done]. injection Hf as <-.
  exists (formatMessage row u r). split.
  - simpl. apply list_elem_of_fmap. exists (row, u, r). split; [done|].
    apply list_elem_of_lookup. by exists i.
  - simpl. split; [done|]. split; [done | exact Hrcontent].
Qed.

Lemma sent_message_in_history_witness :
  SendMessageBody.conversationId Sample.hi = Z.of_N 1
  ∧ PageQuery.skip (PageQuery.mk None None None) = 0
  ∧ ∃ data msg w1 page msg' w2,
      sendMessage (Some 3) Sample.hi Sample.world
      = (Return (success data msg), w1)
      ∧ getMessages (Some 4) 1%N (PageQuery.mk None None None) w1
        = (Return (success page msg'), w2)
      ∧ Page.total page ≤ PageQuery.limitNum (PageQuery.mk None None None)
      ∧ FormattedMessage.id <$> Page.items page = [3; 1]
      ∧ ∃ item, item ∈ Page.items page
                ∧ FormattedMessage.id item = FormattedMessage.id data
                ∧ FormattedMessage.content item = Some "hi".
Proof.
  split; [reflexivity|]. split; [reflexivity|].
  eexists _, _, _, _, _, _.
  split; [vm_compute; reflexivity|]. split; [vm_compute; reflexivity|].
  assert (1 ≤ 20) as Hle by lia.
  split; [exact Hle|]. split; [vm_compute; reflexivity|].
  destruct (sent_message_in_history (Some 3) (Some 4) Sample.hi 1%N
              (PageQuery.mk None None None) _ _ _ _ Sample.world _ _
              eq_refl eq_refl eq_refl eq_refl eq_refl Hle)
    as (item & Hin & Hid & _ & Hcontent).
  exists item. split; [exact Hin|]. split; [exact Hid | exact Hcontent].
Defined.

(** ** Reading: who is told *)

(** X15.  The frame [message_read] of a successful [readMessages] with the
    key [x]: when message [x] exists and was sent by another user, the frame
    goes to the open sockets of that sender, once, and to nobody else,
    whether or not the message is of the conversation named in the request;
    when message [x] does not exist, or was sent by the caller, nothing is
    sent. *)
Theorem readMessages_notifies
    (userId conversationId x : Z) (msg : option string) (w w' : World) :
  userId ≠ 0 → x ≠ 0 →
  readMessages (Some userId) (ReadMessagesBody.mk conversationId (Some x)) w
  = (Return (success tt msg), w') →
  match prisma.messageOf (db w) x with
  | Some m =>
      if decide (Message.senderId m = userId) then
        ∀ v, received w' v = received w v
      else
        ∃ readAt,
          clock w ≤ readAt
          ∧ clock w' = readAt
          ∧ (∀ v, v ≠ Message.senderId m → received w' v = received w v)
          ∧ received w' (Message.senderId m)
            = delivered (message_read x conversationId userId readAt) 1
                <$> default [] (connections w !! Message.senderId m)
  | None => ∀ v, received w' v = received w v
  end.
Proof.
  intros Hu Hx H. unfold readMessages in H. rewrite truthy_Some in H by done.
  apply try_catch_Return_inv in H; [|done].
  cbn [ReadMessagesBody.lastReadMessageId ReadMessagesBody.conversationId] in H.
  rewrite !truthy_Some in H by done.
  task_bind H as conv w1 Hc. task_read Hc.
  destruct (prisma.conversationOf (db w) conversationId) as [c|] eqn:Ec;
    [|done].
  task_bind H as today w1 Hnow.
  apply now_inv in Hnow as (t0 & [= ->] & Ht0 & ->).
  task_bind H as lastReadAt w2 Hmark.
  task_bind Hmark as u' w4 Hupd.
  apply updateMany_inv in Hupd as (_ & t1 & Ht1 & ->).
  task_bind Hmark as lastMessage w4 Hl. task_read Hl. task_read Hmark.
  task_bind H as u w3 Hp. destruct u.
  apply participant_update_inv in Hp as (Hp & ->).
  task_bind H as u w3 Hn. task_ret H. clear H.
  task_bind Hn as message w4 Hm. task_read Hm.
  simpl in Hn.
  pose proof (messageOf_updateWhere (db w) (readable conversationId x userId)
                (prisma.message.set_status MessageStatus.read t1) x
                (λ _, eq_refl)) as Hmsg.
  rewrite Hmsg in Hn.
  match type of Hn with
  | context [prisma.messageOf (with_participants ?a ?b) x] =>
      change (prisma.messageOf (with_participants a b) x)
        with (prisma.messageOf b x) in Hn
  end.
  rewrite Hmsg in Hn. clear Hmsg.
  assert (∀ (message : ServerEvent) (w1 : World) (s v : Z),
            received (broadcastToUser s message w1) v
            = delivered message (if decide (v = s) then 1 else 0)%nat
                <$> default [] (connections w1 !! v)) as Hsend.
  { intros message w1 s v.
    change (broadcastToUser s message w1)
      with (broadcastToUsers [s] message w1).
    rewrite received_broadcastToUsers. f_equal. f_equal.
    unfold occurrences. rewrite filter_cons.
    destruct (decide (s = v)) as [->|Hne].
    - by rewrite decide_True.
    - by rewrite decide_False by congruence. }
  destruct (prisma.messageOf (db w) x) as [m|] eqn:Em; simpl in Hn.
  2: { task_read Hn. done. }
  assert (Message.senderId
            (if decide (readable conversationId x userId m)
             then prisma.message.set_status MessageStatus.read t1 m else m)
          = Message.senderId m) as Hsender
    by (destruct (decide (readable conversationId x userId m)); reflexivity).
  rewrite Hsender in Hn. clear Hsender.
  destruct (decide (Message.senderId m ≠ userId)) as [Hne|Heq].
  - rewrite decide_False by done.
    task_bind Hn as readAt w5 Hnow.
    apply now_inv in Hnow as (t & [= ->] & Ht & ->).
    task_read Hn. simpl in Ht, Ht1. exists t. split; [lia|]. split.
    { unfold broadcastToUser.
      match goal with
      | |- clock (deliver ?message ?w1 ?s) = _ =>
          by destruct (deliver_clock message w1 s) as [-> _]
      end. }
    split.
    + intros v Hv. rewrite Hsend, decide_False by done.
      apply (delivered_none _ w).
    + by rewrite Hsend, decide_True.
  - rewrite decide_True by (by destruct (decide (Message.senderId m = userId));
                            [|exfalso; apply Heq]).
    task_read Hn. done.
Qed.

Lemma readMessages_notifies_witness :
  3 ≠ 0 ∧ 1 ≠ 0
  ∧ ∃ msg w',
      readMessages (Some 3) (ReadMessagesBody.mk 1 (Some 1)) Sample.world
      = (Return (success tt msg), w')
      ∧ received w' 4 = [(7, [message_read 1 1 3 (clock w')]); (8, [])]
      ∧ received w' 3 = received Sample.world 3.
Proof.
  split; [done|]. split; [done|].
  eexists _, _. split; [vm_compute; reflexivity|].
  pose proof (readMessages_notifies 3 1 1 _ Sample.world _
                ltac:(done) ltac:(done) eq_refl) as H.
  change (prisma.messageOf (db Sample.world) 1)
    with (Some Sample.message1) in H.
  cbv beta iota in H.
  rewrite decide_False in H by (vm_compute; discriminate).
  destruct H as (readAt & _ & Hclock & Hothers & Hsender). subst readAt.
  split; [exact Hsender | exact (Hothers 3 ltac:(vm_compute; discriminate))].
Defined.

(** X24.  [readMessages] without a key, or with the key 0, which reads as
    no key: a success marks no message and sends no frame; it only moves
    the read position of the caller to the time read at the start of the
    call. *)
Theorem readMessages_without_key
    (user : option Z) (conversationId : Z) (lastReadMessageId : option Z)
    (msg : option string) (w w' : World) :
  truthy lastReadMessageId = None →
  readMessages user (ReadMessagesBody.mk conversationId lastReadMessageId) w
  = (Return (success tt msg), w') →
  ∃ userId today,
    truthy user = Some userId
    ∧ clock w ≤ today
    ∧ clock w' = today
    ∧ messages (db w') = messages (db w)
    ∧ connections w' = connections w
    ∧ ConversationParticipant.lastReadAt
        <$> prisma.findFirst
              (prisma.conversationParticipant.key conversationId userId)
              (participants (db w'))
      = Some today
    ∧ trace w' = trace w ++ [ParticipantUpdated conversationId userId today].
Proof.
  intros Hkey H. unfold readMessages in H.
  destruct (truthy user) as [userId|] eqn:Euser; [|done].
  apply try_catch_Return_inv in H; [|done].
  cbn [ReadMessagesBody.lastReadMessageId ReadMessagesBody.conversationId] in H.
  rewrite !Hkey in H.
  task_bind H as conv w1 Hc. task_read Hc.
  destruct (prisma.conversationOf (db w) conversationId) as [c|] eqn:Ec;
    [|done].
  task_bind H as today w1 Hnow.
  apply now_inv in Hnow as (t0 & [= ->] & Ht0 & ->).
  task_bind H as lastReadAt w2 Hmark. task_read Hmark.
  task_bind H as u w3 Hp. destruct u.
  apply participant_update_inv in Hp as (Hp & ->).
  task_bind H as u w3 Hn. task_read Hn. task_ret H. clear H.
  exists userId, t0. simpl in *.
  split; [done|]. split; [done|]. split; [done|]. split; [done|].
  split; [done|]. split; [|done].
  rewrite participant_after_update. by destruct Hp as [p ->].
Qed.

Lemma readMessages_without_key_witness :
  truthy (Some 0) = None
  ∧ ∃ msg w',
      readMessages (Some 3) (ReadMessagesBody.mk 1 (Some 0)) Sample.world
      = (Return (success tt msg), w')
      ∧ messages (db w') = messages (db Sample.world)
      ∧ connections w' = connections Sample.world
      ∧ ConversationParticipant.lastReadAt
          <$> prisma.findFirst (prisma.conversationParticipant.key 1 3)
                               (participants (db w'))
        = Some 1005.
Proof.
  split; [reflexivity|].
  eexists _, _. split; [vm_compute; reflexivity|].
  destruct (readMessages_without_key (Some 3) 1 (Some 0) _ Sample.world _
              eq_refl eq_refl)
    as (userId & today & Hu & _ & Hclock & Hmsgs & Hconns & Hread & _).
  injection Hu as <-. subst today.
  split; [exact Hmsgs|]. split; [exact Hconns | exact Hread].
Defined.

Lemma readMessages_notify_returns (lastReadMessageId : option Z)
    (conversationId userId : Z) r w w' :
  match truthy lastReadMessageId with
  | Some x =>
      message ← prisma.message.findUnique x;
      match message with
      | Some m =>
          if decide (Message.senderId m ≠ userId) then
            readAt ← now;
            modify (broadcastToUser (Message.senderId m)
                      (message_read x conversationId userId readAt))
          else mret tt
      | None => mret tt
      end
  | None => mret tt
  end w = (r, w') →
  r = Return tt.
Proof.
  destruct (truthy lastReadMessageId) as [x|]; [|by intros [= <- _]].
  unfold mbind at 1, Task_bind, prisma.message.findUnique, gets.
  destruct (prisma.messageOf (db w) x) as [m|]; [|by intros [= <- _]].
  destruct (decide (Message.senderId m ≠ userId)); [|by intros [= <- _]].
  unfold mbind, Task_bind, now, modify. by intros [= <- _].
Qed.



(** ** The list of conversations: the page *)

Lemma Forall2_fmap_eq {A B C} (f : A → C) (g : B → C) (l : list A)
    (k : list B) :
  Forall2 (λ x y, f x = g y) l k → f <$> l = g <$> k.
Proof.
  induction 1 as [|x y l k Hxy _ IH]; [done|].
  by rewrite !fmap_cons, Hxy, IH.
Qed.

Lemma date_le_total : Total date_le.
Proof. intros [a|] [b|]; simpl; lia || tauto. Qed.

Lemma date_le_trans : Transitive date_le.
Proof. intros [a|] [b|] [c|]; simpl; lia || tauto. Qed.

Lemma later_first_total : Total prisma.later_first.
Proof. intros a b. unfold prisma.later_first. apply date_le_total. Qed.

Lemma later_first_trans : Transitive prisma.later_first.
Proof.
  intros a b c. unfold prisma.later_first. intros Hab Hbc.
  by apply (date_le_trans _ (Conversation.lastMessageAt b)).
Qed.

Lemma orderByLastMessageAtDesc_sorted rows :
  StronglySorted prisma.later_first (prisma.orderByLastMessageAtDesc rows).
Proof.
  exact (@StronglySorted_merge_sort _ prisma.later_first _
           later_first_trans later_first_total rows).
Qed.

Lemma conversationDetail_row (d : Db) (c : Conversation.t)
    (det : ConversationDetail.t) :
  conversationDetail d c = Some det →
  ConversationDetail.row det = c
  ∧ participantsWithUser d (Conversation.id c)
    = Some (ConversationDetail.participants det).
Proof.
  unfold conversationDetail. intros H.
  destruct (participantsWithUser d (Conversation.id c)) as [ps|]; [|done].
  simpl in H. destruct (latestMessages d (Conversation.id c)) as [ms|]; [|done].
  simpl in H. by injection H as <-.
Qed.

(** What a successful [getConversations] has read. *)
Lemma getConversations_inv (user : option Z) (query : PageQuery.t)
    (page : Page.t ConversationBasic.t) (msg : option string) (w w' : World) :
  getConversations user query w = (Return (success page msg), w') →
  ∃ userId rows dets,
    truthy user = Some userId
    ∧ w' = w
    ∧ 0 ≤ PageQuery.skip query
    ∧ rows = take (Z.to_nat (PageQuery.limitNum query))
               (drop (Z.to_nat (PageQuery.skip query))
                  (prisma.orderByLastMessageAtDesc
                     (filter (λ c, Exists (λ p, ConversationParticipant.userId p
                                                = userId)
                                          (prisma.participantsOf (db w)
                                             (Conversation.id c)))
                             (conversations (db w)))))
    ∧ Forall2 (λ c det, conversationDetail (db w) c = Some det) rows dets
    ∧ Forall2 (λ det e,
                 formatConversation userId
                   (filter (λ p, ConversationParticipant.userId p = userId
                                 ∧ ConversationParticipant.conversationId p
                                     ∈ (Conversation.id <$> rows))
                           (participants (db w)))
                   det w
                 = (Return e, w))
              dets (Page.items page)
    ∧ Page.total page
      = Z.of_nat (length (filter (λ p, ConversationParticipant.userId p = userId)
                                 (participants (db w))))
    ∧ Page.hasMore page
      = bool_decide (PageQuery.skip query + Z.of_nat (length dets)
                     < Page.total page)
    ∧ Page.page page = PageQuery.pageNum query
    ∧ Page.limit page = PageQuery.limitNum query.
Proof.
  intros H. unfold getConversations in H.
  destruct (truthy user) as [userId|] eqn:Euser; [|done].
  apply try_catch_Return_inv in H; [|done].
  task_bind H as d w1 Hd. task_read Hd.
  task_bind H as rows w1 Hrows.
  apply paginate_inv in Hrows as (Hskip & Hrows & ->).
  task_bind H as dets w1 Hdets. task_read Hdets.
  task_bind H as total w1 Htotal. task_read Htotal.
  task_bind H as ucp w1 Hucp. task_read Hucp.
  task_bind H as items w1 Hitems.
  erewrite forEachTask_reads in Hitems; [|intros det; reflexivity].
  injection Hitems as <- <-.
  task_ret H. injection H as -> _.
  exists userId, rows, dets. simpl.
  split; [done|]. split; [done|]. split; [done|]. split; [done|].
  split; [by apply mapM_Some|].
  split; [|done].
  apply Forall2_fmap_r, Forall_Forall2_diag, Forall_forall.
  intros det _. reflexivity.
Qed.

(** X16.  A page of the list of conversations shows the conversations in
    the order of their last message, the latest first and those without a
    message last; the [participants] of an entry are users of participant
    rows of that conversation and never the caller; the page is no longer
    than the limit; [total] is the number of participant rows of the
    caller, and [hasMore] says whether rows remain after the page. *)
Theorem getConversations_page
    (user : option Z) (query : PageQuery.t)
    (page : Page.t ConversationBasic.t) (msg : option string) (w w' : World) :
  getConversations user query w = (Return (success page msg), w') →
  ∃ userId,
    truthy user = Some userId
    ∧ StronglySorted (λ a b, date_le b a)
        (ConversationBasic.lastMessageAt <$> Page.items page)
    ∧ Forall (λ e,
                Forall (λ u,
                          User.id u ≠ userId
                          ∧ u ∈ users (db w)
                          ∧ Exists (λ p, ConversationParticipant.userId p
                                         = User.id u)
                                   (prisma.participantsOf (db w)
                                      (ConversationBasic.id e)))
                       (ConversationBasic.participants e))
             (Page.items page)
    ∧ Z.of_nat (length (Page.items page)) ≤ PageQuery.limitNum query
    ∧ Page.total page
      = Z.of_nat (length (filter (λ p, ConversationParticipant.userId p = userId)
                                 (participants (db w))))
    ∧ (Page.hasMore page = true
       ↔ PageQuery.skip query + Z.of_nat (length (Page.items page))
         < Page.total page).
Proof.
  intros H. apply getConversations_inv in H
    as (userId & rows & dets & Hu & _ & Hskip & Hrows & Hdets & Hitems
        & Htotal & Hmore & _ & _).
  exists userId. split; [done|].
  assert (length (Page.items page) = length rows) as Hlen.
  { by rewrite <- (Forall2_length _ _ _ Hitems), (Forall2_length _ _ _ Hdets). }
  refine (conj _ (conj _ (conj _ (conj Htotal _)))).
  - assert (ConversationBasic.lastMessageAt <$> Page.items page
            = Conversation.lastMessageAt <$> rows) as ->.
    { symmetry. apply Forall2_fmap_eq.
      eapply Forall2_trans; [|exact Hdets|exact Hitems].
      intros c det e Hdet He. apply conversationDetail_row in Hdet as [Hrow _].
      unfold formatConversation in He. injection He as <-. simpl.
      by rewrite Hrow. }
    apply (StronglySorted_fmap Conversation.lastMessageAt prisma.later_first);
      [by intros a b Hab|].
    rewrite Hrows. apply StronglySorted_page, orderByLastMessageAtDesc_sorted.
  - apply Forall_forall. intros e He.
    apply list_elem_of_lookup in He as [i Hi].
    destruct (Forall2_lookup_r _ _ _ _ _ Hitems Hi) as (det & Hdi & He).
    destruct (Forall2_lookup_r _ _ _ _ _ Hdets Hdi) as (c & Hci & Hdet).
    apply conversationDetail_row in Hdet as [Hrow Hps].
    unfold formatConversation in He. injection He as <-. simpl.
    rewrite Hrow. unfold otherParticipants.
    apply Forall_fmap, Forall_forall. intros [p u] Hpu.
    apply list_elem_of_filter in Hpu as [Hne Hpu]. simpl in *.
    unfold participantsWithUser in Hps. apply mapM_Some in Hps.
    apply list_elem_of_lookup in Hpu as [j Hj].
    destruct (Forall2_lookup_r _ _ _ _ _ Hps Hj) as (p0 & Hp0 & Hf).
    simpl in Hf.
    destruct (prisma.userOf (db w) (ConversationParticipant.userId p0))
      as [u0|] eqn:Eu; [|done].
    simpl in Hf. injection Hf as <- <-.
    apply findFirst_Some in Eu as [Hin Hid].
    split; [by rewrite Hid|]. split; [done|].
    apply Exists_exists. exists p0. split; [|done].
    apply list_elem_of_lookup. by exists j.
  - rewrite Hlen, Hrows, length_take.
    pose proof (N2Z.is_nonneg (default 20%N (PageQuery.limit query))).
    unfold PageQuery.limitNum in *. lia.
  - rewrite Hmore, Hlen, <- (Forall2_length _ _ _ Hdets).
    apply bool_decide_eq_true.
Qed.

Lemma getConversations_page_witness :
  ∃ page msg w',
    getConversations (Some 4) (PageQuery.mk None None None) Sample.world
    = (Return (success page msg), w')
    ∧ (λ e, User.id <$> ConversationBasic.participants e) <$> Page.items page
      = [[3]]
    ∧ Page.total page = 1
    ∧ Page.hasMore page = false
    ∧ Forall (λ e, Forall (λ u, User.id u ≠ 4) (ConversationBasic.participants e))
             (Page.items page).
Proof.
  eexists _, _, _. split; [vm_compute; reflexivity|].
  split; [vm_compute; reflexivity|].
  split; [reflexivity|]. split; [reflexivity|].
  destruct (getConversations_page (Some 4) (PageQuery.mk None None None) _ _
              Sample.world _ eq_refl) as (userId & Hu & _ & Hitems & _).
  injection Hu as <-.
  eapply Forall_impl; [exact Hitems|]. intros e He.
  eapply Forall_impl; [exact He|]. by intros u (Hne & _).
Defined.

(** ** One conversation *)

Lemma findFirst_unique {A} (f : A → Z) (rows : list A) (x : A) :
  NoDup (f <$> rows) → x ∈ rows →
  prisma.findFirst (λ y, f y = f x) rows = Some x.
Proof.
  intros Hnd Hx. unfold prisma.findFirst.
  induction rows as [|y rows IH]; [by apply not_elem_of_nil in Hx|].
  rewrite fmap_cons in Hnd. apply NoDup_cons in Hnd as [Hy Hnd].
  rewrite filter_cons. destruct (decide (f y = f x)) as [Heq|Hne].
  - simpl. f_equal. apply elem_of_cons in Hx as [->|Hx]; [done|].
    exfalso. apply Hy. rewrite Heq. by apply list_elem_of_fmap_2.
  - apply IH; [done|].
    apply elem_of_cons in Hx as [->|Hx]; [done|exact Hx].
Qed.

(** X17.  [getConversation] and [getConversations] agree: when the keys of
    the conversations are unique and the tables are sound, every entry of a
    page of the list is what [getConversation] answers for the key of the
    entry, with the same unread count, the same flags, the same other
    participants and the same last message; neither request changes
    anything. *)
Theorem getConversation_agrees_with_list
    (user : option Z) (query : PageQuery.t)
    (page : Page.t ConversationBasic.t) (msg : option string) (w w' : World)
    (e : ConversationBasic.t) :
  wf w →
  NoDup (Conversation.id <$> conversations (db w)) →
  getConversations user query w = (Return (success page msg), w') →
  e ∈ Page.items page →
  getConversation user (Z.to_N (ConversationBasic.id e)) w
  = (Return (success e None), w)
  ∧ w' = w.
Proof.
  intros Hwf Hnd H He.
  apply getConversations_inv in H
    as (userId & rows & dets & Hu & -> & _ & Hrows & Hdets & Hitems & _).
  split; [|done].
  apply list_elem_of_lookup in He as [i Hi].
  destruct (Forall2_lookup_r _ _ _ _ _ Hitems Hi) as (det & Hdi & Hfmt).
  destruct (Forall2_lookup_r _ _ _ _ _ Hdets Hdi) as (c & Hci & Hdet).
  assert (c ∈ rows) as Hc by (apply list_elem_of_lookup; eauto).
  assert (c ∈ conversations (db w)
          ∧ Exists (λ p, ConversationParticipant.userId p = userId)
                   (prisma.participantsOf (db w) (Conversation.id c)))
    as [Hin Hmember].
  { rewrite Hrows in Hc. apply page_elem_of in Hc.
    unfold prisma.orderByLastMessageAtDesc in Hc.
    rewrite merge_sort_Permutation in Hc.
    by apply list_elem_of_filter in Hc as [? ?]. }
  destruct (conversationDetail_annotations w userId rows c det Hc Hmember Hdet)
    as (Hrow & (p & Hp & Hfind) & _).
  unfold formatConversation in Hfmt. rewrite Hrow, Hfind in Hfmt.
  injection Hfmt as <-. cbn [ConversationBasic.id].
  destruct (wf_conversation w c Hwf Hin) as [Hpos _].
  unfold getConversation. rewrite Hu, Z2N.id by lia.
  apply try_catch_run.
  task_run by (eq_refl : prisma.conversationParticipant.findUnique
                           (Conversation.id c) userId w = (Return _, w)).
  rewrite Hp.
  task_run by (eq_refl : gets db w = _).
  unfold prisma.conversationOf.
  rewrite (findFirst_unique Conversation.id (conversations (db w)) c Hnd Hin).
  rewrite Hdet.
  task_run by (eq_refl : prisma.required (Some det) w = _).
  task_run by (eq_refl : prisma.message.count
                           (unread (Conversation.id c) userId
                              (ConversationParticipant.lastReadAt p)) w
                         = (Return _, w)).
  reflexivity.
Qed.

Lemma getConversation_agrees_with_list_witness :
  wf Sample.world
  ∧ NoDup (Conversation.id <$> conversations (db Sample.world))
  ∧ ∃ page msg w' e,
      getConversations (Some 4) (PageQuery.mk None None None) Sample.world
      = (Return (success page msg), w')
      ∧ Page.items page = [e]
      ∧ ConversationBasic.unreadCount e = 1
      ∧ getConversation (Some 4) 1%N Sample.world
        = (Return (success e None), Sample.world).
Proof.
  assert (wf Sample.world) as Hwf
    by (apply (bool_decide_unpack _); vm_compute; reflexivity).
  assert (NoDup (Conversation.id <$> conversations (db Sample.world))) as Hnd
    by (apply (bool_decide_unpack _); vm_compute; reflexivity).
  split; [exact Hwf|]. split; [exact Hnd|].
  eexists _, _, _, _. split; [vm_compute; reflexivity|].
  split; [reflexivity|]. split; [reflexivity|].
  exact (proj1 (getConversation_agrees_with_list (Some 4)
                  (PageQuery.mk None None None) _ _ Sample.world _ _ Hwf Hnd
                  eq_refl ltac:(left))).
Defined.

Lemma conversationDetail_total w c :
  wf w → is_Some (conversationDetail (db w) c).
Proof.
  intros Hwf. unfold conversationDetail.
  destruct (participantsWithUser_total w (Conversation.id c) Hwf) as [ps ->].
  simpl. unfold latestMessages.
  destruct (withSender_total w
              (take 1 (prisma.orderByCreatedAtDesc
                         (prisma.messagesOf (db w) (Conversation.id c)))) Hwf)
    as [ms ->]; [|by eexists].
  apply Forall_forall. intros m Hm. apply (subseteq_take _ _ m) in Hm.
  apply (proj1 (orderByCreatedAtDesc_elem_of _ _)) in Hm.
  by apply messagesOf_elem_of in Hm as [? _].
Qed.





(** ** Direct conversations: the rejections, one conversation for a pair *)



Lemma filter_ext_in {A} (P Q : A → Prop)
    `{PDec : !∀ x, Decision (P x)} `{QDec : !∀ x, Decision (Q x)}
    (rows : list A) :
  (∀ x, x ∈ rows → P x ↔ Q x) → filter P rows = filter Q rows.
Proof.
  intros H. induction rows as [|x rows IH]; [done|].
  rewrite !filter_cons.
  assert (P x ↔ Q x) as HPQ by (apply H; left).
  rewrite IH by (intros; apply H; by right).
  destruct (decide (P x)), (decide (Q x)); tauto.
Qed.

Lemma conversation_create_inv (a b : Z) w r w' :
  prisma.conversation.create ConversationType.direct [a; b] w = (r, w') →
  w' = w ∨ ∃ t, clock w ≤ t ∧ a ≠ b ∧ w' = directCreated a b t w.
Proof.
  intros H.
  destruct (decide (is_Some (prisma.userOf (db w) a)
                    ∧ is_Some (prisma.userOf (db w) b) ∧ a ≠ b))
    as [(Ha & Hb & Hab)|Hno].
  - destruct (conversation_create_total a b w Ha Hb Hab) as (t & Ht & Hrun).
    rewrite Hrun in H. injection H as _ <-. right. by exists t.
  - left. unfold prisma.conversation.create in H.
    task_run H by (eq_refl : gets db w = _).
    destruct (decide (Forall _ _)) as [Hall|]; [|by injection H].
    destruct (decide (NoDup _)) as [Hnd|]; [|by injection H].
    exfalso. apply Hno.
    apply Forall_cons in Hall as [Ha Hall].
    apply Forall_cons in Hall as [Hb _].
    apply NoDup_cons in Hnd as [Hnd _].
    split; [done|]. split; [done|]. intros ->. apply Hnd. left.
Qed.

Lemma direct_unique_directCreated (a b : Z) (t : DateTime) w :
  wf w → a ≠ b →
  prisma.findFirst (directBetween (db w) a b) (conversations (db w)) = None →
  direct_unique w → direct_unique (directCreated a b t w).
Proof.
  intros Hwf Hab Hnone Huniq x y.
  change (conversations (db (directCreated a b t w)))
    with (conversations (db w) ++ [newDirect w t]).
  rewrite filter_app, length_app.
  rewrite (filter_ext_in (directBetween (db (directCreated a b t w)) x y)
             (directBetween (db w) x y) (conversations (db w))).
  2: { intros c Hc. apply (wf_conversation w c Hwf) in Hc.
       unfold directBetween.
       rewrite participantsOf_directCreated_old by lia. done. }
  rewrite filter_cons, filter_nil.
  destruct (decide (directBetween (db (directCreated a b t w)) x y
                      (newDirect w t))) as [Hnew|].
  2: { specialize (Huniq x y). simpl. lia. }
  assert (filter (directBetween (db w) x y) (conversations (db w)) = [])
    as ->; [|simpl; lia].
  destruct Hnew as (_ & Hall & Hx & Hy).
  change (Conversation.id (newDirect w t))
    with (nextConversationId (db w)) in Hall, Hx, Hy.
  pose proof (participantsOf_directCreated_new a b t w Hwf) as Hps.
  destruct (prisma.participantsOf _ _) as [|pa [|pb [|pc l]]];
    try discriminate Hps.
  injection Hps as Hpa Hpb.
  apply Forall_cons in Hall as [Ha Hall].
  apply Forall_cons in Hall as [Hb _].
  rewrite Hpa, !elem_of_cons, elem_of_nil in Ha.
  rewrite Hpb, !elem_of_cons, elem_of_nil in Hb.
  assert ((x = a ∧ y = b) ∨ (x = b ∧ y = a)) as [[-> ->]|[-> ->]].
  { apply Exists_cons in Hx as [Hx|Hx];
      [|apply Exists_cons in Hx as [Hx|Hx]; [|by apply Exists_nil in Hx]];
    apply Exists_cons in Hy as [Hy|Hy];
      try (apply Exists_cons in Hy as [Hy|Hy]; [|by apply Exists_nil in Hy]);
    lia. }
  - by apply head_None.
  - rewrite findFirst_directBetween_sym in Hnone. by apply head_None.
Qed.

Lemma required_world {A} (x : option A) r w w' :
  prisma.required x w = (r, w') → w' = w.
Proof. destruct x; by intros [= _ <-]. Qed.

(** X20.  [createDirectConversation] keeps the direct conversations
    unique, whatever it answers: when the tables are sound and no pair of
    users has two direct conversations before the request, none has two
    after it.  The lookup and the insertion are modelled as one step. *)
Theorem createDirectConversation_unique
    (user : option Z) (targetUserId : Z) (r : Reply ConversationBasic.t)
    (w w' : World) :
  wf w → direct_unique w →
  createDirectConversation user targetUserId w = (Return r, w') →
  direct_unique w'.
Proof.
  intros Hwf Huniq H. unfold createDirectConversation in H.
  destruct (truthy user) as [userId|]; [|by injection H as _ <-].
  destruct (decide (userId = targetUserId)) as [|Hne];
    [by injection H as _ <-|].
  unfold try_catch in H.
  match type of H with
  | match ?body w with _ => _ end = _ =>
      destruct (body w) as [x w1] eqn:Hbody
  end.
  assert (w1 = w') as -> by (destruct x; by injection H). clear H.
  apply bind_inv in Hbody as [(tu & w1 & Htu & H)|(e & Htu & _)];
    [|discriminate Htu].
  task_read Htu.
  destruct (prisma.userOf (db w) targetUserId) as [tu|];
    [|by injection H as _ <-].
  apply bind_inv in H as [(d & w1 & Hd & H)|(e & Hd & _)];
    [|discriminate Hd].
  task_read Hd.
  destruct (prisma.findFirst _ (conversations (db w))) as [c|] eqn:Ec.
  - apply bind_inv in H as [(ps & w1 & Hps & H)|(e & Hps & _)];
      apply required_world in Hps; subst; [|done].
    apply bind_inv in H as [(p & w1 & Hp & H)|(e & Hp & _)];
      [|discriminate Hp].
    task_read Hp.
    apply bind_inv in H as [(lm & w1 & Hlm & H)|(e & Hlm & _)];
      apply required_world in Hlm; subst; [|done].
    by injection H as _ <-.
  - apply bind_inv in H as [(row & w1 & Hcreate & H)|(e & Hcreate & _)].
    + injection H as _ <-.
      apply conversation_create_inv in Hcreate as [->|(t & _ & _ & ->)];
        [done|].
      by apply direct_unique_directCreated.
    + by apply conversation_create_inv in Hcreate as [->|(t & _ & _ & ->)];
        [|apply direct_unique_directCreated].
Qed.

Lemma createDirectConversation_unique_witness :
  wf Sample.world
  ∧ direct_unique Sample.world
  ∧ ∃ d w',
      createDirectConversation (Some 3) 5 Sample.world
      = (Return (success d None), w')
      ∧ length (conversations (db w')) = 2%nat
      ∧ direct_unique w'.
Proof.
  assert (wf Sample.world) as Hwf
    by (apply (bool_decide_unpack _); vm_compute; reflexivity).
  assert (direct_unique Sample.world) as Huniq.
  { intros a b.
    pose proof (length_filter (directBetween (db Sample.world) a b)
                  (conversations (db Sample.world))) as Hle.
    exact Hle. }
  split; [exact Hwf|]. split; [exact Huniq|].
  eexists _, _. split; [vm_compute; reflexivity|]. split; [reflexivity|].
  exact (createDirectConversation_unique (Some 3) 5 _ Sample.world _ Hwf Huniq
           eq_refl).
Defined.

(** ** Calls: every conversation, every participant *)

(** X21.  [initiateCall] accepts the call of any participant of a
    conversation that exists, direct or not, when the tables are sound: the
    call message is stored with the status [missed] and is the last message
    of the conversation; its receiver is the first other participant in a
    direct conversation and null in any other; the read position of the
    caller is left as it is, unlike in [sendMessage]; and the frame
    [incoming_call] goes to the other participants, never to the caller. *)
Theorem initiateCall_accepts
    (userId : Z) (body : InitiateCallBody.t) (c : Conversation.t) (w : World) :
  wf w → userId ≠ 0 →
  prisma.conversationOf (db w) (InitiateCallBody.conversationId body) = Some c →
  isParticipant userId
    (prisma.participantsOf (db w) (InitiateCallBody.conversationId body))
  = true →
  ∃ row data w',
    initiateCall (Some userId) body w = (Return (success data None), w')
    ∧ messages (db w') = messages (db w) ++ [row]
    ∧ participants (db w') = participants (db w)
    ∧ FormattedMessage.id data = Message.id row
    ∧ Message.id row = nextMessageId (db w)
    ∧ Message.senderId row = userId
    ∧ Message.callStatus row = Some CallStatus.missed
    ∧ Message.receiverId row
      = (if decide (Conversation.type c = ConversationType.direct)
         then ConversationParticipant.userId
                <$> prisma.findFirst
                      (λ p, ConversationParticipant.userId p ≠ userId)
                      (prisma.participantsOf (db w)
                         (InitiateCallBody.conversationId body))
         else None)
    ∧ Conversation.lastMessageAt
        <$> prisma.conversationOf (db w') (InitiateCallBody.conversationId body)
      = Some (Some (Message.createdAt row))
    ∧ received w' userId = received w userId
    ∧ ∀ v, received w' v
           = delivered (incoming_call data (InitiateCallBody.type body))
               (occurrences v
                  (otherParticipantIds userId
                     (prisma.participantsOf (db w)
                        (InitiateCallBody.conversationId body))))
               <$> default [] (connections w !! v).
Proof.
  intros Hwf Hu Ec Hp.
  destruct (participant_row _ _ _ Hp) as (p & Hrow & Hin).
  assert (is_Some (prisma.userOf (db w) userId)) as [sender Hsender].
  { destruct (wf_participant w p Hwf Hin) as [_ Hpu].
    apply findFirst_Some in Hrow as [_ [_ Hpuser]]. by rewrite Hpuser in Hpu. }
  destruct (now_total w) as (t0 & Ht0 & Hnow0).
  match type of Hnow0 with _ = (_, ?x) => set (w0 := x) in * end.
  destruct (message_create_total
              (prisma.message.mkCreateInput
                 (InitiateCallBody.conversationId body) userId
                 (if decide (Conversation.type c = ConversationType.direct)
                  then ConversationParticipant.userId
                         <$> prisma.findFirst
                               (λ p, ConversationParticipant.userId p ≠ userId)
                               (prisma.participantsOf (db w)
                                  (InitiateCallBody.conversationId body))
                  else None)
                 (Some (if decide (InitiateCallBody.type body = CallType.audio)
                        then "语音通话" else "视频通话"))
                 (if decide (InitiateCallBody.type body = CallType.audio)
                  then MessageType.call_audio else MessageType.call_video)
                 None None (Some CallStatus.missed) (Some t0))
              MessageStatus.sent w0)
    as (t1 & row & Ht1 & Erow & Hcreate).
  { unfold prisma.message.references_ok. simpl.
    split; [by rewrite Ec|]. split; [by rewrite Hsender|]. split; [|done].
    destruct (decide (Conversation.type c = ConversationType.direct));
      [|done].
    destruct (prisma.findFirst _ (prisma.participantsOf _ _)) as [q|] eqn:Eq;
      [|done].
    simpl. apply findFirst_Some in Eq as [Hq _].
    apply participantsOf_elem_of in Hq as [Hq _].
    by destruct (wf_participant w q Hwf Hq) as [_ ?]. }
  match type of Hcreate with _ = (_, ?x) => set (w1 := x) in * end.
  assert ((d ← gets db; prisma.required (senderOf d row)) w1
          = (Return sender, w1)) as Hs.
  { unfold mbind, Task_bind, gets, senderOf. rewrite Erow. simpl.
    unfold prisma.userOf in *. simpl. by rewrite Hsender. }
  destruct (conversation_update_total (InitiateCallBody.conversationId body)
              (Message.createdAt row) w1) as (t2 & Ht2 & Hconv).
  { unfold prisma.conversationOf in *. simpl. by rewrite Ec. }
  match type of Hconv with _ = (_, ?x) => set (w2 := x) in * end.
  exists row. eexists _, _. split.
  - unfold initiateCall. rewrite truthy_Some by done. apply try_catch_run.
    task_run by (eq_refl : prisma.conversation.findUnique_participants
                             (InitiateCallBody.conversationId body) w
                           = (Return _, w)).
    rewrite Ec. cbn [mbind option_bind]. rewrite Hp. cbn [negb]. cbv zeta.
    task_run by Hnow0. task_run by Hcreate. task_run by Hs.
    task_run by Hconv.
    erewrite bind_run; reflexivity.
  - rewrite broadcastToUsers_db.
    split; [reflexivity|]. split; [reflexivity|]. split; [reflexivity|].
    split; [by rewrite Erow|]. split; [by rewrite Erow|].
    split; [by rewrite Erow|]. split; [by rewrite Erow|].
    split.
    { subst w2. cbn [db].
      pose proof (conversationOf_update (db w1)
                    (InitiateCallBody.conversationId body)
                    (prisma.conversation.set_lastMessageAt
                       (Some (Message.createdAt row)) t2)) as Hupd.
      rewrite Hupd by done.
      unfold prisma.conversationOf in *. subst w1 w0. cbn [db conversations].
      by rewrite Ec. }
    split.
    + rewrite received_broadcastToUsers, occurrences_others.
      apply (delivered_none _ w).
    + intros v. by rewrite received_broadcastToUsers.
Qed.

Lemma initiateCall_accepts_witness :
  wf Team.world ∧ 3 ≠ 0
  ∧ prisma.conversationOf (db Team.world) 2 = Some Team.conversation2
  ∧ isParticipant 3 (prisma.participantsOf (db Team.world) 2) = true
  ∧ ∃ row data w',
      initiateCall (Some 3) Team.videoCall Team.world
      = (Return (success data None), w')
      ∧ Message.receiverId row = None
      ∧ messages (db w') = messages (db Team.world) ++ [row]
      ∧ received w' 3 = []
      ∧ received w' 4
        = [(7, [incoming_call data CallType.video]); (8, [])]
      ∧ received w' 5 = [(9, [incoming_call data CallType.video])].
Proof.
  assert (wf Team.world) as Hwf
    by (apply (bool_decide_unpack _); vm_compute; reflexivity).
  assert (isParticipant 3 (prisma.participantsOf (db Team.world) 2) = true)
    as Hp by (vm_compute; reflexivity).
  split; [exact Hwf|]. split; [done|]. split; [reflexivity|].
  split; [exact Hp|].
  destruct (initiateCall_accepts 3 Team.videoCall Team.conversation2
              Team.world Hwf ltac:(done) eq_refl Hp)
    as (row & data & w' & Hrun & Hmsgs & _ & _ & _ & _ & _ & Hrecv & _
        & Hself & Hall).
  exists row, data, w'. split; [exact Hrun|].
  split; [exact Hrecv|]. split; [exact Hmsgs|].
  split; [exact Hself|].
  split; [exact (Hall 4) | exact (Hall 5)].
Defined.

(** ** What no request undoes *)

Lemma socket_grows_refl ws : socket_grows ws ws.
Proof. by split; [|split]. Qed.

Lemma sockets_refl (x : option (list WebSocket.t)) :
  option_Forall2 (Forall2 socket_grows) x x.
Proof.
  destruct x as [l|]; constructor.
  apply Forall_Forall2_diag, Forall_forall. intros ws _.
  apply socket_grows_refl.
Qed.

Lemma sockets_trans (x y z : option (list WebSocket.t)) :
  option_Forall2 (Forall2 socket_grows) x y →
  option_Forall2 (Forall2 socket_grows) y z →
  option_Forall2 (Forall2 socket_grows) x z.
Proof.
  intros Hxy Hyz.
  destruct Hxy as [l k Hlk|]; inversion Hyz as [k' m Hkm|]; subst;
    constructor.
  eapply Forall2_trans; [|exact Hlk|exact Hkm].
  intros a b c (H1 & H2 & H3) (H4 & H5 & H6).
  split; [congruence|]. split; [congruence|]. by etrans.
Qed.

Lemma extends_refl w : extends w w.
Proof.
  unfold extends.
  refine (conj _ (conj _ (conj _ (conj _ (conj _ (conj _ (conj _ _)))))));
    try done.
  intros u. apply sockets_refl.
Qed.

Lemma extends_trans w1 w2 w3 : extends w1 w2 → extends w2 w3 → extends w1 w3.
Proof.
  intros (Hc & Hu & Hg & Hcs & Hps & Hms & Htr & Hs)
         (Hc' & Hu' & Hg' & Hcs' & Hps' & Hms' & Htr' & Hs').
  unfold extends.
  refine (conj _ (conj _ (conj _ (conj _ (conj _ (conj _ (conj _ _))))))).
  - lia.
  - congruence.
  - congruence.
  - by etrans.
  - by etrans.
  - by etrans.
  - by etrans.
  - intros u. by apply (sockets_trans _ (connections w2 !! u)).
Qed.

(** A write to the tables that keeps the old rows at the front. *)
Lemma extends_tables w d' t tk tr :
  clock w ≤ t →
  users d' = users (db w) →
  groups d' = groups (db w) →
  conversationCore <$> conversations (db w)
    `prefix_of` conversationCore <$> conversations d' →
  participantCore <$> participants (db w)
    `prefix_of` participantCore <$> participants d' →
  messageCore <$> messages (db w) `prefix_of` messageCore <$> messages d' →
  extends w (mkWorld d' t tk (connections w) (trace w ++ tr)).
Proof.
  intros. unfold extends. simpl.
  refine (conj _ (conj _ (conj _ (conj _ (conj _ (conj _ (conj _ _)))))));
    try done.
  - by exists tr.
  - intros u. apply sockets_refl.
Qed.

Lemma extends_later w t tk :
  clock w ≤ t →
  extends w (mkWorld (db w) t tk (connections w) (trace w)).
Proof.
  intros Ht. rewrite <- (app_nil_r (trace w)).
  by apply extends_tables.
Qed.

Lemma core_updateWhere {A B} (g : A → B) (P : A → Prop)
    `{PDec : !∀ x, Decision (P x)} (f : A → A) (rows : list A) :
  (∀ x, g (f x) = g x) → g <$> prisma.updateWhere P f rows = g <$> rows.
Proof.
  intros Hg. unfold prisma.updateWhere. rewrite <- list_fmap_compose.
  apply list_fmap_ext. intros i x _. simpl.
  destruct (decide (P x)); [apply Hg | done].
Qed.

Lemma prefix_snoc {A B} (g : A → B) (l k : list A) :
  g <$> l `prefix_of` g <$> (l ++ k).
Proof. rewrite fmap_app. by eexists. Qed.

Section Respects.
Context {A B : Type}.

Lemma respects_ret (a : A) : respects (mret a).
Proof. intros w r w' [= <- <-]. apply extends_refl. Qed.

Lemma respects_throw (e : PrismaError) : respects (throw e : Task A).
Proof. intros w r w' [= <- <-]. apply extends_refl. Qed.

Lemma respects_gets (f : World → A) : respects (gets f).
Proof. intros w r w' [= <- <-]. apply extends_refl. Qed.

Lemma respects_required (x : option A) : respects (prisma.required x).
Proof. destruct x; [apply respects_ret | apply respects_throw]. Qed.

Lemma respects_bind (c : Task A) (f : A → Task B) :
  respects c → (∀ a, respects (f a)) → respects (c ≫= f).
Proof.
  intros Hc Hf w r w' H.
  apply bind_inv in H as [(a & w1 & H1 & H2) | (e & H1 & _)].
  - eapply extends_trans; [exact (Hc _ _ _ H1) | exact (Hf _ _ _ _ H2)].
  - exact (Hc _ _ _ H1).
Qed.

Lemma respects_try_catch (body : Task A) (h : A) :
  respects body → respects (try_catch body h).
Proof.
  intros Hb w r w' H.
  apply try_catch_inv in H as [(a & H & _) | (e & H & _)];
    exact (Hb _ _ _ H).
Qed.

End Respects.

Lemma respects_paginate {A} (skip take_ : Z) (rows : list A) :
  respects (prisma.paginate skip take_ rows).
Proof.
  unfold prisma.paginate.
  destruct (decide (skip < 0)); [apply respects_throw | apply respects_ret].
Qed.

Lemma respects_forEachTask {A B} (f : A → Task B) (l : list A) :
  (∀ x, respects (f x)) → respects (forEachTask f l).
Proof.
  intros Hf. induction l as [|x l IH]; simpl; [apply respects_ret|].
  apply respects_bind; [done|]. intros y.
  apply respects_bind; [done|]. intros ys. apply respects_ret.
Qed.

Lemma respects_now : respects now.
Proof.
  intros w r w' H. apply now_inv in H as (t & _ & Ht & ->).
  by apply extends_later.
Qed.

Lemma forEach_send_grows message (l : list WebSocket.t) :
  Forall2 socket_grows l (forEach_send message l).
Proof.
  unfold forEach_send. apply Forall2_fmap_r, Forall_Forall2_diag, Forall_forall.
  intros ws _. unfold compose.
  destruct (decide (WebSocket.readyState ws = OPEN)).
  - split; [done|]. split; [done|]. simpl. by eexists.
  - apply socket_grows_refl.
Qed.

Lemma extends_deliver message w u : extends w (deliver message w u).
Proof.
  unfold deliver. destruct (connections w !! u) as [l|] eqn:El;
    [|apply extends_refl].
  unfold extends, log, with_connections. simpl.
  refine (conj _ (conj _ (conj _ (conj _ (conj _ (conj _ (conj _ _)))))));
    try done; try lia.
  - by eexists.
  - intros v. destruct (decide (v = u)) as [->|Hne].
    + rewrite lookup_insert_eq, El. constructor. apply forEach_send_grows.
    + rewrite lookup_insert_ne by done. apply sockets_refl.
Qed.

Lemma extends_broadcastToUsers userIds message w :
  extends w (broadcastToUsers userIds message w).
Proof.
  unfold broadcastToUsers. revert w.
  induction userIds as [|u l IH]; intros w; [apply extends_refl|].
  simpl. eapply extends_trans; [apply extends_deliver | apply IH].
Qed.

Lemma respects_broadcastToUsers userIds message :
  respects (modify (broadcastToUsers userIds message)).
Proof. intros w r w' [= <- <-]. apply extends_broadcastToUsers. Qed.

Lemma respects_broadcastToUser userId message :
  respects (modify (broadcastToUser userId message)).
Proof. intros w r w' [= <- <-]. apply extends_deliver. Qed.

Lemma respects_message_create data st :
  respects (prisma.message.create data st).
Proof.
  intros w r w' H. unfold prisma.message.create in H.
  apply bind_inv in H as [(d & w1 & Hd & H) | (e & Hd & _)];
    [|discriminate Hd].
  apply gets_inv in Hd as [-> ->].
  destruct (decide (prisma.message.references_ok (db w) data));
    [|injection H as _ <-; apply extends_refl].
  apply bind_inv in H as [(t & w1 & Hnow & H) | (e & Hnow & _)];
    [|by apply now_inv in Hnow as (? & ? & _)].
  apply now_inv in Hnow as (t' & [= ->] & Ht & ->).
  apply bind_inv in H as [(u & w1 & Hm & H) | (e & Hm & _)];
    [|discriminate Hm].
  apply modify_inv in Hm as ->. injection H as _ <-.
  unfold log, with_db. simpl.
  apply extends_tables; try done. simpl. apply prefix_snoc.
Qed.

Lemma respects_updateMany P `{PDec : !∀ m, Decision (P m)} conversationId st :
  respects (prisma.message.updateMany P conversationId st).
Proof.
  intros w r w' H. apply updateMany_inv in H as (_ & t & Ht & ->).
  apply extends_tables; try done. simpl.
  by rewrite core_updateWhere.
Qed.

Lemma respects_update_deleted id deletedAt :
  respects (prisma.message.update_deleted id deletedAt).
Proof.
  intros w r w' H. unfold prisma.message.update_deleted in H.
  apply bind_inv in H as [(found & w1 & Hf & H) | (e & Hf & _)];
    [|discriminate Hf].
  apply gets_inv in Hf as [-> ->].
  destruct (prisma.messageOf (db w) id) as [m|];
    [|injection H as _ <-; apply extends_refl].
  apply bind_inv in H as [(t & w1 & Hnow & H) | (e & Hnow & _)];
    [|by apply now_inv in Hnow as (? & ? & _)].
  apply now_inv in Hnow as (t' & [= ->] & Ht & ->).
  injection H as _ <-. unfold log, with_db. simpl.
  apply extends_tables; try done. simpl.
  by rewrite core_updateWhere.
Qed.

Lemma respects_conversation_update id lastMessageAt :
  respects (prisma.conversation.update id lastMessageAt).
Proof.
  intros w r w' H. unfold prisma.conversation.update in H.
  apply bind_inv in H as [(found & w1 & Hf & H) | (e & Hf & _)];
    [|discriminate Hf].
  apply gets_inv in Hf as [-> ->].
  destruct (prisma.conversationOf (db w) id) as [c|];
    [|injection H as _ <-; apply extends_refl].
  apply bind_inv in H as [(t & w1 & Hnow & H) | (e & Hnow & _)];
    [|by apply now_inv in Hnow as (? & ? & _)].
  apply now_inv in Hnow as (t' & [= ->] & Ht & ->).
  injection H as _ <-. unfold log, with_db. simpl.
  apply extends_tables; try done. simpl.
  by rewrite core_updateWhere.
Qed.

Lemma respects_participant_update conversationId userId lastReadAt :
  respects (prisma.conversationParticipant.update conversationId userId
                                                  lastReadAt).
Proof.
  intros w r w' H. unfold prisma.conversationParticipant.update in H.
  apply bind_inv in H as [(found & w1 & Hf & H) | (e & Hf & _)];
    [|discriminate Hf].
  apply gets_inv in Hf as [-> ->].
  destruct (prisma.findFirst _ (participants (db w))) as [p|];
    [|injection H as _ <-; apply extends_refl].
  injection H as _ <-. unfold log, with_db. simpl.
  apply extends_tables; try done; try lia. simpl.
  by rewrite core_updateWhere.
Qed.

Lemma respects_conversation_create type userIds :
  respects (prisma.conversation.create type userIds).
Proof.
  intros w r w' H. unfold prisma.conversation.create in H.
  apply bind_inv in H as [(d & w1 & Hd & H) | (e & Hd & _)];
    [|discriminate Hd].
  apply gets_inv in Hd as [-> ->].
  destruct (decide (Forall _ userIds));
    [|injection H as _ <-; apply extends_refl].
  destruct (decide (NoDup userIds));
    [|injection H as _ <-; apply extends_refl].
  apply bind_inv in H as [(t & w1 & Hnow & H) | (e & Hnow & _)];
    [|by apply now_inv in Hnow as (? & ? & _)].
  apply now_inv in Hnow as (t' & [= ->] & Ht & ->).
  apply bind_inv in H as [(u & w1 & Hm & H) | (e & Hm & _)];
    [|discriminate Hm].
  apply modify_inv in Hm as ->. injection H as _ <-.
  unfold log, with_db. simpl.
  apply extends_tables; try done; simpl; apply prefix_snoc.
Qed.

(** A task built from the steps above extends the world. *)
Ltac respect_step :=
  lazymatch goal with
  | |- respects (_ ≫= _) => apply respects_bind; [|intros ?]
  | |- respects (try_catch _ _) => apply respects_try_catch
  | |- respects (mret _) => apply respects_ret
  | |- respects (throw _) => apply respects_throw
  | |- respects (gets _) => apply respects_gets
  | |- respects (prisma.required _) => apply respects_required
  | |- respects (prisma.paginate _ _ _) => apply respects_paginate
  | |- respects now => apply respects_now
  | |- respects (modify (broadcastToUsers _ _)) =>
      apply respects_broadcastToUsers
  | |- respects (modify (broadcastToUser _ _)) =>
      apply respects_broadcastToUser
  | |- respects (prisma.message.create _ _) => apply respects_message_create
  | |- respects (prisma.message.updateMany _ _ _) => apply respects_updateMany
  | |- respects (prisma.message.update_deleted _ _) =>
      apply respects_update_deleted
  | |- respects (prisma.conversation.update _ _) =>
      apply respects_conversation_update
  | |- respects (prisma.conversation.create _ _) =>
      apply respects_conversation_create
  | |- respects (prisma.conversationParticipant.update _ _ _) =>
      apply respects_participant_update
  | |- respects (forEachTask _ _) => apply respects_forEachTask; intros ?
  | |- respects (match ?x with _ => _ end) => destruct x
  | |- respects (let _ := _ in _) => cbv zeta
  end.

Ltac respect_handler :=
  unfold formatConversation, prisma.user.findUnique,
    prisma.conversation.findUnique, prisma.conversation.findUnique_participants,
    prisma.message.findUnique, prisma.message.count,
    prisma.conversationParticipant.findUnique,
    prisma.conversationParticipant.findMany,
    prisma.conversationParticipant.count;
  repeat respect_step.

Lemma handle_extends (user : option Z) (req : Request) (w : World) :
  extends w (handle user req w).
Proof.
  assert (∀ A (c : Task A), respects c → extends w (c w).2) as Hrun.
  { intros A c Hc. destruct (c w) as [r w'] eqn:E. exact (Hc _ _ _ E). }
  destruct req; simpl; apply Hrun.
  - unfold getConversations. respect_handler.
  - unfold getConversation. respect_handler.
  - unfold createDirectConversation. respect_handler.
  - unfold getMessages. respect_handler.
  - unfold sendMessage. respect_handler.
  - unfold readMessages. respect_handler.
  - unfold deleteMessage. respect_handler.
  - unfold initiateCall. respect_handler.
Qed.

(** X22.  No request undoes anything, whatever it is answered: after any
    sequence of the eight requests, each by any caller, the clock has not
    gone back, the users and the groups are the same, every conversation,
    participant and message row is still there, in its place and with its
    key, its conversation, its sender and its date of creation, so a delete
    removes no row and no key is used twice for another row, new rows come
    after the old ones, and every socket is still registered in the same
    state with the frames written before at the front of what is written
    to it. *)
Theorem requests_only_extend
    (requests : list (option Z * Request)) (w : World) :
  extends w (foldl (λ w request, handle request.1 request.2 w) w requests).
Proof.
  revert w. induction requests as [|[user req] requests IH]; intros w.
  - apply extends_refl.
  - simpl. eapply extends_trans; [apply handle_extends | apply IH].
Qed.

Lemma registry_ok_extends (w w' : World) :
  extends w w' → registry_ok w → registry_ok w'.
Proof.
  intros (_ & _ & _ & _ & _ & _ & _ & Hs) Hok u l' Hl'.
  specialize (Hs u). rewrite Hl' in Hs.
  inversion Hs as [l k Hlk Hl Hk|]; subst.
  symmetry in Hl. destruct (Hok u l Hl) as [Hne Hnd].
  split.
  - intros ->. apply Forall2_length in Hlk. by destruct l.
  - replace (WebSocket.wsId <$> l') with (WebSocket.wsId <$> l); [done|].
    apply Forall2_fmap_eq. eapply Forall2_impl; [exact Hlk|].
    by intros a b (Hid & _).
Qed.

Lemma wf_connections (w w' : World) :
  db w' = db w → clock w' = clock w → wf w → wf w'.
Proof. unfold wf. by intros -> ->. Qed.

Lemma preserves_getConversation user id : preserves (getConversation user id).
Proof. unfold getConversation. preserve_handler. Qed.

Lemma wf_handle (user : option Z) (req : Request) (w : World) :
  wf w → wf (handle user req w).
Proof.
  intros Hwf.
  assert (∀ A (c : Task A), preserves c → wf (c w).2) as Hrun.
  { intros A c Hc. destruct (c w) as [r w'] eqn:E. exact (Hc _ _ _ Hwf E). }
  destruct handlers_preserve_integrity
    as (Hsend & Hread & Hdelete & Hcall & Hhistory & Hlist & Hdirect).
  destruct req; simpl; apply Hrun.
  - apply Hlist.
  - apply preserves_getConversation.
  - apply Hdirect.
  - apply Hhistory.
  - apply Hsend.
  - apply Hread.
  - apply Hdelete.
  - apply Hcall.
Qed.


